(** * libxdp: program handles, run-config metadata, ordering, pinning, attach

    A shallow embedding of [lib/libxdp/libxdp.c].  C integers are [Z];
    [unsigned int] results are reduced modulo [2^32] where the C code can
    wrap.  A C string is a [string] without NUL; a pointer that may be NULL
    is an [option].  Functions that dereference a pointer return [None] when
    the C program would dereference NULL (or a dangling pointer): [None] is
    undefined behaviour, never an error code. *)

From Stdlib Require Import ZArith Ascii String Lia.
From stdpp Require Import base numbers option list strings pretty.
From stdpp Require Import gmap fin_maps sorting.

Local Open Scope string_scope.
Local Open Scope Z_scope.

(** ** errno values (asm-generic/errno-base.h, errno.h) *)

Definition EPERM : Z := 1.
Definition ENOENT : Z := 2.
Definition EINTR : Z := 4.
Definition EBADF : Z := 9.
Definition ENOMEM : Z := 12.
Definition EBUSY : Z := 16.
Definition EEXIST : Z := 17.
Definition ENOTDIR : Z := 20.
Definition EISDIR : Z := 21.
Definition EINVAL : Z := 22.
Definition ENAMETOOLONG : Z := 36.
Definition ENOTEMPTY : Z := 39.
Definition EOPNOTSUPP : Z := 95.
(** glibc: [#define ENOTSUP EOPNOTSUPP] *)
Definition ENOTSUP : Z := EOPNOTSUPP.

Definition PATH_MAX : nat := 4096.
Definition BPF_TAG_SIZE : nat := 8.

Definition u32 (x : Z) : Z := x mod 2 ^ 32.

(** ** C strings *)

Definition byte_of (c : ascii) : Z := Z.of_nat (nat_of_ascii c).

(** [strcmp]: the difference of the first pair of differing bytes (as
    [unsigned char]); the end of a string reads as the terminating NUL. *)
Fixpoint strcmp (a b : string) : Z :=
  match a, b with
  | EmptyString, EmptyString => 0
  | EmptyString, String d _ => 0 - byte_of d
  | String c _, EmptyString => byte_of c - 0
  | String c a', String d b' =>
      if Ascii.eqb c d then strcmp a' b' else byte_of c - byte_of d
  end.

(** A string that can live in a C buffer: no embedded NUL. *)
Fixpoint c_string (s : string) : Prop :=
  match s with
  | EmptyString => True
  | String c s' => byte_of c ≠ 0 ∧ c_string s'
  end.

(** [memcmp(a, b, n)] over byte arrays; reading past the model list yields 0
    (the arrays are zero-initialised by [memset] in [xdp_program__new]). *)
Fixpoint memcmp (a b : list Z) (n : nat) : Z :=
  match n with
  | O => 0
  | S n' =>
      let x := hd 0 a in
      let y := hd 0 b in
      if x =? y then memcmp (tl a) (tl b) n' else x - y
  end.

(** Modelled from the spec: [check_snprintf] is declared in util.h and defined
    outside this file; it formats into a buffer of [buf_len] bytes and
    fails when the output (with its NUL) does not fit. *)
Definition check_snprintf (buf_len : nat) (out : string) : Z :=
  if (String.length out <? buf_len)%nat then 0 else - ENAMETOOLONG.

(** ** BTF type information (bpf/btf.h, linux/btf.h) *)

Inductive btf_kind :=
  | BTF_KIND_UNKN | BTF_KIND_INT | BTF_KIND_PTR | BTF_KIND_ARRAY
  | BTF_KIND_STRUCT | BTF_KIND_UNION | BTF_KIND_ENUM | BTF_KIND_FWD
  | BTF_KIND_TYPEDEF | BTF_KIND_VOLATILE | BTF_KIND_CONST
  | BTF_KIND_RESTRICT | BTF_KIND_FUNC | BTF_KIND_FUNC_PROTO
  | BTF_KIND_VAR | BTF_KIND_DATASEC.

Record btf_array := { arr_type : Z; arr_index_type : Z; nelems : Z }.

(** [m_name] is [btf__name_by_offset(btf, m->name_off)]: NULL when the
    offset lies outside the string section. *)
Record btf_member := { m_name : option string; m_type : Z; m_offset : Z }.

Record btf_var_secinfo := { vi_type : Z; vi_offset : Z; vi_size : Z }.

(** The data that follows a [struct btf_type] in memory, by kind. *)
Inductive btf_extra :=
  | ExtraNone
  | ExtraArray (a : btf_array)
  | ExtraMembers (ms : list btf_member)
  | ExtraVar (linkage : Z)
  | ExtraSecinfos (vs : list btf_var_secinfo).

(** [t_type] is the C union [{ size; type }]. *)
Record btf_type := {
  t_name : option string;
  t_kind : btf_kind;
  t_type : Z;
  t_extra : btf_extra
}.

Definition t_size (t : btf_type) : Z := t_type t.

(** Types 1..nr_types; id 0 is [btf_void]. *)
Record struct_btf := { types : list btf_type }.

Definition btf_void : btf_type :=
  {| t_name := Some ""; t_kind := BTF_KIND_UNKN; t_type := 0;
     t_extra := ExtraNone |}.

Definition btf__get_nr_types (btf : struct_btf) : Z :=
  Z.of_nat (length (types btf)).

Definition btf__type_by_id (btf : struct_btf) (id : Z) : option btf_type :=
  if id >? btf__get_nr_types btf then None
  else if id =? 0 then Some btf_void
  else types btf !! Z.to_nat (id - 1).

Definition btf_kind_eqb (a b : btf_kind) : bool :=
  match a, b with
  | BTF_KIND_UNKN, BTF_KIND_UNKN | BTF_KIND_INT, BTF_KIND_INT
  | BTF_KIND_PTR, BTF_KIND_PTR | BTF_KIND_ARRAY, BTF_KIND_ARRAY
  | BTF_KIND_STRUCT, BTF_KIND_STRUCT | BTF_KIND_UNION, BTF_KIND_UNION
  | BTF_KIND_ENUM, BTF_KIND_ENUM | BTF_KIND_FWD, BTF_KIND_FWD
  | BTF_KIND_TYPEDEF, BTF_KIND_TYPEDEF
  | BTF_KIND_VOLATILE, BTF_KIND_VOLATILE | BTF_KIND_CONST, BTF_KIND_CONST
  | BTF_KIND_RESTRICT, BTF_KIND_RESTRICT | BTF_KIND_FUNC, BTF_KIND_FUNC
  | BTF_KIND_FUNC_PROTO, BTF_KIND_FUNC_PROTO | BTF_KIND_VAR, BTF_KIND_VAR
  | BTF_KIND_DATASEC, BTF_KIND_DATASEC => true
  | _, _ => false
  end.

Definition btf_kind_is (k : btf_kind) (t : btf_type) : bool :=
  btf_kind_eqb (t_kind t) k.

Definition btf_is_mod (t : btf_type) : bool :=
  btf_kind_is BTF_KIND_VOLATILE t || btf_kind_is BTF_KIND_CONST t
  || btf_kind_is BTF_KIND_RESTRICT t.
Definition btf_is_typedef := btf_kind_is BTF_KIND_TYPEDEF.
Definition btf_is_ptr := btf_kind_is BTF_KIND_PTR.
Definition btf_is_array := btf_kind_is BTF_KIND_ARRAY.
Definition btf_is_struct := btf_kind_is BTF_KIND_STRUCT.
Definition btf_is_var := btf_kind_is BTF_KIND_VAR.
Definition btf_is_datasec := btf_kind_is BTF_KIND_DATASEC.

(** Accessors for the trailing data.  The C accessors are pointer casts; the
    parser only reads through them after it has checked the kind, so a
    mismatch is reported as [None]. *)
Definition btf_array_of (t : btf_type) : option btf_array :=
  match t_extra t with ExtraArray a => Some a | _ => None end.
Definition btf_members (t : btf_type) : option (list btf_member) :=
  match t_extra t with ExtraMembers ms => Some ms | _ => None end.
Definition btf_var_linkage (t : btf_type) : option Z :=
  match t_extra t with ExtraVar l => Some l | _ => None end.
Definition btf_var_secinfos (t : btf_type) : option (list btf_var_secinfo) :=
  match t_extra t with ExtraSecinfos vs => Some vs | _ => None end.

Definition BTF_VAR_STATIC : Z := 0.
Definition BTF_VAR_GLOBAL_ALLOCATED : Z := 1.

(** ** The program handle *)

(** What the library reads of a libbpf [struct bpf_program]. *)
Record bpf_program := {
  bp_title : string;
  bp_name : string;
  bp_size : Z
}.

(** Addresses of heap objects ([struct bpf_object], [struct btf]). *)
Abbreviation ptr := N.

Record xdp_program := {
  bpf_prog : option bpf_program;
  bpf_obj : option ptr;
  btf : option ptr;
  prog_fd : Z;
  link_fd : Z;
  link_pin_path : option string;
  prog_name : option string;
  prog_tag : list Z;
  load_time : Z;
  from_external_obj : bool;
  run_prio : Z;
  chain_call_actions : Z
}.

Definition set_bpf_prog v (p : xdp_program) : xdp_program :=
  {| bpf_prog := v; bpf_obj := bpf_obj p; btf := btf p; prog_fd := prog_fd p;
     link_fd := link_fd p; link_pin_path := link_pin_path p;
     prog_name := prog_name p; prog_tag := prog_tag p;
     load_time := load_time p; from_external_obj := from_external_obj p;
     run_prio := run_prio p; chain_call_actions := chain_call_actions p |}.
Definition set_bpf_obj v (p : xdp_program) : xdp_program :=
  {| bpf_prog := bpf_prog p; bpf_obj := v; btf := btf p; prog_fd := prog_fd p;
     link_fd := link_fd p; link_pin_path := link_pin_path p;
     prog_name := prog_name p; prog_tag := prog_tag p;
     load_time := load_time p; from_external_obj := from_external_obj p;
     run_prio := run_prio p; chain_call_actions := chain_call_actions p |}.
Definition set_btf v (p : xdp_program) : xdp_program :=
  {| bpf_prog := bpf_prog p; bpf_obj := bpf_obj p; btf := v;
     prog_fd := prog_fd p;
     link_fd := link_fd p; link_pin_path := link_pin_path p;
     prog_name := prog_name p; prog_tag := prog_tag p;
     load_time := load_time p; from_external_obj := from_external_obj p;
     run_prio := run_prio p; chain_call_actions := chain_call_actions p |}.
Definition set_prog_fd v (p : xdp_program) : xdp_program :=
  {| bpf_prog := bpf_prog p; bpf_obj := bpf_obj p; btf := btf p; prog_fd := v;
     link_fd := link_fd p; link_pin_path := link_pin_path p;
     prog_name := prog_name p; prog_tag := prog_tag p;
     load_time := load_time p; from_external_obj := from_external_obj p;
     run_prio := run_prio p; chain_call_actions := chain_call_actions p |}.
Definition set_link_fd v (p : xdp_program) : xdp_program :=
  {| bpf_prog := bpf_prog p; bpf_obj := bpf_obj p; btf := btf p;
     prog_fd := prog_fd p;
     link_fd := v; link_pin_path := link_pin_path p;
     prog_name := prog_name p; prog_tag := prog_tag p;
     load_time := load_time p; from_external_obj := from_external_obj p;
     run_prio := run_prio p; chain_call_actions := chain_call_actions p |}.
Definition set_link_pin_path v (p : xdp_program) : xdp_program :=
  {| bpf_prog := bpf_prog p; bpf_obj := bpf_obj p; btf := btf p;
     prog_fd := prog_fd p;
     link_fd := link_fd p; link_pin_path := v;
     prog_name := prog_name p; prog_tag := prog_tag p;
     load_time := load_time p; from_external_obj := from_external_obj p;
     run_prio := run_prio p; chain_call_actions := chain_call_actions p |}.
Definition set_prog_name v (p : xdp_program) : xdp_program :=
  {| bpf_prog := bpf_prog p; bpf_obj := bpf_obj p; btf := btf p;
     prog_fd := prog_fd p;
     link_fd := link_fd p; link_pin_path := link_pin_path p;
     prog_name := v; prog_tag := prog_tag p;
     load_time := load_time p; from_external_obj := from_external_obj p;
     run_prio := run_prio p; chain_call_actions := chain_call_actions p |}.
Definition set_prog_tag v (p : xdp_program) : xdp_program :=
  {| bpf_prog := bpf_prog p; bpf_obj := bpf_obj p; btf := btf p;
     prog_fd := prog_fd p;
     link_fd := link_fd p; link_pin_path := link_pin_path p;
     prog_name := prog_name p; prog_tag := v;
     load_time := load_time p; from_external_obj := from_external_obj p;
     run_prio := run_prio p; chain_call_actions := chain_call_actions p |}.
Definition set_load_time v (p : xdp_program) : xdp_program :=
  {| bpf_prog := bpf_prog p; bpf_obj := bpf_obj p; btf := btf p;
     prog_fd := prog_fd p;
     link_fd := link_fd p; link_pin_path := link_pin_path p;
     prog_name := prog_name p; prog_tag := prog_tag p;
     load_time := v; from_external_obj := from_external_obj p;
     run_prio := run_prio p; chain_call_actions := chain_call_actions p |}.
Definition set_from_external_obj v (p : xdp_program) : xdp_program :=
  {| bpf_prog := bpf_prog p; bpf_obj := bpf_obj p; btf := btf p;
     prog_fd := prog_fd p;
     link_fd := link_fd p; link_pin_path := link_pin_path p;
     prog_name := prog_name p; prog_tag := prog_tag p;
     load_time := load_time p; from_external_obj := v;
     run_prio := run_prio p; chain_call_actions := chain_call_actions p |}.
Definition set_chain_call_actions v (p : xdp_program) : xdp_program :=
  {| bpf_prog := bpf_prog p; bpf_obj := bpf_obj p; btf := btf p;
     prog_fd := prog_fd p;
     link_fd := link_fd p; link_pin_path := link_pin_path p;
     prog_name := prog_name p; prog_tag := prog_tag p;
     load_time := load_time p; from_external_obj := from_external_obj p;
     run_prio := run_prio p; chain_call_actions := v |}.

(** enum xdp_action (linux/bpf.h) *)
Definition XDP_ABORTED : Z := 0.
Definition XDP_DROP : Z := 1.
Definition XDP_PASS : Z := 2.
Definition XDP_TX : Z := 3.
Definition XDP_REDIRECT : Z := 4.

(** Indexed by action code. *)
Definition xdp_action_names : list string :=
  ["XDP_ABORTED"; "XDP_DROP"; "XDP_PASS"; "XDP_TX"; "XDP_REDIRECT"].

Definition XDP_RUN_CONFIG_SEC : string := ".xdp_run_config".

(** [1 << action] is an [int] shift, which C defines for [action] below the
    width of [int] only; the callers in this file pass the index of an
    action name (below 5), and the statements about the two functions
    below are for actions below 32.  For larger actions the value here is
    not meant to say what a compiled program does. *)
Definition xdp_program__set_chain_call_enabled
    (prog : xdp_program) (action : Z) (enabled : bool) : xdp_program :=
  if enabled then
    set_chain_call_actions
      (u32 (Z.lor (chain_call_actions prog) (Z.shiftl 1 action))) prog
  else
    set_chain_call_actions
      (u32 (Z.land (chain_call_actions prog) (Z.lnot (Z.shiftl 1 action))))
      prog.

Definition xdp_program__chain_call_enabled
    (prog : xdp_program) (action : Z) : bool :=
  negb (Z.land (chain_call_actions prog) (Z.shiftl 1 action) =? 0).

Definition xdp_program__run_prio (prog : xdp_program) : Z := run_prio prog.

(** [set_run_prio] is the one field setter that is also a C function. *)
Definition xdp_program__set_run_prio (prog : xdp_program) (v : Z)
    : xdp_program :=
  {| bpf_prog := bpf_prog prog; bpf_obj := bpf_obj prog; btf := btf prog;
     prog_fd := prog_fd prog;
     link_fd := link_fd prog; link_pin_path := link_pin_path prog;
     prog_name := prog_name prog; prog_tag := prog_tag prog;
     load_time := load_time prog;
     from_external_obj := from_external_obj prog;
     run_prio := v; chain_call_actions := chain_call_actions prog |}.

Definition xdp_program__name (prog : xdp_program) : option string :=
  prog_name prog.

(** ** Run-config metadata parser *)

(** The [while] loop follows [t->type]; it runs forever on a cycle of
    modifiers.  A chain without a cycle visits each type at most once, so
    [fuel] of one more than the number of types is enough for every
    terminating run; [None] is a NULL dereference or a run that never ends. *)
Fixpoint skip_mods_loop (fuel : nat) (btf : struct_btf) (t : btf_type)
    : option btf_type :=
  if btf_is_mod t || btf_is_typedef t then
    match fuel with
    | O => None
    | S fuel' =>
        match btf__type_by_id btf (t_type t) with
        | None => None
        | Some t' => skip_mods_loop fuel' btf t'
        end
    end
  else Some t.

Definition skip_mods_and_typedefs (btf : struct_btf) (id : Z)
    : option btf_type :=
  match btf__type_by_id btf id with
  | None => None
  | Some t => skip_mods_loop (S (length (types btf))) btf t
  end.

(** [get_field_int]: the outer option is undefined behaviour, the inner one
    is the C [bool] result together with [*res] when it is [true]. *)
Definition get_field_int (btf : struct_btf) (m : btf_member)
    : option (option Z) :=
  match skip_mods_and_typedefs btf (m_type m) with
  | None => None
  | Some t =>
      if negb (btf_is_ptr t) then Some None
      else
        match btf__type_by_id btf (t_type t) with
        | None => Some None
        | Some arr_t =>
            if negb (btf_is_array arr_t) then Some None
            else
              match btf_array_of arr_t with
              | None => None
              | Some arr_info => Some (Some (nelems arr_info))
              end
        end
  end.

Fixpoint get_xdp_action_from (i : Z) (names : list string)
    (act_name : string) : option Z :=
  match names with
  | [] => None
  | name :: names' =>
      if strcmp act_name name =? 0 then Some i
      else get_xdp_action_from (i + 1) names' act_name
  end.

Definition get_xdp_action (act_name : string) : option Z :=
  get_xdp_action_from 0 xdp_action_names act_name.

(** The result of a function that mutates the handle and returns an [int]. *)
Abbreviation parse_result := (option (Z * xdp_program)).

(** The loop over the members of the run-config struct. *)
Fixpoint parse_members (btf : struct_btf) (ms : list btf_member)
    (xdp_prog : xdp_program) : parse_result :=
  match ms with
  | [] => Some (0, xdp_prog)
  | m :: ms' =>
      match m_name m with
      | None => Some (- EINVAL, xdp_prog)
      | Some mname =>
          if strcmp mname "priority" =? 0 then
            match get_field_int btf m with
            | None => None
            | Some None => Some (- EINVAL, xdp_prog)
            | Some (Some v) =>
                parse_members btf ms' (xdp_program__set_run_prio xdp_prog v)
            end
          else
            match get_xdp_action mname with
            | Some act =>
                match get_field_int btf m with
                | None => None
                | Some None => Some (- EINVAL, xdp_prog)
                | Some (Some val) =>
                    parse_members btf ms'
                      (xdp_program__set_chain_call_enabled xdp_prog act
                         (negb (val =? 0)))
                end
            | None => Some (- ENOTSUP, xdp_prog)
            end
      end
  end.

(** The body of the loop over the section's variables, from the linkage
    check on: what happens to the variable whose name matched. *)
Definition parse_var (btf : struct_btf) (var : btf_type)
    (vi : btf_var_secinfo) (xdp_prog : xdp_program) : parse_result :=
  if negb (btf_is_var var) then Some (- EINVAL, xdp_prog)
  else
    match btf_var_linkage var with
    | None => None
    | Some linkage =>
        if negb (linkage =? BTF_VAR_GLOBAL_ALLOCATED)
           && negb (linkage =? BTF_VAR_STATIC)
        then Some (- EOPNOTSUPP, xdp_prog)
        else
          match skip_mods_and_typedefs btf (t_type var) with
          | None => None
          | Some def =>
              if negb (btf_is_struct def) then Some (- EINVAL, xdp_prog)
              else if t_size def >? vi_size vi then Some (- EINVAL, xdp_prog)
              else
                match btf_members def with
                | None => None
                | Some ms => parse_members btf ms xdp_prog
                end
          end
    end.

(** The loop over the variables of the section. *)
Fixpoint parse_vars (btf : struct_btf) (struct_name : string)
    (vis : list btf_var_secinfo) (xdp_prog : xdp_program) : parse_result :=
  match vis with
  | [] => Some (- ENOENT, xdp_prog)
  | vi :: vis' =>
      match btf__type_by_id btf (vi_type vi) with
      | None => None
      | Some var =>
          match t_name var with
          | None => None
          | Some name =>
              if negb (strcmp name struct_name =? 0) then
                parse_vars btf struct_name vis' xdp_prog
              else parse_var btf var vi xdp_prog
          end
      end
  end.

(** The first loop: the first DATASEC named [XDP_RUN_CONFIG_SEC].  The outer
    option is undefined behaviour ([strcmp] on a NULL name). *)
Fixpoint find_run_config_sec (ts : list btf_type)
    : option (option btf_type) :=
  match ts with
  | [] => Some None
  | t :: ts' =>
      if negb (btf_is_datasec t) then find_run_config_sec ts'
      else
        match t_name t with
        | None => None
        | Some name =>
            if strcmp name XDP_RUN_CONFIG_SEC =? 0 then Some (Some t)
            else find_run_config_sec ts'
        end
  end.

(** [xdp_parse_run_config]; [btf] is what [xdp_program__btf(xdp_prog)] points
    to ([None] for NULL). *)
Definition xdp_parse_run_config (btf : option struct_btf)
    (xdp_prog : xdp_program) : parse_result :=
  match btf with
  | None => Some (- ENOENT, xdp_prog)
  | Some btf =>
      match xdp_program__name xdp_prog with
      | None => None
      | Some pname =>
          let struct_name := "_" +:+ pname in
          let err := check_snprintf 100 struct_name in
          if negb (err =? 0) then Some (err, xdp_prog)
          else
            match find_run_config_sec (types btf) with
            | None => None
            | Some None => Some (- ENOENT, xdp_prog)
            | Some (Some sec) =>
                match btf_var_secinfos sec with
                | None => None
                | Some vis => parse_vars btf struct_name vis xdp_prog
                end
            end
      end
  end.

(** ** Ordering of handles *)

Definition bpf_program__size (p : bpf_program) : Z := bp_size p.

(** [cmp_xdp_programs]; [None] is [strcmp] on a NULL name. *)
Definition cmp_xdp_programs (a b : xdp_program) : option Z :=
  if negb (run_prio a =? run_prio b) then
    Some (if run_prio a <? run_prio b then -1 else 1)
  else
    match prog_name a, prog_name b with
    | Some name_a, Some name_b =>
        let cmp := strcmp name_a name_b in
        if negb (cmp =? 0) then Some cmp
        (* loaded before non-loaded *)
        else if (prog_fd a >=? 0) && (prog_fd b <? 0) then Some (-1)
        else if (prog_fd a <? 0) && (prog_fd b >=? 0) then Some 1
        else
          let rest :=
            let cmp := memcmp (prog_tag a) (prog_tag b) BPF_TAG_SIZE in
            if negb (cmp =? 0) then cmp
            else if negb (load_time a =? load_time b) then
              (if load_time a <? load_time b then -1 else 1)
            else 0 in
          match bpf_prog a, bpf_prog b with
          | Some pa, Some pb =>
              let size_a := bpf_program__size pa in
              let size_b := bpf_program__size pb in
              if negb (size_a =? size_b) then
                Some (if size_a <? size_b then -1 else 1)
              else Some rest
          | _, _ => Some rest
          end
    | _, _ => None
    end.

(** The key vector as section 4.5 of the specification words it: the size
    key applies to two handles without a loaded descriptor. *)
Definition spec_cmp (a b : xdp_program) : option Z :=
  if negb (run_prio a =? run_prio b) then
    Some (if run_prio a <? run_prio b then -1 else 1)
  else
    match prog_name a, prog_name b with
    | Some name_a, Some name_b =>
        let cmp := strcmp name_a name_b in
        if negb (cmp =? 0) then Some cmp
        else if (prog_fd a >=? 0) && (prog_fd b <? 0) then Some (-1)
        else if (prog_fd a <? 0) && (prog_fd b >=? 0) then Some 1
        else
          let rest :=
            let cmp := memcmp (prog_tag a) (prog_tag b) BPF_TAG_SIZE in
            if negb (cmp =? 0) then cmp
            else if negb (load_time a =? load_time b) then
              (if load_time a <? load_time b then -1 else 1)
            else 0 in
          if (prog_fd a <? 0) && (prog_fd b <? 0) then
            match bpf_prog a, bpf_prog b with
            | Some pa, Some pb =>
                if negb (bp_size pa =? bp_size pb) then
                  Some (if bp_size pa <? bp_size pb then -1 else 1)
                else Some rest
            | _, _ => Some rest
            end
          else Some rest
    | _, _ => None
    end.

(** ** The process and its kernel: file system, descriptors, heap *)

(** What a descriptor refers to. *)
Inductive fdesc :=
  | FdProg (id : Z)
  | FdLink (prog_id : Z)
  | FdDir (path : string)
  | FdFile.

(** A file-system entry: a directory, or a pinned bpf object. *)
Inductive node :=
  | Dir
  | Pinned (obj : fdesc).

Record bpf_prog_info := {
  info_id : Z;
  info_name : string;
  info_tag : list Z;
  info_load_time : Z;
  info_btf_id : Z
}.

Definition zero_info : bpf_prog_info :=
  {| info_id := 0; info_name := ""; info_tag := replicate BPF_TAG_SIZE 0;
     info_load_time := 0; info_btf_id := 0 |}.

(** A compiled artifact on disk, as [bpf_object__open_file] parses it. *)
Record bpf_image := {
  img_programs : list bpf_program;
  img_btf : option struct_btf
}.

(** A file on disk as libbpf sees it: an artifact it can parse, or a file it
    refuses with an error number of its own (not an ELF file, a format it
    does not support, no read access, ...). *)
Inductive disk_file :=
  | Image (img : bpf_image)
  | Refused (errno : positive).

(** A live [struct bpf_object]; it owns the [struct btf] at [o_btf]. *)
Record bpf_object := {
  o_programs : list bpf_program;
  o_btf : option ptr
}.

(** One call of the interface-attach primitive [bpf_set_link_xdp_fd]. *)
Record xdp_call := { xc_ifindex : Z; xc_fd : Z; xc_flags : Z }.

(** [w_statfs] is the [f_type] that [statfs] reports for a path (absent: the
    call fails); [w_env_bpffs] the value of the mount override variable;
    [w_mnt_cache], [w_dir_cache] the function-local statics of [find_bpffs]
    and [get_bpffs_dir]; [w_objs], [w_btfs] the live libbpf objects by
    address, [w_next] the next unused address; [w_nalloc] the number of live
    blocks from [malloc]/[strdup], [w_malloc_left] how many more allocations
    succeed ([None]: all); [w_xdp_reply] the kernel's answer to a call of the
    attach primitive given all calls so far (the current one last);
    [w_xdp_log] those calls; [w_flock] the kernel's answers to the coming
    calls of [flock] on an open descriptor, in order (0: done, otherwise the
    [errno] of the failure, such as [EINTR] for a wait that a signal
    interrupts; when none is left the calls succeed); [w_dirent_rank] the
    order in which the file system hands out directory entries. *)
Record world := {
  w_errno : Z;
  w_fs : gmap string node;
  w_statfs : gmap string Z;
  w_env_bpffs : option string;
  w_mnt_cache : option string;
  w_dir_cache : option string;
  w_fds : gmap Z fdesc;
  w_kprogs : gmap Z bpf_prog_info;
  w_kbtfs : gmap Z struct_btf;
  w_disk : gmap string disk_file;
  w_objs : gmap N bpf_object;
  w_btfs : gmap N struct_btf;
  w_next : N;
  w_nalloc : Z;
  w_malloc_left : option nat;
  w_xdp_reply : list xdp_call → Z;
  w_xdp_log : list xdp_call;
  w_flock : list N;
  w_dirent_rank : string → N
}.

Definition set_w_errno v (w : world) : world :=
  {| w_errno := v; w_fs := w_fs w; w_statfs := w_statfs w;
     w_env_bpffs := w_env_bpffs w; w_mnt_cache := w_mnt_cache w;
     w_dir_cache := w_dir_cache w; w_fds := w_fds w; w_kprogs := w_kprogs w;
     w_kbtfs := w_kbtfs w; w_disk := w_disk w; w_objs := w_objs w;
     w_btfs := w_btfs w; w_next := w_next w; w_nalloc := w_nalloc w;
     w_malloc_left := w_malloc_left w; w_xdp_reply := w_xdp_reply w;
     w_xdp_log := w_xdp_log w; w_flock := w_flock w;
     w_dirent_rank := w_dirent_rank w |}.
Definition set_w_fs v (w : world) : world :=
  {| w_errno := w_errno w; w_fs := v; w_statfs := w_statfs w;
     w_env_bpffs := w_env_bpffs w; w_mnt_cache := w_mnt_cache w;
     w_dir_cache := w_dir_cache w; w_fds := w_fds w; w_kprogs := w_kprogs w;
     w_kbtfs := w_kbtfs w; w_disk := w_disk w; w_objs := w_objs w;
     w_btfs := w_btfs w; w_next := w_next w; w_nalloc := w_nalloc w;
     w_malloc_left := w_malloc_left w; w_xdp_reply := w_xdp_reply w;
     w_xdp_log := w_xdp_log w; w_flock := w_flock w;
     w_dirent_rank := w_dirent_rank w |}.
Definition set_w_mnt_cache v (w : world) : world :=
  {| w_errno := w_errno w; w_fs := w_fs w; w_statfs := w_statfs w;
     w_env_bpffs := w_env_bpffs w; w_mnt_cache := v;
     w_dir_cache := w_dir_cache w; w_fds := w_fds w; w_kprogs := w_kprogs w;
     w_kbtfs := w_kbtfs w; w_disk := w_disk w; w_objs := w_objs w;
     w_btfs := w_btfs w; w_next := w_next w; w_nalloc := w_nalloc w;
     w_malloc_left := w_malloc_left w; w_xdp_reply := w_xdp_reply w;
     w_xdp_log := w_xdp_log w; w_flock := w_flock w;
     w_dirent_rank := w_dirent_rank w |}.
Definition set_w_dir_cache v (w : world) : world :=
  {| w_errno := w_errno w; w_fs := w_fs w; w_statfs := w_statfs w;
     w_env_bpffs := w_env_bpffs w; w_mnt_cache := w_mnt_cache w;
     w_dir_cache := v; w_fds := w_fds w; w_kprogs := w_kprogs w;
     w_kbtfs := w_kbtfs w; w_disk := w_disk w; w_objs := w_objs w;
     w_btfs := w_btfs w; w_next := w_next w; w_nalloc := w_nalloc w;
     w_malloc_left := w_malloc_left w; w_xdp_reply := w_xdp_reply w;
     w_xdp_log := w_xdp_log w; w_flock := w_flock w;
     w_dirent_rank := w_dirent_rank w |}.
Definition set_w_fds v (w : world) : world :=
  {| w_errno := w_errno w; w_fs := w_fs w; w_statfs := w_statfs w;
     w_env_bpffs := w_env_bpffs w; w_mnt_cache := w_mnt_cache w;
     w_dir_cache := w_dir_cache w; w_fds := v; w_kprogs := w_kprogs w;
     w_kbtfs := w_kbtfs w; w_disk := w_disk w; w_objs := w_objs w;
     w_btfs := w_btfs w; w_next := w_next w; w_nalloc := w_nalloc w;
     w_malloc_left := w_malloc_left w; w_xdp_reply := w_xdp_reply w;
     w_xdp_log := w_xdp_log w; w_flock := w_flock w;
     w_dirent_rank := w_dirent_rank w |}.
Definition set_w_objs v (w : world) : world :=
  {| w_errno := w_errno w; w_fs := w_fs w; w_statfs := w_statfs w;
     w_env_bpffs := w_env_bpffs w; w_mnt_cache := w_mnt_cache w;
     w_dir_cache := w_dir_cache w; w_fds := w_fds w; w_kprogs := w_kprogs w;
     w_kbtfs := w_kbtfs w; w_disk := w_disk w; w_objs := v;
     w_btfs := w_btfs w; w_next := w_next w; w_nalloc := w_nalloc w;
     w_malloc_left := w_malloc_left w; w_xdp_reply := w_xdp_reply w;
     w_xdp_log := w_xdp_log w; w_flock := w_flock w;
     w_dirent_rank := w_dirent_rank w |}.
Definition set_w_btfs v (w : world) : world :=
  {| w_errno := w_errno w; w_fs := w_fs w; w_statfs := w_statfs w;
     w_env_bpffs := w_env_bpffs w; w_mnt_cache := w_mnt_cache w;
     w_dir_cache := w_dir_cache w; w_fds := w_fds w; w_kprogs := w_kprogs w;
     w_kbtfs := w_kbtfs w; w_disk := w_disk w; w_objs := w_objs w;
     w_btfs := v; w_next := w_next w; w_nalloc := w_nalloc w;
     w_malloc_left := w_malloc_left w; w_xdp_reply := w_xdp_reply w;
     w_xdp_log := w_xdp_log w; w_flock := w_flock w;
     w_dirent_rank := w_dirent_rank w |}.
Definition set_w_next v (w : world) : world :=
  {| w_errno := w_errno w; w_fs := w_fs w; w_statfs := w_statfs w;
     w_env_bpffs := w_env_bpffs w; w_mnt_cache := w_mnt_cache w;
     w_dir_cache := w_dir_cache w; w_fds := w_fds w; w_kprogs := w_kprogs w;
     w_kbtfs := w_kbtfs w; w_disk := w_disk w; w_objs := w_objs w;
     w_btfs := w_btfs w; w_next := v; w_nalloc := w_nalloc w;
     w_malloc_left := w_malloc_left w; w_xdp_reply := w_xdp_reply w;
     w_xdp_log := w_xdp_log w; w_flock := w_flock w;
     w_dirent_rank := w_dirent_rank w |}.
Definition set_w_nalloc v (w : world) : world :=
  {| w_errno := w_errno w; w_fs := w_fs w; w_statfs := w_statfs w;
     w_env_bpffs := w_env_bpffs w; w_mnt_cache := w_mnt_cache w;
     w_dir_cache := w_dir_cache w; w_fds := w_fds w; w_kprogs := w_kprogs w;
     w_kbtfs := w_kbtfs w; w_disk := w_disk w; w_objs := w_objs w;
     w_btfs := w_btfs w; w_next := w_next w; w_nalloc := v;
     w_malloc_left := w_malloc_left w; w_xdp_reply := w_xdp_reply w;
     w_xdp_log := w_xdp_log w; w_flock := w_flock w;
     w_dirent_rank := w_dirent_rank w |}.
Definition set_w_malloc_left v (w : world) : world :=
  {| w_errno := w_errno w; w_fs := w_fs w; w_statfs := w_statfs w;
     w_env_bpffs := w_env_bpffs w; w_mnt_cache := w_mnt_cache w;
     w_dir_cache := w_dir_cache w; w_fds := w_fds w; w_kprogs := w_kprogs w;
     w_kbtfs := w_kbtfs w; w_disk := w_disk w; w_objs := w_objs w;
     w_btfs := w_btfs w; w_next := w_next w; w_nalloc := w_nalloc w;
     w_malloc_left := v; w_xdp_reply := w_xdp_reply w;
     w_xdp_log := w_xdp_log w; w_flock := w_flock w;
     w_dirent_rank := w_dirent_rank w |}.
Definition set_w_xdp_log v (w : world) : world :=
  {| w_errno := w_errno w; w_fs := w_fs w; w_statfs := w_statfs w;
     w_env_bpffs := w_env_bpffs w; w_mnt_cache := w_mnt_cache w;
     w_dir_cache := w_dir_cache w; w_fds := w_fds w; w_kprogs := w_kprogs w;
     w_kbtfs := w_kbtfs w; w_disk := w_disk w; w_objs := w_objs w;
     w_btfs := w_btfs w; w_next := w_next w; w_nalloc := w_nalloc w;
     w_malloc_left := w_malloc_left w; w_xdp_reply := w_xdp_reply w;
     w_xdp_log := v; w_flock := w_flock w;
     w_dirent_rank := w_dirent_rank w |}.
Definition set_w_flock v (w : world) : world :=
  {| w_errno := w_errno w; w_fs := w_fs w; w_statfs := w_statfs w;
     w_env_bpffs := w_env_bpffs w; w_mnt_cache := w_mnt_cache w;
     w_dir_cache := w_dir_cache w; w_fds := w_fds w; w_kprogs := w_kprogs w;
     w_kbtfs := w_kbtfs w; w_disk := w_disk w; w_objs := w_objs w;
     w_btfs := w_btfs w; w_next := w_next w; w_nalloc := w_nalloc w;
     w_malloc_left := w_malloc_left w; w_xdp_reply := w_xdp_reply w;
     w_xdp_log := w_xdp_log w; w_flock := v;
     w_dirent_rank := w_dirent_rank w |}.
Definition set_w_dirent_rank v (w : world) : world :=
  {| w_errno := w_errno w; w_fs := w_fs w; w_statfs := w_statfs w;
     w_env_bpffs := w_env_bpffs w; w_mnt_cache := w_mnt_cache w;
     w_dir_cache := w_dir_cache w; w_fds := w_fds w; w_kprogs := w_kprogs w;
     w_kbtfs := w_kbtfs w; w_disk := w_disk w; w_objs := w_objs w;
     w_btfs := w_btfs w; w_next := w_next w; w_nalloc := w_nalloc w;
     w_malloc_left := w_malloc_left w; w_xdp_reply := w_xdp_reply w;
     w_xdp_log := w_xdp_log w; w_flock := w_flock w;
     w_dirent_rank := v |}.

(** ** State passing: [None] is undefined behaviour *)

Definition M (A : Type) : Type := world → option (A * world).

Definition ret {A} (a : A) : M A := λ w, Some (a, w).
Definition bind {A B} (m : M A) (k : A → M B) : M B :=
  λ w, match m w with Some (a, w') => k a w' | None => None end.
Definition fault {A} : M A := λ _, None.
Definition get_world : M world := λ w, Some (w, w).
Definition modify (f : world → world) : M unit := λ w, Some (tt, f w).

#[global] Instance M_ret : MRet M := @ret.
#[global] Instance M_bind : MBind M := λ A B k m, bind m k.

(** A system call that fails: returns -1 and sets [errno]. *)
Definition sys_fail (e : Z) : M Z := λ w, Some (-1, set_w_errno e w).
Definition get_errno : M Z := λ w, Some (w_errno w, w).

(** *** Paths *)

Fixpoint has_slash (s : string) : bool :=
  match s with
  | EmptyString => false
  | String c s' => Ascii.eqb c "/" || has_slash s'
  end.

(** The part of a path before its last slash. *)
Fixpoint dirname (s : string) : option string :=
  match s with
  | EmptyString => None
  | String c s' =>
      match dirname s' with
      | Some d => Some (String c d)
      | None => if Ascii.eqb c "/" then Some EmptyString else None
      end
  end.

Fixpoint strip_prefix (p s : string) : option string :=
  match p with
  | EmptyString => Some s
  | String c p' =>
      match s with
      | EmptyString => None
      | String d s' => if Ascii.eqb c d then strip_prefix p' s' else None
      end
  end.

(** [key] names an entry of directory [dir]: its name. *)
Definition entry_name (dir key : string) : option string :=
  match strip_prefix (dir +:+ "/") key with
  | Some e =>
      if has_slash e || (String.length e =? 0)%nat then None else Some e
  | None => None
  end.

Definition dir_entries (fs : gmap string node) (dir : string)
    : list string :=
  omap (entry_name dir) (map fst (map_to_list fs)).

(** The root is the empty path; a path without a slash is relative to a
    working directory that exists. *)
Definition parent_is_dir (fs : gmap string node) (path : string) : bool :=
  match dirname path with
  | None | Some EmptyString => true
  | Some d => match fs !! d with Some Dir => true | _ => false end
  end.

(** *** File-system calls *)

Definition mkdir (path : string) : M Z := λ w,
  match w_fs w !! path with
  | Some _ => sys_fail EEXIST w
  | None =>
      if parent_is_dir (w_fs w) path then
        Some (0, set_w_fs (<[path := Dir]> (w_fs w)) w)
      else sys_fail ENOENT w
  end.

Definition unlink (path : string) : M Z := λ w,
  match w_fs w !! path with
  | Some (Pinned _) => Some (0, set_w_fs (delete path (w_fs w)) w)
  | Some Dir => sys_fail EISDIR w
  | None => sys_fail ENOENT w
  end.

Definition rmdir (path : string) : M Z := λ w,
  match w_fs w !! path with
  | Some Dir =>
      match dir_entries (w_fs w) path with
      | [] => Some (0, set_w_fs (delete path (w_fs w)) w)
      | _ :: _ => sys_fail ENOTEMPTY w
      end
  | Some (Pinned _) => sys_fail ENOTDIR w
  | None => sys_fail ENOENT w
  end.

Definition statfs (path : string) : M (option Z) := λ w,
  if (PATH_MAX <=? String.length path)%nat then
    Some (None, set_w_errno ENAMETOOLONG w)
  else
    match w_statfs w !! path with
    | Some ty => Some (Some ty, w)
    | None => Some (None, set_w_errno ENOENT w)
    end.

(** *** Descriptors *)

(** The lowest descriptor number not in use. *)
Fixpoint lowest_free (fuel : nat) (n : Z) (fds : gmap Z fdesc) : Z :=
  match fuel with
  | O => n
  | S fuel' =>
      match fds !! n with
      | None => n
      | Some _ => lowest_free fuel' (n + 1) fds
      end
  end.

Definition alloc_fd (fds : gmap Z fdesc) : Z := lowest_free (size fds) 0 fds.

Definition install_fd (d : fdesc) : M Z := λ w,
  let fd := alloc_fd (w_fds w) in
  Some (fd, set_w_fds (<[fd := d]> (w_fds w)) w).

Definition close (fd : Z) : M Z := λ w,
  match w_fds w !! fd with
  | Some _ => Some (0, set_w_fds (delete fd (w_fds w)) w)
  | None => sys_fail EBADF w
  end.

(** [open(path, O_DIRECTORY)] *)
Definition open_directory (path : string) : M Z := λ w,
  match w_fs w !! path with
  | Some Dir => install_fd (FdDir path) w
  | Some (Pinned _) => sys_fail ENOTDIR w
  | None => sys_fail ENOENT w
  end.

(** sys/file.h *)
Definition LOCK_EX : Z := 2.
Definition LOCK_UN : Z := 8.

(** [flock] on an open descriptor: the kernel decides.  The call takes the
    next answer of [w_flock]; it fails with that [errno] when the answer is
    not 0, whatever the operation. *)
Definition flock (fd : Z) (operation : Z) : M Z := λ w,
  match w_fds w !! fd with
  | None => sys_fail EBADF w
  | Some _ =>
      let w' := set_w_flock (tail (w_flock w)) w in
      match head (w_flock w) with
      | None | Some 0%N => Some (0, w')
      | Some errno => sys_fail (Z.of_N errno) w'
      end
  end.

(** A directory stream: its descriptor and the entries it will return. *)
Record DIR := { dir_fd : Z; dir_ents : list string }.

(** The order in which [readdir] returns the entries of a directory is up
    to the file system: the entries come sorted by [w_dirent_rank], and a
    rank can put them in any order. *)
Definition rank_le (rank : string → N) (a b : string) : Prop :=
  (rank a ≤ rank b)%N.

#[global] Instance rank_le_dec rank a b : Decision (rank_le rank a b) :=
  decide (rank a ≤ rank b)%N.

Definition readdir_order (w : world) (ents : list string) : list string :=
  merge_sort (rank_le (w_dirent_rank w)) ents.

Definition opendir (path : string) : M (option DIR) :=
  fd ← open_directory path;
  if fd <? 0 then ret None
  else
    w ← get_world;
    ret (Some {| dir_fd := fd;
                 dir_ents :=
                   "." :: ".." :: readdir_order w (dir_entries (w_fs w) path)
              |}).

Definition closedir (dr : DIR) : M Z := close (dir_fd dr).

(** *** bpf system calls (bpf/bpf.h): each returns -1 and sets [errno] *)

Definition bpf_obj_get_info_by_fd (fd : Z) : M (Z * bpf_prog_info) := λ w,
  match w_fds w !! fd with
  | Some (FdProg id) =>
      match w_kprogs w !! id with
      | Some info => Some ((0, info), w)
      | None => Some ((-1, zero_info), set_w_errno EINVAL w)
      end
  | Some _ => Some ((-1, zero_info), set_w_errno EINVAL w)
  | None => Some ((-1, zero_info), set_w_errno EBADF w)
  end.

Definition bpf_prog_get_fd_by_id (id : Z) : M Z := λ w,
  match w_kprogs w !! id with
  | Some _ => install_fd (FdProg id) w
  | None => sys_fail ENOENT w
  end.

Definition bpf_obj_pin (fd : Z) (pathname : string) : M Z := λ w,
  match w_fds w !! fd with
  | None => sys_fail EBADF w
  | Some (FdDir _) | Some FdFile => sys_fail EINVAL w
  | Some obj =>
      match w_fs w !! pathname with
      | Some _ => sys_fail EEXIST w
      | None =>
          if parent_is_dir (w_fs w) pathname then
            Some (0, set_w_fs (<[pathname := Pinned obj]> (w_fs w)) w)
          else sys_fail ENOENT w
      end
  end.

(** The attach primitive: the kernel decides, the call is recorded. *)
Definition bpf_set_link_xdp_fd (ifindex fd flags : Z) : M Z := λ w,
  let calls := (w_xdp_log w ++
    [{| xc_ifindex := ifindex; xc_fd := fd; xc_flags := flags |}])%list in
  Some (w_xdp_reply w calls, set_w_xdp_log calls w).

(** *** libc heap *)

Definition malloc_succeeds (w : world) : bool :=
  match w_malloc_left w with Some O => false | _ => true end.

Definition count_alloc (w : world) : world :=
  set_w_nalloc (w_nalloc w + 1)
    (set_w_malloc_left (Nat.pred <$> w_malloc_left w) w).

(** [malloc]: [true] for a non-NULL result. *)
Definition malloc : M bool := λ w,
  if malloc_succeeds w then Some (true, count_alloc w)
  else Some (false, set_w_errno ENOMEM w).

Definition strdup (s : string) : M (option string) :=
  ok ← malloc; ret (if ok : bool then Some s else None).

(** [free(p)]: nothing for NULL. *)
Definition free {A} (p : option A) : M unit :=
  match p with
  | None => ret tt
  | Some _ => modify (λ w, set_w_nalloc (w_nalloc w - 1) w)
  end.

(** *** libbpf objects (bpf/libbpf.h, bpf/btf.h) *)

Definition new_address : M ptr := λ w,
  Some (w_next w, set_w_next (N.succ (w_next w)) w).

Definition btf__new (b : struct_btf) : M ptr :=
  p ← new_address;
  _ ← modify (λ w, set_w_btfs (<[p := b]> (w_btfs w)) w);
  ret p.

(** [btf__free]: nothing for NULL; freeing a dead object is undefined. *)
Definition btf__free (btf : option ptr) : M unit :=
  match btf with
  | None => ret tt
  | Some p => λ w,
      match w_btfs w !! p with
      | Some _ => Some (tt, set_w_btfs (delete p (w_btfs w)) w)
      | None => None
      end
  end.

(** [btf__get_from_id]: 0 with a NULL view when the kernel has no type
    information under [id]. *)
Definition btf__get_from_id (id : Z) : M (Z * option ptr) := λ w,
  match w_kbtfs w !! id with
  | None => Some ((0, None), w)
  | Some b =>
      if malloc_succeeds w then (p ← btf__new b; ret (0, Some p)) w
      else Some ((- ENOMEM, None), w)
  end.

(** [bpf_object__open_file]: [inl err] is [ERR_PTR(err)]; a file that libbpf
    refuses gives the error libbpf has for it. *)
Definition bpf_object__open_file (filename : string) : M (Z + ptr) := λ w,
  match w_disk w !! filename with
  | None => Some (inl (- ENOENT), w)
  | Some (Refused errno) => Some (inl (- Z.pos errno), w)
  | Some (Image img) =>
      if malloc_succeeds w then
        (b ← match img_btf img with
             | None => ret None
             | Some b => p ← btf__new b; ret (Some p)
             end;
         o ← new_address;
         _ ← modify (λ w, set_w_objs
                (<[o := {| o_programs := img_programs img; o_btf := b |}]>
                   (w_objs w)) w);
         ret (inr o)) w
      else Some (inl (- ENOMEM), w)
  end.

Definition libbpf_get_error (obj : Z + ptr) : Z :=
  match obj with inl err => err | inr _ => 0 end.

(** [bpf_object__close]: frees the object and the type information it
    owns; closing a dead object is undefined. *)
Definition bpf_object__close (obj : ptr) : M unit := λ w,
  match w_objs w !! obj with
  | None => None
  | Some o =>
      (_ ← modify (λ w, set_w_objs (delete obj (w_objs w)) w);
       btf__free (o_btf o)) w
  end.

Definition bpf_object__find_program_by_title (obj : ptr) (title : string)
    : M (option bpf_program) := λ w,
  match w_objs w !! obj with
  | None => None
  | Some o =>
      Some (List.find (λ p, strcmp (bp_title p) title =? 0) (o_programs o), w)
  end.

(** [bpf_program__next(NULL, obj)]: the first program of the object. *)
Definition bpf_program__next (obj : ptr) : M (option bpf_program) := λ w,
  match w_objs w !! obj with
  | None => None
  | Some o => Some (head (o_programs o), w)
  end.

Definition bpf_program__name (p : bpf_program) : string := bp_name p.

Definition bpf_object__btf (obj : ptr) : M (option ptr) := λ w,
  match w_objs w !! obj with
  | None => None
  | Some o => Some (o_btf o, w)
  end.

(** ** Mount resolver and lock *)

(** linux/magic.h *)
Definition BPF_FS_MAGIC : Z := 0xcafe4a11.

(** Modelled from the spec: [BPF_DIR_MNT] is a macro of util.h, outside this
    file; it is the well-known default mount point of the bpf file system. *)
Definition BPF_DIR_MNT : string := "/sys/fs/bpf".

Definition bpf_is_valid_mntpt (mnt : string) (magic : Z) : M bool :=
  st ← statfs mnt;
  match st with
  | None => ret false
  | Some f_type => ret (f_type =? magic)
  end.

Definition bpf_find_mntpt_single (magic : Z) (len : nat) (mntpt : string)
    : M (option string) :=
  ok ← bpf_is_valid_mntpt mntpt magic;
  if ok : bool then ret (Some (substring 0 (len - 1) mntpt)) else ret None.

Definition find_bpffs : M (option string) :=
  w ← get_world;
  match w_mnt_cache w with
  | Some mnt => ret (Some mnt)
  | None =>
      let envdir := w_env_bpffs w in
      mnt ← bpf_find_mntpt_single BPF_FS_MAGIC PATH_MAX
              (default BPF_DIR_MNT envdir);
      match mnt with
      | None => ret None
      | Some m => _ ← modify (set_w_mnt_cache (Some m)); ret (Some m)
      end
  end.

(** [get_bpffs_dir]: [inl err] is [ERR_PTR(err)]. *)
Definition get_bpffs_dir : M (Z + string) :=
  w ← get_world;
  match w_dir_cache w with
  | Some dir => ret (inr dir)
  | None =>
      parent ← find_bpffs;
      match parent with
      | None => ret (inl (- ENOENT))
      | Some parent =>
          let bpffs_dir := parent +:+ "/xdp" in
          let err := check_snprintf PATH_MAX bpffs_dir in
          if negb (err =? 0) then ret (inl err)
          else
            err ← mkdir bpffs_dir;
            errno ← get_errno;
            if negb (err =? 0) && negb (errno =? EEXIST) then
              ret (inl (- errno))
            else
              _ ← modify (set_w_dir_cache (Some bpffs_dir));
              ret (inr bpffs_dir)
      end
  end.

Definition xdp_lock_acquire : M Z :=
  dir ← get_bpffs_dir;
  match dir with
  | inl err => ret err
  | inr dir =>
      lock_fd ← open_directory dir;
      if lock_fd <? 0 then errno ← get_errno; ret (- errno)
      else
        err ← flock lock_fd LOCK_EX;
        if negb (err =? 0) then
          errno ← get_errno;
          _ ← close lock_fd;
          ret (- errno)
        else ret lock_fd
  end.

Definition xdp_lock_release (lock_fd : Z) : M Z :=
  err ← flock lock_fd LOCK_UN;
  errno ← get_errno;
  let err := if negb (err =? 0) then - errno else err in
  _ ← close lock_fd;
  ret err.

(** ** Handle lifecycle *)

(** Modelled from the spec: the two defaults are macros of xdp/libxdp.h,
    outside this file; the priority default is an implementation-chosen
    constant, the chain-call default a mask of the continue actions. *)
Definition XDP_DEFAULT_RUN_PRIO : Z := 50.
Definition XDP_DEFAULT_CHAIN_CALL_ACTIONS : Z := Z.shiftl 1 XDP_PASS.

(** [xdp_program__new]: [inl err] is [ERR_PTR(err)]. *)
Definition xdp_program__new : M (Z + xdp_program) :=
  ok ← malloc;
  if ok : bool then
    ret (inr {| bpf_prog := None; bpf_obj := None; btf := None;
                prog_fd := -1; link_fd := -1; link_pin_path := None;
                prog_name := None;
                prog_tag := replicate BPF_TAG_SIZE 0; load_time := 0;
                from_external_obj := false;
                run_prio := XDP_DEFAULT_RUN_PRIO;
                chain_call_actions := XDP_DEFAULT_CHAIN_CALL_ACTIONS |})
  else ret (inl (- ENOMEM)).

Definition xdp_program__free (xdp_prog : xdp_program) : M unit :=
  _ ← (if link_fd xdp_prog >=? 0 then close (link_fd xdp_prog) else ret 0);
  _ ← (if prog_fd xdp_prog >=? 0 then close (prog_fd xdp_prog) else ret 0);
  _ ← free (link_pin_path xdp_prog);
  _ ← free (prog_name xdp_prog);
  if negb (from_external_obj xdp_prog) then
    match bpf_obj xdp_prog with
    | Some obj => bpf_object__close obj
    | None =>
        match btf xdp_prog with
        | Some b => btf__free (Some b)
        | None => ret tt
        end
    end
  else ret tt.

(** [xdp_parse_run_config] on the view the handle points to. *)
Definition parse_run_config_of (xdp_prog : xdp_program)
    : M (Z * xdp_program) := λ w,
  match btf xdp_prog with
  | None => (λ r, (r, w)) <$> xdp_parse_run_config None xdp_prog
  | Some p =>
      match w_btfs w !! p with
      | None => None
      | Some b => (λ r, (r, w)) <$> xdp_parse_run_config (Some b) xdp_prog
      end
  end.

Definition xdp_program__fill_from_obj (xdp_prog : xdp_program) (obj : ptr)
    (name : option string) (external : bool) : M (Z * xdp_program) :=
  bpf_prog ← match name with
             | Some title => bpf_object__find_program_by_title obj title
             | None => bpf_program__next obj
             end;
  match bpf_prog with
  | None => ret (- ENOENT, xdp_prog)
  | Some bp =>
      name ← strdup (bpf_program__name bp);
      let xdp_prog := set_prog_name name xdp_prog in
      match name with
      | None => ret (- ENOMEM, xdp_prog)
      | Some _ =>
          b ← bpf_object__btf obj;
          let xdp_prog :=
            set_from_external_obj external
              (set_btf b
                 (set_bpf_obj (Some obj)
                    (set_bpf_prog (Some bp) xdp_prog))) in
          '(err, xdp_prog) ← parse_run_config_of xdp_prog;
          if negb (err =? 0) && negb (err =? - ENOENT) then
            ret (err, xdp_prog)
          else ret (0, xdp_prog)
      end
  end.

Definition xdp_program__from_bpf_obj (obj : ptr) (name : option string)
    : M (Z + xdp_program) :=
  r ← xdp_program__new;
  match r with
  | inl err => ret (inl err)
  | inr xdp_prog =>
      '(err, xdp_prog) ← xdp_program__fill_from_obj xdp_prog obj name true;
      if negb (err =? 0) then
        _ ← xdp_program__free xdp_prog;
        ret (inl err)
      else ret (inr xdp_prog)
  end.

Definition xdp_program__open_file (filename : string) (name : option string)
    : M (Z + xdp_program) :=
  obj ← bpf_object__open_file filename;
  let err := libbpf_get_error obj in
  if negb (err =? 0) then ret (inl err)
  else
    match obj with
    | inl _ => fault
    | inr obj =>
        r ← xdp_program__new;
        match r with
        | inl err => _ ← bpf_object__close obj; ret (inl err)
        | inr xdp_prog =>
            '(err, xdp_prog) ←
              xdp_program__fill_from_obj xdp_prog obj name false;
            if negb (err =? 0) then
              _ ← xdp_program__free xdp_prog;
              _ ← bpf_object__close obj;
              ret (inl err)
            else ret (inr xdp_prog)
        end
    end.

Definition xdp_program__fill_from_fd (xdp_prog : xdp_program) (fd : Z)
    : M (Z * xdp_program) :=
  '(err, info) ← bpf_obj_get_info_by_fd fd;
  if negb (err =? 0) then
    errno ← get_errno;
    _ ← btf__free None;
    ret (- errno, xdp_prog)
  else
    '(ok, xdp_prog) ←
      match prog_name xdp_prog with
      | Some _ => ret (true, xdp_prog)
      | None =>
          name ← strdup (info_name info);
          ret (bool_decide (is_Some name), set_prog_name name xdp_prog)
      end;
    if negb ok then
      _ ← btf__free None;
      ret (- ENOMEM, xdp_prog)
    else
      '(err, xdp_prog) ←
        (if negb (info_btf_id info =? 0)
            && bool_decide (btf xdp_prog = None)
         then
           '(err, b) ← btf__get_from_id (info_btf_id info);
           if negb (err =? 0) then ret (err, xdp_prog)
           else ret (0, set_btf b xdp_prog)
         else ret (0, xdp_prog));
      if negb (err =? 0) then
        _ ← btf__free None;
        ret (err, xdp_prog)
      else
        ret (0, set_prog_fd fd
                  (set_load_time (info_load_time info)
                     (set_prog_tag (take BPF_TAG_SIZE (info_tag info))
                        xdp_prog))).

Definition xdp_program__from_id (id : Z) : M (Z + xdp_program) :=
  fd ← bpf_prog_get_fd_by_id id;
  if fd <? 0 then
    errno ← get_errno;
    _ ← free (None : option xdp_program);
    ret (inl (- errno))
  else
    r ← xdp_program__new;
    match r with
    | inl err => ret (inl err)
    | inr xdp_prog =>
        '(err, xdp_prog) ← xdp_program__fill_from_fd xdp_prog fd;
        if negb (err =? 0) then
          _ ← free (Some xdp_prog);
          ret (inl err)
        else
          '(err, xdp_prog) ← parse_run_config_of xdp_prog;
          if negb (err =? 0) && negb (err =? - ENOENT) then
            _ ← free (Some xdp_prog);
            ret (inl err)
          else ret (inr xdp_prog)
    end.

(** ** Pin store *)

(** [%d] of an [int]; a [__u32] argument is read back as [int]. *)
Definition fmt_d (x : Z) : string :=
  pretty (if u32 x <? 2 ^ 31 then u32 x else u32 x - 2 ^ 32).

(** The [for] loop of [pin_multiprog] from index [i] with [remaining]
    iterations to go.  The result carries [err], the array, and the index
    to unwind from when the loop left through [goto err_unpin]. *)
Fixpoint pin_loop (remaining : nat) (i : nat) (pin_path : string) (err : Z)
    (progs : list xdp_program) : M (Z * option nat * list xdp_program) :=
  match remaining with
  | O => ret (err, None, progs)
  | S remaining' =>
      match progs !! i with
      | None => fault
      | Some prog =>
          if link_fd prog <? 0 then ret (- EINVAL, Some i, progs)
          else
            let buf := pin_path +:+ "/link-prog" +:+ fmt_d (Z.of_nat i) in
            let err := check_snprintf PATH_MAX buf in
            if negb (err =? 0) then ret (err, Some i, progs)
            else
              err ← bpf_obj_pin (link_fd prog) buf;
              if negb (err =? 0) then ret (err, Some i, progs)
              else
                path ← strdup pin_path;
                let progs := <[i := set_link_pin_path path prog]> progs in
                match path with
                | None =>
                    _ ← unlink pin_path;
                    ret (- ENOMEM, Some i, progs)
                | Some _ => pin_loop remaining' (S i) pin_path err progs
                end
      end
  end.

(** [err_unpin]: [for (; i >= 0; i--)]. *)
Fixpoint unpin_loop (i : nat) (progs : list xdp_program)
    : M (list xdp_program) :=
  progs ←
    match progs !! i with
    | None => fault
    | Some prog =>
        match link_pin_path prog with
        | None => ret progs
        | Some path =>
            _ ← unlink path;
            _ ← free (Some path);
            ret (<[i := set_link_pin_path None prog]> progs)
        end
    end;
  match i with
  | O => ret progs
  | S i' => unpin_loop i' progs
  end.

Definition pin_multiprog (dispatcher_fd : Z) (progs : list xdp_program)
    : M (Z * list xdp_program) :=
  bpffs_dir ← get_bpffs_dir;
  match bpffs_dir with
  | inl err => ret (err, progs)
  | inr bpffs_dir =>
      '(err, info) ← bpf_obj_get_info_by_fd dispatcher_fd;
      if negb (err =? 0) then ret (err, progs)
      else
        lock_fd ← xdp_lock_acquire;
        if lock_fd <? 0 then ret (lock_fd, progs)
        else
          let pin_path :=
            bpffs_dir +:+ "/dispatch-" +:+ fmt_d (info_id info) in
          let err := check_snprintf PATH_MAX pin_path in
          if negb (err =? 0) then
            _ ← xdp_lock_release lock_fd; ret (err, progs)
          else
            err ← mkdir pin_path;
            errno ← get_errno;
            if negb (err =? 0) && negb (errno =? EEXIST) then
              _ ← xdp_lock_release lock_fd; ret (- errno, progs)
            else
              '(err, unwind, progs) ←
                pin_loop (length progs) 0 pin_path err progs;
              progs ← match unwind with
                      | Some i => unpin_loop i progs
                      | None => ret progs
                      end;
              _ ← xdp_lock_release lock_fd;
              ret (err, progs)
  end.

(** The [readdir] loop of [unpin_multiprog]: [Some err] when it left
    through [goto out_dir]. *)
Fixpoint unlink_entries (pin_path : string) (ents : list string)
    : M (option Z) :=
  match ents with
  | [] => ret None
  | d_name :: ents' =>
      if (strcmp "." d_name =? 0) || (strcmp ".." d_name =? 0) then
        unlink_entries pin_path ents'
      else
        let buf := pin_path +:+ "/" +:+ d_name in
        let err := check_snprintf PATH_MAX buf in
        if negb (err =? 0) then ret (Some err)
        else
          err ← unlink buf;
          if negb (err =? 0) then errno ← get_errno; ret (Some (- errno))
          else unlink_entries pin_path ents'
  end.

Definition unpin_multiprog (dispatcher_fd : Z) : M Z :=
  bpffs_dir ← get_bpffs_dir;
  match bpffs_dir with
  | inl err => ret err
  | inr bpffs_dir =>
      '(err, info) ← bpf_obj_get_info_by_fd dispatcher_fd;
      if negb (err =? 0) then ret err
      else
        lock_fd ← xdp_lock_acquire;
        if lock_fd <? 0 then ret lock_fd
        else
          let pin_path :=
            bpffs_dir +:+ "/dispatch-" +:+ fmt_d (info_id info) in
          let err := check_snprintf PATH_MAX pin_path in
          if negb (err =? 0) then _ ← xdp_lock_release lock_fd; ret err
          else
            dr ← opendir pin_path;
            match dr with
            | None => _ ← xdp_lock_release lock_fd; ret (- ENOENT)
            | Some dr =>
                stopped ← unlink_entries pin_path (dir_ents dr);
                err ← match stopped with
                      | Some err => ret err
                      | None =>
                          err ← rmdir pin_path;
                          errno ← get_errno;
                          ret (if negb (err =? 0) then - errno else err)
                      end;
                _ ← closedir dr;
                _ ← xdp_lock_release lock_fd;
                ret err
            end
  end.

(** ** Dispatcher composer and attacher *)

(** The object loader of libbpf, the template lookup of util.h and libc's
    [qsort] are used here through their interfaces only. *)
Class externals := {
  qsort :
    (xdp_program → xdp_program → option Z) →
    list xdp_program → list xdp_program;
  find_bpf_file : nat → string → M (Z * string);
  sizeof_xdp_dispatcher_config : Z;
  (* [bpf_object__rodata]: the size of the view, NULL when there is none *)
  bpf_object__rodata : ptr → M (option Z);
  store_num_progs_enabled : ptr → Z → M unit;
  store_chain_call_actions : ptr → nat → Z → M unit;
  bpf_object__load : ptr → M Z;
  bpf_program__fd : option bpf_program → M Z;
  bpf_program__set_attach_target :
    option bpf_program → Z → string → M Z;
  bpf_program__set_type_ext : option bpf_program → M unit;
  bpf_raw_tracepoint_open : Z → M Z
}.

Inductive xdp_attach_mode :=
  | XDP_MODE_UNSPEC
  | XDP_MODE_NATIVE
  | XDP_MODE_SKB
  | XDP_MODE_HW.

Definition is_skb_mode (mode : xdp_attach_mode) : bool :=
  match mode with XDP_MODE_SKB => true | _ => false end.

(** linux/if_link.h *)
Definition XDP_FLAGS_UPDATE_IF_NOEXIST : Z := Z.shiftl 1 0.
Definition XDP_FLAGS_SKB_MODE : Z := Z.shiftl 1 1.
Definition XDP_FLAGS_DRV_MODE : Z := Z.shiftl 1 2.
Definition XDP_FLAGS_HW_MODE : Z := Z.shiftl 1 3.
Definition XDP_FLAGS_MODES : Z :=
  Z.lor XDP_FLAGS_SKB_MODE (Z.lor XDP_FLAGS_DRV_MODE XDP_FLAGS_HW_MODE).

Section Attach.
Context `{externals}.

Definition xdp_program__load (prog : xdp_program)
    : M (Z * xdp_program) :=
  if prog_fd prog >=? 0 then ret (- EEXIST, prog)
  else
    match bpf_obj prog with
    | None => ret (- EINVAL, prog)
    | Some obj =>
        err ← bpf_object__load obj;
        if negb (err =? 0) then ret (err, prog)
        else
          fd ← bpf_program__fd (bpf_prog prog);
          xdp_program__fill_from_fd prog fd
    end.

Fixpoint store_chain_calls (obj : ptr) (i : nat)
    (progs : list xdp_program) : M unit :=
  match progs with
  | [] => ret tt
  | prog :: progs' =>
      _ ← store_chain_call_actions obj i (chain_call_actions prog);
      store_chain_calls obj (S i) progs'
  end.

(** The second [for] loop of [gen_xdp_multiprog]. *)
Fixpoint attach_slots (remaining : nat) (i : nat) (dispatcher_fd : Z)
    (progs : list xdp_program) : M (Z * list xdp_program) :=
  match remaining with
  | O => ret (0, progs)
  | S remaining' =>
      match progs !! i with
      | None => fault
      | Some prog =>
          let buf := "prog" +:+ fmt_d (Z.of_nat i) in
          let err := check_snprintf PATH_MAX buf in
          if negb (err =? 0) then ret (err, progs)
          else
            err ← bpf_program__set_attach_target (bpf_prog prog)
                    dispatcher_fd buf;
            if negb (err =? 0) then ret (err, progs)
            else
              _ ← bpf_program__set_type_ext (bpf_prog prog);
              '(err, prog) ← xdp_program__load prog;
              let progs := <[i := prog]> progs in
              if negb (err =? 0) then ret (err, progs)
              else
                lfd ← bpf_raw_tracepoint_open (prog_fd prog);
                if lfd <? 0 then ret (lfd, progs)
                else
                  attach_slots remaining' (S i) dispatcher_fd
                    (<[i := set_link_fd lfd prog]> progs)
      end
  end.

Definition gen_xdp_multiprog (progs : list xdp_program)
    : M (Z * list xdp_program) :=
  '(err, buf) ← find_bpf_file PATH_MAX "xdp-dispatcher.o";
  if negb (err =? 0) then ret (err, progs)
  else
    obj ← bpf_object__open_file buf;
    let err := libbpf_get_error obj in
    if negb (err =? 0) then ret (err, progs)
    else
      match obj with
      | inl _ => fault
      | inr obj =>
          rodata ← bpf_object__rodata obj;
          match rodata with
          | None => _ ← bpf_object__close obj; ret (- ENOENT, progs)
          | Some sz =>
              if negb (sz =? sizeof_xdp_dispatcher_config) then
                _ ← bpf_object__close obj; ret (- EINVAL, progs)
              else
                _ ← store_num_progs_enabled obj
                      (Z.of_nat (length progs));
                _ ← store_chain_calls obj 0 progs;
                err ← bpf_object__load obj;
                if negb (err =? 0) then
                  _ ← bpf_object__close obj; ret (err, progs)
                else
                  dispatcher_prog ←
                    bpf_object__find_program_by_title obj
                      "xdp_dispatcher";
                  match dispatcher_prog with
                  | None =>
                      _ ← bpf_object__close obj; ret (- ENOENT, progs)
                  | Some dp =>
                      fd ← bpf_program__fd (Some dp);
                      '(err, progs) ←
                        attach_slots (length progs) 0 fd progs;
                      if negb (err =? 0) then
                        _ ← bpf_object__close obj; ret (err, progs)
                      else ret (fd, progs)
                  end
          end
      end.

Definition mode_flags (mode : xdp_attach_mode) : Z :=
  match mode with
  | XDP_MODE_SKB => XDP_FLAGS_SKB_MODE
  | XDP_MODE_NATIVE => XDP_FLAGS_DRV_MODE
  | XDP_MODE_HW => XDP_FLAGS_HW_MODE
  | XDP_MODE_UNSPEC => 0
  end.

(** [xdp_attach_programs] up to the [switch]: the descriptor to attach
    (sorted and composed, already loaded, or loaded now), then the pin.
    [inl err] is [goto out] with [err]. *)
Definition composite_fd (progs : list xdp_program)
    : M ((Z + Z) * list xdp_program) :=
  '(fd, progs) ←
    (if (1 <? length progs)%nat then
       gen_xdp_multiprog (qsort cmp_xdp_programs progs)
     else
       match progs with
       | [] => fault
       | prog0 :: rest =>
           if prog_fd prog0 >=? 0 then ret (prog_fd prog0, progs)
           else
             '(r, prog0) ← xdp_program__load prog0;
             ret (r, prog0 :: rest)
       end);
  if fd <? 0 then ret (inl fd, progs)
  else if (1 <? length progs)%nat then
    '(err, progs) ← pin_multiprog fd progs;
    if negb (err =? 0) then ret (inl err, progs) else ret (inr fd, progs)
  else ret (inr fd, progs).

(** [xdp_attach_programs] from the [switch] on. *)
Definition set_link_xdp (fd ifindex : Z) (force : bool)
    (mode : xdp_attach_mode) : M Z :=
  let xdp_flags := Z.lor 0 (mode_flags mode) in
  let xdp_flags :=
    if negb force then Z.lor xdp_flags XDP_FLAGS_UPDATE_IF_NOEXIST
    else xdp_flags in
  err ← bpf_set_link_xdp_fd ifindex fd xdp_flags;
  err ←
    (if (err =? - EEXIST)
        && (Z.land xdp_flags XDP_FLAGS_UPDATE_IF_NOEXIST =? 0)
     then
       let old_flags := xdp_flags in
       let xdp_flags := Z.land xdp_flags (Z.lnot XDP_FLAGS_MODES) in
       let xdp_flags :=
         Z.lor xdp_flags
           (if is_skb_mode mode then XDP_FLAGS_DRV_MODE
            else XDP_FLAGS_SKB_MODE) in
       err ← bpf_set_link_xdp_fd ifindex (-1) xdp_flags;
       if err =? 0 then bpf_set_link_xdp_fd ifindex fd old_flags
       else ret err
     else ret err);
  if err <? 0 then ret err else ret fd.

Definition xdp_attach_programs (progs : list xdp_program) (ifindex : Z)
    (force : bool) (mode : xdp_attach_mode) : M (Z * list xdp_program) :=
  if (length progs =? 0)%nat then ret (- EINVAL, progs)
  else
    '(r, progs) ← composite_fd progs;
    match r with
    | inl err => ret (err, progs)
    | inr fd => r ← set_link_xdp fd ifindex force mode; ret (r, progs)
    end.
End Attach.

(** ** Scenarios *)

Definition blank_handle (name : string) : xdp_program :=
  {| bpf_prog := None; bpf_obj := None; btf := None;
     prog_fd := -1; link_fd := -1; link_pin_path := None;
     prog_name := Some name;
     prog_tag := replicate BPF_TAG_SIZE 0; load_time := 0;
     from_external_obj := false;
     run_prio := XDP_DEFAULT_RUN_PRIO;
     chain_call_actions := XDP_DEFAULT_CHAIN_CALL_ACTIONS |}.

Definition ty (name : string) (k : btf_kind) (t : Z) (x : btf_extra)
    : btf_type :=
  {| t_name := Some name; t_kind := k; t_type := t; t_extra := x |}.

Definition uint_field (name : string) (ptr_id : Z) : btf_member :=
  {| m_name := Some name; m_type := ptr_id; m_offset := 0 |}.

Definition array_of (n : Z) : btf_type :=
  ty "" BTF_KIND_ARRAY 0
    (ExtraArray {| arr_type := 1; arr_index_type := 1; nelems := n |}).

(** [struct { __uint(priority, 15); __uint(XDP_PASS, 1); __uint(XDP_DROP, 0);
    } XDP_RUN_CONFIG(foo);] with the types in the order
    1 int, 2 int[15], 3 ptr, 4 int[1], 5 ptr, 6 int[0], 7 ptr, 8 struct,
    9 var [_foo], 10 datasec. *)
Definition run_config_types (members : list btf_member) : list btf_type :=
  [ ty "int" BTF_KIND_INT 4 ExtraNone;
    array_of 15; ty "" BTF_KIND_PTR 2 ExtraNone;
    array_of 1; ty "" BTF_KIND_PTR 4 ExtraNone;
    array_of 0; ty "" BTF_KIND_PTR 6 ExtraNone;
    ty "" BTF_KIND_STRUCT 24 (ExtraMembers members);
    ty "_foo" BTF_KIND_VAR 8 (ExtraVar BTF_VAR_GLOBAL_ALLOCATED);
    ty XDP_RUN_CONFIG_SEC BTF_KIND_DATASEC 24
      (ExtraSecinfos [{| vi_type := 9; vi_offset := 0; vi_size := 24 |}]) ].

Definition foo_members : list btf_member :=
  [ uint_field "priority" 3; uint_field "XDP_PASS" 5;
    uint_field "XDP_DROP" 7 ].

Definition foo_btf : struct_btf := {| types := run_config_types foo_members |}.

(** The same with a member the parser does not know. *)
Definition bogus_members : list btf_member :=
  [ uint_field "priority" 3; uint_field "bogus" 5 ].

Definition bogus_btf : struct_btf :=
  {| types := run_config_types bogus_members |}.

(** Three loaded handles of the same name and priority: [cyc_a] and [cyc_c]
    were opened from object files and then loaded, [cyc_b] comes from
    [xdp_program__from_id]. *)
Definition loaded_handle (bp : option bpf_program) (fd tag0 : Z)
    : xdp_program :=
  {| bpf_prog := bp; bpf_obj := None; btf := None;
     prog_fd := fd; link_fd := -1; link_pin_path := None;
     prog_name := Some "xdp_main";
     prog_tag := tag0 :: replicate 7 0; load_time := 100;
     from_external_obj := false;
     run_prio := XDP_DEFAULT_RUN_PRIO;
     chain_call_actions := XDP_DEFAULT_CHAIN_CALL_ACTIONS |}.

Definition cyc_a : xdp_program :=
  loaded_handle
    (Some {| bp_title := "xdp"; bp_name := "xdp_main"; bp_size := 16 |}) 3 5.
Definition cyc_b : xdp_program := loaded_handle None 4 4.
Definition cyc_c : xdp_program :=
  loaded_handle
    (Some {| bp_title := "xdp"; bp_name := "xdp_main"; bp_size := 24 |}) 5 3.

(** A section with two variables named [_foo]: the first declares priority
    15, the second priority 1.  Types: 1 int, 2 int[15], 3 ptr, 4 int[1],
    5 ptr, 6 and 7 the two structs, 8 var [_bar], 9 and 10 var [_foo],
    11 datasec. *)
Definition dup_pre : list btf_var_secinfo :=
  [{| vi_type := 8; vi_offset := 0; vi_size := 8 |}].
Definition dup_vi : btf_var_secinfo :=
  {| vi_type := 9; vi_offset := 8; vi_size := 8 |}.
Definition dup_post : list btf_var_secinfo :=
  [{| vi_type := 10; vi_offset := 16; vi_size := 8 |}].
Definition dup_var : btf_type :=
  ty "_foo" BTF_KIND_VAR 6 (ExtraVar BTF_VAR_GLOBAL_ALLOCATED).

Definition dup_btf : struct_btf :=
  {| types :=
       [ ty "int" BTF_KIND_INT 4 ExtraNone;
         array_of 15; ty "" BTF_KIND_PTR 2 ExtraNone;
         array_of 1; ty "" BTF_KIND_PTR 4 ExtraNone;
         ty "" BTF_KIND_STRUCT 8 (ExtraMembers [uint_field "priority" 3]);
         ty "" BTF_KIND_STRUCT 8 (ExtraMembers [uint_field "priority" 5]);
         ty "_bar" BTF_KIND_VAR 6 (ExtraVar BTF_VAR_GLOBAL_ALLOCATED);
         dup_var;
         ty "_foo" BTF_KIND_VAR 7 (ExtraVar BTF_VAR_STATIC);
         ty XDP_RUN_CONFIG_SEC BTF_KIND_DATASEC 24
           (ExtraSecinfos (dup_pre ++ dup_vi :: dup_post)) ] |}.

(** A process with the bpf file system mounted at the default place and the
    library directory already there.  The kernel holds a dispatcher (id 7)
    and two programs: id 21, whose type information is [bogus_btf], and
    id 22, whose type information is [foo_btf]. *)
Definition kernel_prog (id : Z) (name : string) (btf_id : Z)
    : bpf_prog_info :=
  {| info_id := id; info_name := name;
     info_tag := [id; 1; 2; 3; 4; 5; 6; 7];
     info_load_time := 1000 + id; info_btf_id := btf_id |}.

Definition foo_program : bpf_program :=
  {| bp_title := "xdp"; bp_name := "foo"; bp_size := 16 |}.

(** A kernel that refuses a program while the other of the two modes,
    generic or native, holds one, and refuses to replace under the
    only-if-unset flag; [skb] and [drv] say which modes hold a program. *)
Fixpoint mock_netdev (skb drv : bool) (calls : list xdp_call) : Z :=
  match calls with
  | [] => 0
  | c :: calls' =>
      let generic := negb (Z.land (xc_flags c) (Z.shiftl 1 1) =? 0) in
      let noexist := negb (Z.land (xc_flags c) (Z.shiftl 1 0) =? 0) in
      let '(r, skb', drv') :=
        if xc_fd c <? 0 then
          if generic then (0, false, drv) else (0, skb, false)
        else if generic && drv then (- EEXIST, skb, drv)
        else if negb generic && skb then (- EEXIST, skb, drv)
        else if noexist && (if generic then skb else drv) then
          (- EBUSY, skb, drv)
        else if generic then (0, true, drv) else (0, skb, true) in
      match calls' with
      | [] => r
      | _ :: _ => mock_netdev skb' drv' calls'
      end
  end.

Definition world0 : world :=
  {| w_errno := 0;
     w_fs := list_to_map
       [ ("/sys", Dir); ("/sys/fs", Dir); ("/sys/fs/bpf", Dir);
         ("/sys/fs/bpf/xdp", Dir) ];
     w_statfs := {[ "/sys/fs/bpf" := BPF_FS_MAGIC ]};
     w_env_bpffs := None;
     w_mnt_cache := None;
     w_dir_cache := None;
     w_fds := list_to_map [ (0, FdFile); (1, FdFile); (2, FdFile) ];
     w_kprogs := list_to_map
       [ (7, kernel_prog 7 "xdp_dispatcher" 0);
         (21, kernel_prog 21 "foo" 5);
         (22, kernel_prog 22 "foo" 6) ];
     w_kbtfs := list_to_map [ (5, bogus_btf); (6, foo_btf) ];
     w_disk := list_to_map
       [ ("foo.o", Image {| img_programs := [foo_program];
                            img_btf := Some foo_btf |});
         ("bogus.o", Image {| img_programs := [foo_program];
                              img_btf := Some bogus_btf |}) ];
     w_objs := ∅;
     w_btfs := ∅;
     w_next := 1;
     w_nalloc := 0;
     w_malloc_left := None;
     w_xdp_reply := mock_netdev false true;
     w_xdp_log := [];
     w_flock := [];
     w_dirent_rank := λ _, 0%N |}.

(** The same process holding the dispatcher's descriptor 3 and the link
    descriptor 4 of the first of two component programs. *)
Definition world_links : world :=
  set_w_fds (<[4 := FdLink 21]> (<[3 := FdProg 7]> (w_fds world0))) world0.

(** The same on a host where a directory of dispatcher 7 is left from
    earlier, with a directory [old] in it. *)
Definition world_sub : world :=
  set_w_fs
    (<["/sys/fs/bpf/xdp/dispatch-7/old" := Dir]>
       (<["/sys/fs/bpf/xdp/dispatch-7" := Dir]> (w_fs world_links)))
    world_links.


Definition linked_handle : xdp_program :=
  set_link_fd 4 (set_prog_fd 5 (blank_handle "foo")).
Definition unlinked_handle : xdp_program := blank_handle "bar".

(** The loader is not exercised by the scenarios: every operation of it
    fails, [qsort] leaves the array as it is. *)
Definition no_loader : externals :=
  {| qsort := λ _ progs, progs;
     find_bpf_file := λ _ _, ret (- ENOENT, "");
     sizeof_xdp_dispatcher_config := 44;
     bpf_object__rodata := λ _, ret None;
     store_num_progs_enabled := λ _ _, ret tt;
     store_chain_call_actions := λ _ _ _, ret tt;
     bpf_object__load := λ _, ret (- EINVAL);
     bpf_program__fd := λ _, ret (- EINVAL);
     bpf_program__set_attach_target := λ _ _ _, ret (- EINVAL);
     bpf_program__set_type_ext := λ _, ret tt;
     bpf_raw_tracepoint_open := λ _, ret (- EINVAL) |}.

(** [foo.o] opened by the caller and a handle made from the object with
    [xdp_program__from_bpf_obj]: the object lives at address 2, its type
    information at address 1. *)
Definition external_handle : xdp_program :=
  {| bpf_prog := Some foo_program; bpf_obj := Some 2%N; btf := Some 1%N;
     prog_fd := -1; link_fd := -1; link_pin_path := None;
     prog_name := Some "foo";
     prog_tag := replicate BPF_TAG_SIZE 0; load_time := 0;
     from_external_obj := true;
     run_prio := 15;
     chain_call_actions := XDP_DEFAULT_CHAIN_CALL_ACTIONS |}.

Definition world_foo : world :=
  set_w_nalloc 2
    (set_w_next 3
       (set_w_objs
          {[ 2%N := {| o_programs := [foo_program]; o_btf := Some 1%N |} ]}
          (set_w_btfs {[ 1%N := foo_btf ]} world0))).

(** ** Reading the run-config section *)

(** Variable [v] of the section has a name other than [struct_name]. *)
Definition other_variable (btf : struct_btf) (struct_name : string)
    (v : btf_var_secinfo) : Prop :=
  ∃ t name, btf__type_by_id btf (vi_type v) = Some t
    ∧ t_name t = Some name ∧ strcmp name struct_name ≠ 0.

(** Variable [vi] of the section is the type [var], named [struct_name]. *)
Definition matching_variable (btf : struct_btf) (struct_name : string)
    (vi : btf_var_secinfo) (var : btf_type) : Prop :=
  btf__type_by_id btf (vi_type vi) = Some var
  ∧ ∃ name, t_name var = Some name ∧ strcmp name struct_name = 0.

(** The type information holds a run-config section whose first variable
    named ["_" + pname] is a variable declaration of accepted linkage; its
    type is, under modifiers and aliases, a struct that fits the section
    entry, with members [ms]. *)
Definition finds_run_config (btf : struct_btf) (pname : string)
    (ms : list btf_member) : Prop :=
  (String.length ("_" +:+ pname) < 100)%nat
  ∧ ∃ sec pre vi post var linkage def,
      find_run_config_sec (types btf) = Some (Some sec)
      ∧ btf_var_secinfos sec = Some (pre ++ vi :: post)%list
      ∧ Forall (other_variable btf ("_" +:+ pname)) pre
      ∧ matching_variable btf ("_" +:+ pname) vi var
      ∧ btf_is_var var = true
      ∧ btf_var_linkage var = Some linkage
      ∧ (linkage = BTF_VAR_GLOBAL_ALLOCATED ∨ linkage = BTF_VAR_STATIC)
      ∧ skip_mods_and_typedefs btf (t_type var) = Some def
      ∧ btf_is_struct def = true
      ∧ t_size def ≤ vi_size vi
      ∧ btf_members def = Some ms.

(** Type [t] with the section entries [vis] behind it. *)
Definition with_secinfos (vis : list btf_var_secinfo) (t : btf_type)
    : btf_type :=
  {| t_name := t_name t; t_kind := t_kind t; t_type := t_type t;
     t_extra := ExtraSecinfos vis |}.

(** The types [ts] with the variables [vis] in the run-config section: the
    first DATASEC named [XDP_RUN_CONFIG_SEC] lists [vis], every other type
    is as it was. *)
Fixpoint set_run_config_vars (vis : list btf_var_secinfo)
    (ts : list btf_type) : list btf_type :=
  match ts with
  | [] => []
  | t :: ts' =>
      if btf_is_datasec t
         && match t_name t with
            | Some name => strcmp name XDP_RUN_CONFIG_SEC =? 0
            | None => false
            end
      then with_secinfos vis t :: ts'
      else t :: set_run_config_vars vis ts'
  end.

(** [t'] is [t], or both are data sections that differ in nothing but the
    variables they list. *)
Definition same_but_vars (t t' : btf_type) : Prop :=
  t' = t
  ∨ (t_kind t = BTF_KIND_DATASEC ∧ t_kind t' = BTF_KIND_DATASEC
     ∧ t_name t' = t_name t ∧ t_type t' = t_type t).

(** The type of member [m] is, under modifiers and aliases, a pointer to an
    array of [n] elements. *)
Definition member_count (btf : struct_btf) (m : btf_member) (n : Z) : Prop :=
  ∃ tp ta arr,
    skip_mods_and_typedefs btf (m_type m) = Some tp
    ∧ btf_is_ptr tp = true
    ∧ btf__type_by_id btf (t_type tp) = Some ta
    ∧ btf_is_array ta = true
    ∧ btf_array_of ta = Some arr
    ∧ nelems arr = n.

(** ** Vocabulary of the statements *)

Definition xcall (ifindex fd flags : Z) : xdp_call :=
  {| xc_ifindex := ifindex; xc_fd := fd; xc_flags := flags |}.

(** The mode the remediation detaches: native for an skb attach, skb for
    every other mode. *)
Definition opposite_mode_flags (mode : xdp_attach_mode) : Z :=
  if is_skb_mode mode then XDP_FLAGS_DRV_MODE else XDP_FLAGS_SKB_MODE.

(** What [xdp_attach_programs] returns after the last call of the attach
    primitive answered [err]. *)
Definition attach_result (err fd : Z) : Z := if err <? 0 then err else fd.

(** The descriptor table after [xdp_program__free] closed the handle's
    descriptors. *)
Definition closed_fds (h : xdp_program) (fds : gmap Z fdesc)
    : gmap Z fdesc :=
  let fds := if link_fd h >=? 0 then delete (link_fd h) fds else fds in
  if prog_fd h >=? 0 then delete (prog_fd h) fds else fds.

(** The strings [xdp_program__free] frees. *)
Definition freed_strings (h : xdp_program) : Z :=
  (if link_pin_path h is Some _ then 1 else 0)
  + (if prog_name h is Some _ then 1 else 0).

(** The name of a link file. *)
Definition link_name (i : nat) : string := "link-prog" +:+ fmt_d (Z.of_nat i).

(** The file system after a successful run of the pin loop: entries are
    kept, and a new entry is a link file that holds a pinned object and
    whose path fits the buffer. *)
Definition pins_added (path : string) (fs fs' : gmap string node) : Prop :=
  ∀ k, fs' !! k = fs !! k
       ∨ (fs !! k = None
          ∧ ∃ i o, k = path +:+ "/" +:+ link_name i
                   ∧ fs' !! k = Some (Pinned o)
                   ∧ check_snprintf PATH_MAX k = 0).

Definition dispatch_name (id : Z) : string := "dispatch-" +:+ fmt_d id.


(** An entry that [unpin_multiprog] does not skip. *)
Definition not_dot (e : string) : Prop :=
  (strcmp "." e =? 0) || (strcmp ".." e =? 0) = false.

(** An entry that [unlink] removes: its path fits the buffer and it is a
    pinned object. *)
Definition unlinkable (fs : gmap string node) (path e : string) : Prop :=
  check_snprintf PATH_MAX (path +:+ "/" +:+ e) = 0
  ∧ ∃ o, fs !! (path +:+ "/" +:+ e) = Some (Pinned o).

(** [fs'] is [fs] without some of its pinned objects. *)
Definition pins_removed (fs fs' : gmap string node) : Prop :=
  ∀ k, fs' !! k = fs !! k
       ∨ (fs' !! k = None ∧ ∃ o, fs !! k = Some (Pinned o)).

(** The kernel's answer to the next call of [flock] on an open descriptor:
    0 when it succeeds, the [errno] otherwise. *)
Definition flock_answer (w : world) : N := default 0%N (head (w_flock w)).

(** The world after that call. *)
Definition after_flock (w : world) : world :=
  let w' := set_w_flock (tail (w_flock w)) w in
  match flock_answer w with
  | 0%N => w'
  | errno => set_w_errno (Z.of_N errno) w'
  end.

(** Entry [d] of [path] makes the loop of [unpin_multiprog] stop with
    [err]: its path does not fit the buffer, or it is a directory, which
    [unlink] refuses. *)
Definition stops_unpin (fs : gmap string node) (path d : string) (err : Z)
    : Prop :=
  (check_snprintf PATH_MAX (path +:+ "/" +:+ d) ≠ 0 ∧ err = - ENAMETOOLONG)
  ∨ (check_snprintf PATH_MAX (path +:+ "/" +:+ d) = 0
     ∧ fs !! (path +:+ "/" +:+ d) = Some Dir ∧ err = - EISDIR).

(** The rank under which a directory is read in the order [order]: the
    position of a name in it. *)
Fixpoint rank_of (order : list string) (s : string) : N :=
  match order with
  | [] => 0%N
  | x :: order' =>
      if decide (x = s) then 0%N else N.succ (rank_of order' s)
  end.
(** ** Scenarios of the further properties *)

(** A run config whose variable is declared [extern] (linkage 2). *)
Definition extern_vi : btf_var_secinfo :=
  {| vi_type := 2; vi_offset := 0; vi_size := 0 |}.
Definition extern_var : btf_type := ty "_foo" BTF_KIND_VAR 1 (ExtraVar 2).
Definition extern_btf : struct_btf :=
  {| types :=
       [ ty "" BTF_KIND_STRUCT 0 (ExtraMembers []);
         extern_var;
         ty XDP_RUN_CONFIG_SEC BTF_KIND_DATASEC 0
           (ExtraSecinfos [extern_vi]) ] |}.

(** A run config whose second member, [priority], has type [int]. *)
Definition intprio_members : list btf_member :=
  [ uint_field "XDP_DROP" 5; uint_field "priority" 1 ].
Definition intprio_btf : struct_btf :=
  {| types := run_config_types intprio_members |}.

(** Three handles opened from object files and not loaded. *)
Definition unloaded_handle (prio size : Z) : xdp_program :=
  {| bpf_prog :=
       Some {| bp_title := "xdp"; bp_name := "xdp_main"; bp_size := size |};
     bpf_obj := None; btf := None;
     prog_fd := -1; link_fd := -1; link_pin_path := None;
     prog_name := Some "xdp_main";
     prog_tag := replicate BPF_TAG_SIZE 0; load_time := 0;
     from_external_obj := false;
     run_prio := prio;
     chain_call_actions := XDP_DEFAULT_CHAIN_CALL_ACTIONS |}.

(** A host with the bpf file system at its default mount point, and the
    mount override pointing at a directory that is no bpf file system. *)
Definition world_override : world :=
  {| w_errno := 0;
     w_fs := {[ "/sys/fs/bpf" := Dir; "/tmp/nobpf" := Dir ]};
     w_statfs := {[ "/sys/fs/bpf" := BPF_FS_MAGIC; "/tmp/nobpf" := 0xef53 ]};
     w_env_bpffs := Some "/tmp/nobpf";
     w_mnt_cache := None; w_dir_cache := None;
     w_fds := ∅; w_kprogs := ∅; w_kbtfs := ∅; w_disk := ∅;
     w_objs := ∅; w_btfs := ∅; w_next := 1%N; w_nalloc := 0;
     w_malloc_left := None;
     w_xdp_reply := λ _, 0; w_xdp_log := [];
     w_flock := []; w_dirent_rank := λ _, 0%N |}.

(** A host whose disk holds a file that is no BPF object: libbpf refuses it
    with [LIBBPF_ERRNO__FORMAT] (4001). *)
Definition world_junk : world :=
  {| w_errno := 0; w_fs := ∅; w_statfs := ∅; w_env_bpffs := None;
     w_mnt_cache := None; w_dir_cache := None;
     w_fds := ∅; w_kprogs := ∅; w_kbtfs := ∅;
     w_disk := {[ "junk.o" := Refused 4001 ]};
     w_objs := ∅; w_btfs := ∅; w_next := 1%N; w_nalloc := 0;
     w_malloc_left := None;
     w_xdp_reply := λ _, 0; w_xdp_log := [];
     w_flock := []; w_dirent_rank := λ _, 0%N |}.

(** The process of [world_links] when a signal interrupts its next wait for
    a lock. *)
Definition world_intr : world := set_w_flock [4%N] world_links.

(** A loader that works: loading an object gives kernel program 21 on the
    lowest free descriptor, which in the scenarios is 3; a raw tracepoint
    opens as a link on the next descriptor. *)
Definition working_loader : externals :=
  {| qsort := λ _ progs, progs;
     find_bpf_file := λ _ name, ret (0, name);
     sizeof_xdp_dispatcher_config := 44;
     bpf_object__rodata := λ _, ret (Some 44);
     store_num_progs_enabled := λ _ _, ret tt;
     store_chain_call_actions := λ _ _ _, ret tt;
     bpf_object__load := λ _, _ ← install_fd (FdProg 21); ret 0;
     bpf_program__fd := λ _, ret 3;
     bpf_program__set_attach_target := λ _ _ _, ret 0;
     bpf_program__set_type_ext := λ _, ret tt;
     bpf_raw_tracepoint_open := λ _, install_fd (FdLink 21) |}.


(** ** Vocabulary of the further properties *)

(** The fields the metadata parser never writes. *)
Definition same_identity (h h' : xdp_program) : Prop :=
  bpf_prog h' = bpf_prog h ∧ bpf_obj h' = bpf_obj h ∧ btf h' = btf h
  ∧ prog_fd h' = prog_fd h ∧ link_fd h' = link_fd h
  ∧ link_pin_path h' = link_pin_path h ∧ prog_name h' = prog_name h
  ∧ prog_tag h' = prog_tag h ∧ load_time h' = load_time h
  ∧ from_external_obj h' = from_external_obj h.

(** The parser gets to entry [vi] of the run-config section, whose type
    [var] is the first one named ["_" + pname]. *)
Definition reaches_variable (btf : struct_btf) (pname : string)
    (vi : btf_var_secinfo) (var : btf_type) : Prop :=
  (String.length ("_" +:+ pname) < 100)%nat
  ∧ ∃ sec pre post,
      find_run_config_sec (types btf) = Some (Some sec)
      ∧ btf_var_secinfos sec = Some (pre ++ vi :: post)%list
      ∧ Forall (other_variable btf ("_" +:+ pname)) pre
      ∧ matching_variable btf ("_" +:+ pname) vi var.

(** The type of member [m] is not a pointer to an array: under modifiers
    and aliases it is no pointer, or the pointer's target is missing or is
    no array. *)
Definition not_a_count (btf : struct_btf) (m : btf_member) : Prop :=
  ∃ tp, skip_mods_and_typedefs btf (m_type m) = Some tp
    ∧ (btf_is_ptr tp = false
       ∨ btf__type_by_id btf (t_type tp) = None
       ∨ ∃ ta, btf__type_by_id btf (t_type tp) = Some ta
               ∧ btf_is_array ta = false).

(** Lexicographic combination of two three-way results. *)
Definition lex (c1 c2 : Z) : Z := if c1 =? 0 then c2 else c1.

(** Three three-way results, of [x] against [y], [y] against [z] and [x]
    against [z], that fit one order. *)
Definition ordered3 (p q r : Z) : Prop :=
  (p ≤ 0 → q ≤ 0 → r ≤ 0)
  ∧ (p < 0 → q ≤ 0 → r < 0)
  ∧ (p ≤ 0 → q < 0 → r < 0)
  ∧ (p = 0 → q = 0 → r = 0).

(** The keys of [cmp_xdp_programs], one by one. *)
Definition cmp_prio (a b : xdp_program) : Z :=
  if run_prio a =? run_prio b then 0
  else if run_prio a <? run_prio b then -1 else 1.
Definition cmp_name (a b : xdp_program) : Z :=
  strcmp (default "" (prog_name a)) (default "" (prog_name b)).
Definition cmp_loaded (a b : xdp_program) : Z :=
  if (prog_fd a >=? 0) && (prog_fd b <? 0) then -1
  else if (prog_fd a <? 0) && (prog_fd b >=? 0) then 1 else 0.
Definition cmp_size (a b : xdp_program) : Z :=
  match bpf_prog a, bpf_prog b with
  | Some pa, Some pb =>
      if bp_size pa =? bp_size pb then 0
      else if bp_size pa <? bp_size pb then -1 else 1
  | _, _ => 0
  end.
Definition cmp_tag (a b : xdp_program) : Z :=
  memcmp (prog_tag a) (prog_tag b) BPF_TAG_SIZE.
Definition cmp_time (a b : xdp_program) : Z :=
  if load_time a =? load_time b then 0
  else if load_time a <? load_time b then -1 else 1.

(** [fs'] is [fs] with some directories created. *)
Definition dirs_added (fs fs' : gmap string node) : Prop :=
  ∀ k, fs' !! k = fs !! k ∨ (fs !! k = None ∧ fs' !! k = Some Dir).

(** No live object sits at an address the allocator has not handed out. *)
Definition heap_fresh (w : world) : Prop :=
  ∀ p, (w_next w ≤ p)%N → w_objs w !! p = None ∧ w_btfs w !! p = None.

(** The handle [xdp_program__fill_from_obj] builds from a fresh handle
    before it parses the metadata. *)
Definition filled_from_obj (obj : ptr) (o : bpf_object) (bp : bpf_program)
    (external : bool) (h0 : xdp_program) : xdp_program :=
  set_from_external_obj external
    (set_btf (o_btf o)
       (set_bpf_obj (Some obj)
          (set_bpf_prog (Some bp)
             (set_prog_name (Some (bpf_program__name bp)) h0)))).

(** The program [xdp_program__fill_from_obj] selects: the first with the
    given section title, or the first of the object. *)
Definition selected_program (o : bpf_object) (name : option string)
    : option bpf_program :=
  match name with
  | Some title =>
      List.find (λ p, strcmp (bp_title p) title =? 0) (o_programs o)
  | None => head (o_programs o)
  end.

(** The handle [xdp_program__new] returns. *)
Definition new_handle : xdp_program :=
  {| bpf_prog := None; bpf_obj := None; btf := None;
     prog_fd := -1; link_fd := -1; link_pin_path := None;
     prog_name := None;
     prog_tag := replicate BPF_TAG_SIZE 0; load_time := 0;
     from_external_obj := false;
     run_prio := XDP_DEFAULT_RUN_PRIO;
     chain_call_actions := XDP_DEFAULT_CHAIN_CALL_ACTIONS |}.

(** Calls of the attach primitive made for one attach: there is one at
    least, all on [ifindex], each with descriptor [fd] or with -1 (a
    detach). *)
Definition attach_calls (ifindex fd : Z) (calls : list xdp_call) : Prop :=
  calls ≠ []
  ∧ Forall (λ c, xc_ifindex c = ifindex ∧ (xc_fd c = fd ∨ xc_fd c = -1))
      calls.

(** What a member of the run-config struct does to the handle. *)
Inductive write :=
  | WPrio (v : Z)
  | WBit (act : Z) (enabled : bool).

Definition do_write (wr : write) (h : xdp_program) : xdp_program :=
  match wr with
  | WPrio v => xdp_program__set_run_prio h v
  | WBit act enabled => xdp_program__set_chain_call_enabled h act enabled
  end.

Definition do_writes (ws : list write) (h : xdp_program) : xdp_program :=
  fold_left (λ h wr, do_write wr h) ws h.

Definition small_bit (wr : write) : Prop :=
  match wr with WPrio _ => True | WBit act _ => 0 ≤ act < 32 end.

(** ** Printing the chain-call actions *)

(** [size_t] arithmetic. *)
Definition u64 (x : Z) : Z := x mod 2 ^ 64.

Definition NUL : ascii := "000"%char.

(** A store into the caller's buffer; [None] when it lands outside. *)
Definition poke (buf : list ascii) (i : nat) (c : ascii)
    : option (list ascii) :=
  if (i <? length buf)%nat then Some (<[i := c]> buf) else None.

Fixpoint poke_all (buf : list ascii) (i : nat) (cs : list ascii)
    : option (list ascii) :=
  match cs with
  | [] => Some buf
  | c :: cs' =>
      match poke buf i c with
      | Some buf' => poke_all buf' (S i) cs'
      | None => None
      end
  end.

(** [snprintf(buf + pos, size, "%s", s)] of libc: at most [size - 1]
    characters of [s] and a NUL are stored, nothing at all for size 0; the
    result is the length of [s]. *)
Definition snprintf_s (buf : list ascii) (pos : nat) (size : Z) (s : string)
    : option (Z * list ascii) :=
  let n := Z.of_nat (String.length s) in
  if size =? 0 then Some (n, buf)
  else
    match poke_all buf pos
            (take (Z.to_nat (Z.min n (size - 1))) (list_ascii_of_string s)
             ++ [NUL]) with
    | Some buf' => Some (n, buf')
    | None => None
    end.

(** The locals of [xdp_program__print_chain_call_actions]; [ps_pos] is
    [pos - buf]. *)
Record print_state := {
  ps_buf : list ascii;
  ps_pos : nat;
  ps_buf_len : Z;
  ps_len : Z;
  ps_first : bool
}.

(** One iteration of the loop, for action [i] named [name]. *)
Definition print_action (prog : xdp_program) (i : Z) (name : string)
    (st : print_state) : option print_state :=
  if xdp_program__chain_call_enabled prog i then
    match
      (if negb (ps_first st) then
         match poke (ps_buf st) (ps_pos st) "," with
         | Some buf =>
             Some {| ps_buf := buf; ps_pos := S (ps_pos st);
                     ps_buf_len := u64 (ps_buf_len st - 1);
                     ps_len := ps_len st; ps_first := ps_first st |}
         | None => None
         end
       else
         Some {| ps_buf := ps_buf st; ps_pos := ps_pos st;
                 ps_buf_len := ps_buf_len st;
                 ps_len := ps_len st; ps_first := false |})
    with
    | Some st =>
        match snprintf_s (ps_buf st) (ps_pos st)
                (u64 (ps_buf_len st - ps_len st)) name with
        | Some (len, buf) =>
            Some {| ps_buf := buf; ps_pos := ps_pos st + Z.to_nat len;
                    ps_buf_len := u64 (ps_buf_len st - len);
                    ps_len := len; ps_first := ps_first st |}
        | None => None
        end
    | None => None
    end
  else Some st.

(** [for (i = 0; i <= XDP_REDIRECT; i++)] over [xdp_action_names[i]]. *)
Fixpoint print_actions (prog : xdp_program) (i : Z) (names : list string)
    (st : print_state) : option print_state :=
  match names with
  | [] => Some st
  | name :: names' =>
      match print_action prog i name st with
      | Some st => print_actions prog (i + 1) names' st
      | None => None
      end
  end.

(** [xdp_program__print_chain_call_actions]: the result and the buffer;
    [None] is a store outside the buffer. *)
Definition xdp_program__print_chain_call_actions (prog : xdp_program)
    (buf : list ascii) (buf_len : Z) : option (Z * list ascii) :=
  match print_actions prog 0 xdp_action_names
          {| ps_buf := buf; ps_pos := 0; ps_buf_len := buf_len;
             ps_len := 0; ps_first := true |} with
  | Some st => Some (0, ps_buf st)
  | None => None
  end.

(** The names of the actions enabled in the handle, in the order of their
    codes from [i] on. *)
Fixpoint enabled_from (prog : xdp_program) (i : Z) (names : list string)
    : list string :=
  match names with
  | [] => []
  | name :: names' =>
      if xdp_program__chain_call_enabled prog i
      then name :: enabled_from prog (i + 1) names'
      else enabled_from prog (i + 1) names'
  end.

Definition enabled_names (prog : xdp_program) : list string :=
  enabled_from prog 0 xdp_action_names.

(** The names separated by commas. *)
Definition comma_join (names : list string) : list ascii :=
  match names with
  | [] => []
  | name :: names' =>
      list_ascii_of_string name
      ++ flat_map (λ s, "," %char :: list_ascii_of_string s) names'
  end.

(** A buffer that holds the C string [out] at its start and is otherwise
    as [buf]. *)
Definition holds (out buf : list ascii) : list ascii :=
  out ++ NUL :: drop (S (length out)) buf.

(** The loop invariant of the printer on a buffer [buf0] of which [L] bytes
    were announced: [d] are the names printed so far, [rem] the number of
    actions still to come. *)
Definition print_inv (buf0 : list ascii) (L : Z) (d : list string)
    (rem : nat) (st : print_state) : Prop :=
  ps_buf_len st = L - Z.of_nat (ps_pos st)
  ∧ 0 ≤ ps_len st ≤ 12
  ∧ Z.of_nat (ps_pos st) + ps_len st + 25 * Z.of_nat rem ≤ L
  ∧ match d with
    | [] => ps_first st = true ∧ ps_pos st = 0%nat ∧ ps_buf st = buf0
    | _ :: _ =>
        ps_first st = false ∧ ps_pos st = length (comma_join d)
        ∧ ps_buf st = holds (comma_join d) buf0
    end.

(** * Properties *)

(** ** C strings and bit masks *)

Lemma strcmp_refl s : strcmp s s = 0.
Proof.
  induction s as [|c s IH]; simpl; [done|].
  by rewrite Ascii.eqb_refl.
Qed.

Lemma strcmp_eq a b : c_string a → c_string b → strcmp a b = 0 → a = b.
Proof.
  revert b. induction a as [|c a IH]; intros [|d b]; simpl; try done.
  - intros _ [Hd _] Hz. lia.
  - intros [Hc _] _ Hz. lia.
  - intros [Hc Ha] [Hd Hb]. destruct (Ascii.eqb_spec c d) as [->|Hne].
    + intros Hz. f_equal. by apply IH.
    + intros Hz. exfalso. apply Hne.
      assert (nat_of_ascii c = nat_of_ascii d) as Heq
        by (unfold byte_of in Hz; lia).
      by rewrite <- (ascii_nat_embedding c), <- (ascii_nat_embedding d), Heq.
  Qed.

Lemma strcmp_neq a b :
  c_string a → c_string b → a ≠ b → (strcmp a b =? 0) = false.
Proof.
  intros Ha Hb Hne. apply Z.eqb_neq. intros Hz. by apply Hne, strcmp_eq.
Qed.

Lemma xdp_action_names_c_string : Forall c_string xdp_action_names.
Proof. repeat constructor; by vm_compute. Qed.

Lemma get_xdp_action_unknown s :
  c_string s → s ∉ xdp_action_names → get_xdp_action s = None.
Proof.
  intros Hs Hnot.
  assert (∀ n, n ∈ xdp_action_names → (strcmp s n =? 0) = false) as Hall.
  { intros n Hn. apply strcmp_neq; [done| |congruence].
    by eapply Forall_forall in Hn; [|apply xdp_action_names_c_string]. }
  unfold get_xdp_action. generalize 0. clear Hnot. revert Hall.
  induction xdp_action_names as [|n ns IH]; intros Hall i; simpl; [done|].
  rewrite Hall by left. apply IH. intros n' Hn'. apply Hall. by right.
Qed.

Lemma get_xdp_action_named (act : nat) s :
  xdp_action_names !! act = Some s → get_xdp_action s = Some (Z.of_nat act).
Proof.
  unfold xdp_action_names.
  do 5 (destruct act as [|act]; [intros [= <-]; by vm_compute|]).
  done.
Qed.

Lemma land_bit x a :
  0 ≤ a → (Z.land x (Z.shiftl 1 a) =? 0) = negb (Z.testbit x a).
Proof.
  intros Ha. destruct (Z.testbit x a) eqn:Hb; simpl.
  - apply Z.eqb_neq. intros Hz.
    assert (Z.testbit (Z.land x (Z.shiftl 1 a)) a = false) as Hf
      by (rewrite Hz; apply Z.bits_0).
    rewrite Z.land_spec, Hb, Z.shiftl_spec, Z.sub_diag in Hf by done.
    done.
  - apply Z.eqb_eq, Z.bits_inj'. intros n Hn.
    rewrite Z.land_spec, Z.bits_0, Z.shiftl_spec by done.
    destruct (decide (n = a)) as [->|Hne]; [by rewrite Hb|].
    replace (Z.testbit 1 (n - a)) with false; [by rewrite andb_false_r|].
    symmetry. destruct (decide (n < a)).
    + apply Z.testbit_neg_r. lia.
    + change 1 with (2 ^ 0). apply Z.pow2_bits_false. lia.
Qed.

Lemma u32_testbit x a : 0 ≤ a < 32 → Z.testbit (u32 x) a = Z.testbit x a.
Proof. intros Ha. unfold u32. apply Z.mod_pow2_bits_low. lia. Qed.

(** Setting then reading an action bit returns what was set, and the other
    bits are left as they were. *)
Lemma chain_call_set_get prog act enabled :
  0 ≤ act < 32 →
  xdp_program__chain_call_enabled
    (xdp_program__set_chain_call_enabled prog act enabled) act = enabled.
Proof.
  intros Ha. unfold xdp_program__chain_call_enabled.
  rewrite land_bit, negb_involutive by lia.
  destruct enabled; simpl; rewrite u32_testbit by done.
  - rewrite Z.lor_spec, Z.shiftl_spec, Z.sub_diag by lia.
    apply orb_true_r.
  - rewrite Z.land_spec, Z.lnot_spec, Z.shiftl_spec, Z.sub_diag by lia.
    apply andb_false_r.
Qed.

Lemma chain_call_set_other prog act act' enabled :
  0 ≤ act → 0 ≤ act' < 32 → act ≠ act' →
  xdp_program__chain_call_enabled
    (xdp_program__set_chain_call_enabled prog act enabled) act'
  = xdp_program__chain_call_enabled prog act'.
Proof.
  intros Ha Ha' Hne. unfold xdp_program__chain_call_enabled.
  rewrite !land_bit by lia. f_equal.
  assert (Z.testbit (Z.shiftl 1 act) act' = false) as Hbit.
  { rewrite Z.shiftl_spec by lia. destruct (decide (act' < act)).
    - apply Z.testbit_neg_r. lia.
    - change 1 with (2 ^ 0). apply Z.pow2_bits_false. lia. }
  destruct enabled; simpl; rewrite u32_testbit by done.
  - by rewrite Z.lor_spec, Hbit, orb_false_r.
  - by rewrite Z.land_spec, Z.lnot_spec, Hbit, andb_true_r by lia.
Qed.

(** ** The metadata parser *)

Lemma parse_members_app btf pre rest h h1 :
  parse_members btf pre h = Some (0, h1) →
  parse_members btf (pre ++ rest) h = parse_members btf rest h1.
Proof.
  revert h. induction pre as [|m pre IH]; intros h; simpl.
  - by intros [= ->].
  - intros Hpre. repeat case_match; simplify_eq; by apply IH.
Qed.

Lemma parse_vars_first_match btf struct_name pre vi var post h :
  Forall (other_variable btf struct_name) pre →
  matching_variable btf struct_name vi var →
  parse_vars btf struct_name (pre ++ vi :: post) h = parse_var btf var vi h.
Proof.
  intros Hpre [Hvar (name & Hname & Hcmp)].
  induction Hpre as [|v pre (t & n & Ht & Hn & Hne) _ IH]; simpl.
  - by rewrite Hvar, Hname, Hcmp.
  - rewrite Ht, Hn. by apply Z.eqb_neq in Hne as ->.
Qed.

Lemma finds_run_config_members btf pname ms h :
  prog_name h = Some pname →
  finds_run_config btf pname ms →
  xdp_parse_run_config (Some btf) h = parse_members btf ms h.
Proof.
  intros Hname [Hlen (sec & pre & vi & post & var & linkage & def & Hsec
    & Hvis & Hpre & Hvi & Hisvar & Hlink & Hlinkage & Hdef & Hstruct
    & Hsize & Hms)].
  unfold xdp_parse_run_config, xdp_program__name. rewrite Hname.
  unfold check_snprintf.
  apply Nat.ltb_lt in Hlen as ->. simpl negb. cbv iota.
  rewrite Hsec, Hvis, (parse_vars_first_match _ _ _ _ var) by done.
  unfold parse_var. rewrite Hisvar, Hlink, Hdef, Hstruct, Hms. simpl.
  replace (t_size def >? vi_size vi) with false
    by (symmetry; rewrite Z.gtb_ltb; apply Z.ltb_ge; lia).
  by destruct Hlinkage as [-> | ->].
Qed.

Lemma get_field_int_count btf m n :
  member_count btf m n → get_field_int btf m = Some (Some n).
Proof.
  intros (tp & ta & arr & Htp & Hptr & Hta & Harr & Hinfo & <-).
  unfold get_field_int. by rewrite Htp, Hptr, Hta, Harr, Hinfo.
Qed.

(** The run config of scenario S4: priority 15, continue on XDP_PASS, stop
    on XDP_DROP; the other bits stay as [xdp_program__new] set them. *)
Lemma run_config_example :
  ∃ h, xdp_parse_run_config (Some foo_btf) (blank_handle "foo") = Some (0, h)
    ∧ run_prio h = 15
    ∧ xdp_program__chain_call_enabled h XDP_PASS = true
    ∧ xdp_program__chain_call_enabled h XDP_DROP = false
    ∧ xdp_program__chain_call_enabled h XDP_ABORTED = false
    ∧ xdp_program__chain_call_enabled h XDP_TX = false
    ∧ xdp_program__chain_call_enabled h XDP_REDIRECT = false.
Proof. eexists. split; [by vm_compute|]. by vm_compute. Qed.

Lemma foo_finds_run_config : finds_run_config foo_btf "foo" foo_members.
Proof.
  split; [vm_compute; lia|].
  eexists _, [], _, [], _, _, _.
  split; [by vm_compute|]. split; [by vm_compute|].
  split; [by constructor|].
  split. { split; [by vm_compute|]. by eexists. }
  split; [done|]. split; [done|]. split; [by left|].
  split; [by vm_compute|]. split; [done|]. split; [by vm_compute|]. done.
Qed.

(** ** Type information that differs in the section's variables only *)

Lemma same_but_vars_refl t : same_but_vars t t.
Proof. by left. Qed.

Lemma same_but_vars_fields t t' :
  same_but_vars t t' →
  t_kind t' = t_kind t ∧ t_type t' = t_type t ∧ t_name t' = t_name t.
Proof. intros [->|(Hk & Hk' & ? & ?)]; [done|]. by rewrite Hk, Hk'. Qed.

Lemma same_but_vars_kind_is k t t' :
  same_but_vars t t' → btf_kind_is k t' = btf_kind_is k t.
Proof.
  intros (Hk & _)%same_but_vars_fields. unfold btf_kind_is. by rewrite Hk.
Qed.

Lemma same_but_vars_eq t t' :
  same_but_vars t t' → btf_is_datasec t = false → t' = t.
Proof.
  intros [->|(Hk & _)]; [done|].
  unfold btf_is_datasec, btf_kind_is. by rewrite Hk.
Qed.

Lemma set_run_config_vars_same vis ts :
  Forall2 same_but_vars ts (set_run_config_vars vis ts).
Proof.
  induction ts as [|t ts IH]; simpl; [constructor|].
  destruct (btf_is_datasec t) eqn:Hsec; simpl.
  - destruct (t_name t) as [name|] eqn:Hname.
    + destruct (strcmp name XDP_RUN_CONFIG_SEC =? 0).
      * constructor;
          [|apply Forall_Forall2_diag, Forall_forall; intros; by left].
        right. unfold btf_is_datasec, btf_kind_is in Hsec. simpl.
        by destruct (t_kind t).
      * constructor; [by left|done].
    + constructor; [by left|done].
  - constructor; [by left|done].
Qed.

Lemma find_run_config_sec_set vis ts sec :
  find_run_config_sec ts = Some (Some sec) →
  find_run_config_sec (set_run_config_vars vis ts)
  = Some (Some (with_secinfos vis sec)).
Proof.
  induction ts as [|t ts IH]; simpl; [done|].
  destruct (btf_is_datasec t) eqn:Hsec; simpl; [|by rewrite Hsec].
  destruct (t_name t) as [name|] eqn:Hname; [|done].
  destruct (strcmp name XDP_RUN_CONFIG_SEC =? 0) eqn:Hcmp.
  - intros [= <-]. simpl.
    change (btf_is_datasec (with_secinfos vis t)) with (btf_is_datasec t).
    by rewrite Hsec, Hname, Hcmp.
  - intros Hfind. simpl. by rewrite Hsec, Hname, Hcmp, IH.
Qed.

Section SameButVars.
Context (btf btf' : struct_btf).
Context (Hsame : Forall2 same_but_vars (types btf) (types btf')).

Lemma type_by_id_same id :
  option_Forall2 same_but_vars
    (btf__type_by_id btf id) (btf__type_by_id btf' id).
Proof using Hsame.
  unfold btf__type_by_id, btf__get_nr_types.
  rewrite <- (Forall2_length _ _ _ Hsame).
  destruct (id >? _); [constructor|].
  destruct (id =? 0); [constructor; by left|].
  by apply Forall2_lookup.
Qed.

Lemma skip_mods_loop_same fuel t t' :
  same_but_vars t t' →
  option_Forall2 same_but_vars
    (skip_mods_loop fuel btf t) (skip_mods_loop fuel btf' t').
Proof using Hsame.
  revert t t'. induction fuel as [|fuel IH]; intros t t' Ht; simpl;
    unfold btf_is_mod, btf_is_typedef;
    rewrite !(same_but_vars_kind_is _ t t') by done;
    destruct (_ || _); try by constructor.
  destruct (same_but_vars_fields _ _ Ht) as (_ & -> & _).
  destruct (type_by_id_same (t_type t)) as [u u' Hu|]; [|constructor].
  by apply IH.
Qed.

Lemma skip_mods_and_typedefs_same id :
  option_Forall2 same_but_vars
    (skip_mods_and_typedefs btf id) (skip_mods_and_typedefs btf' id).
Proof using Hsame.
  unfold skip_mods_and_typedefs.
  rewrite <- (Forall2_length _ _ _ Hsame).
  destruct (type_by_id_same id) as [u u' Hu|]; [|constructor].
  by apply skip_mods_loop_same.
Qed.

Lemma get_field_int_same m : get_field_int btf' m = get_field_int btf m.
Proof using Hsame.
  unfold get_field_int.
  destruct (skip_mods_and_typedefs_same (m_type m)) as [t t' Ht|]; [|done].
  unfold btf_is_ptr. rewrite (same_but_vars_kind_is _ t t') by done.
  destruct (btf_kind_is BTF_KIND_PTR t) eqn:Hptr; [|done]. simpl.
  destruct (same_but_vars_fields _ _ Ht) as (_ & -> & _).
  destruct (type_by_id_same (t_type t)) as [a a' Ha|]; [|done].
  unfold btf_is_array. rewrite (same_but_vars_kind_is _ a a') by done.
  destruct (btf_kind_is BTF_KIND_ARRAY a) eqn:Harr; [|done]. simpl.
  rewrite (same_but_vars_eq a a'); [done..|].
  unfold btf_is_datasec, btf_kind_is in *. by destruct (t_kind a).
Qed.

Lemma parse_members_same ms h :
  parse_members btf' ms h = parse_members btf ms h.
Proof using Hsame.
  revert h. induction ms as [|m ms IH]; intros h; simpl; [done|].
  rewrite get_field_int_same. repeat case_match; try done; apply IH.
Qed.

Lemma parse_var_same var var' vi h :
  same_but_vars var var' →
  parse_var btf' var' vi h = parse_var btf var vi h.
Proof using Hsame.
  intros Hvar. unfold parse_var, btf_is_var.
  rewrite (same_but_vars_kind_is _ var var') by done.
  destruct (btf_kind_is BTF_KIND_VAR var) eqn:Hisvar; [|done]. simpl.
  rewrite (same_but_vars_eq var var'); [|done|].
  2: { unfold btf_is_datasec, btf_kind_is in *. by destruct (t_kind var). }
  destruct (btf_var_linkage var) as [linkage|]; [|done].
  destruct (_ && _); [done|].
  destruct (skip_mods_and_typedefs_same (t_type var)) as [d d' Hd|]; [|done].
  unfold btf_is_struct. rewrite (same_but_vars_kind_is _ d d') by done.
  destruct (btf_kind_is BTF_KIND_STRUCT d) eqn:Hstruct; [|done]. simpl.
  rewrite (same_but_vars_eq d d'); [|done|].
  2: { unfold btf_is_datasec, btf_kind_is in *. by destruct (t_kind d). }
  destruct (t_size d >? vi_size vi); [done|].
  destruct (btf_members d); [|done]. apply parse_members_same.
Qed.

Lemma parse_vars_same struct_name vis h :
  parse_vars btf' struct_name vis h = parse_vars btf struct_name vis h.
Proof using Hsame.
  induction vis as [|vi vis IH]; simpl; [done|].
  destruct (type_by_id_same (vi_type vi)) as [var var' Hvar|]; [|done].
  destruct (same_but_vars_fields _ _ Hvar) as (_ & _ & ->).
  destruct (t_name var) as [name|]; [|done].
  destruct (negb _); [done|]. by apply parse_var_same.
Qed.

End SameButVars.

(** The parser's result depends on the variables of the section up to the
    first one named after the program, and on no variable after it. *)
Lemma parse_run_config_first_match btf h pname sec pre vi post var post' :
  prog_name h = Some pname →
  (String.length ("_" +:+ pname) < 100)%nat →
  find_run_config_sec (types btf) = Some (Some sec) →
  btf_var_secinfos sec = Some (pre ++ vi :: post)%list →
  Forall (other_variable btf ("_" +:+ pname)) pre →
  matching_variable btf ("_" +:+ pname) vi var →
  xdp_parse_run_config
    (Some {| types := set_run_config_vars (pre ++ vi :: post') (types btf) |})
    h
  = parse_var btf var vi h.
Proof.
  intros Hname Hlen Hsec Hvis Hpre Hvi.
  unfold xdp_parse_run_config, xdp_program__name. rewrite Hname.
  unfold check_snprintf. apply Nat.ltb_lt in Hlen as ->.
  simpl negb. cbv iota. cbn [types].
  rewrite (find_run_config_sec_set _ _ sec) by done.
  cbn [btf_var_secinfos with_secinfos t_extra].
  rewrite (parse_vars_same btf) by apply set_run_config_vars_same.
  by apply parse_vars_first_match.
Qed.

(** C4. When the parser finds the run-config variable and has accepted the
    members before [m], a member [m] whose type is a pointer to an array of
    [n] elements is handled as follows.  Named ["priority"]: [n] becomes the
    handle's priority and parsing goes on with the next member.  Named after
    action [act]: the chain-call bit of [act] is set when [n] is not zero and
    cleared when it is zero, the priority is untouched, and parsing goes on
    with the next member. *)
Theorem run_config_member_values btf h pname pre m post mname n h1 :
  prog_name h = Some pname →
  finds_run_config btf pname (pre ++ m :: post) →
  parse_members btf pre h = Some (0, h1) →
  m_name m = Some mname →
  member_count btf m n →
  (mname = "priority" →
     xdp_parse_run_config (Some btf) h
       = parse_members btf post (xdp_program__set_run_prio h1 n)
     ∧ run_prio (xdp_program__set_run_prio h1 n) = n)
  ∧ (∀ act : nat, xdp_action_names !! act = Some mname →
       let h2 :=
         xdp_program__set_chain_call_enabled h1 (Z.of_nat act)
           (negb (n =? 0)) in
       xdp_parse_run_config (Some btf) h = parse_members btf post h2
       ∧ xdp_program__chain_call_enabled h2 (Z.of_nat act) = negb (n =? 0)
       ∧ run_prio h2 = run_prio h1).
Proof.
  intros Hname Hfinds Hpre Hm Hcount.
  rewrite (finds_run_config_members _ pname (pre ++ m :: post)) by done.
  rewrite (parse_members_app _ _ _ _ h1) by done.
  apply get_field_int_count in Hcount. simpl. rewrite Hm, Hcount.
  split.
  - intros ->. by rewrite strcmp_refl.
  - intros act Hact. cbv zeta.
    assert (act < 5)%nat as Hlt by (by apply lookup_lt_Some in Hact).
    rewrite (get_xdp_action_named act) by done.
    replace (strcmp mname "priority" =? 0) with false.
    + split; [done|]. split; [|by destruct (n =? 0)].
      apply chain_call_set_get. lia.
    + revert Hact. unfold xdp_action_names.
      do 5 (destruct act as [|act]; [by intros [= <-]|]). done.
Qed.

Lemma run_config_member_values_witness :
  xdp_parse_run_config (Some foo_btf) (blank_handle "foo")
  = parse_members foo_btf [uint_field "XDP_PASS" 5; uint_field "XDP_DROP" 7]
      (xdp_program__set_run_prio (blank_handle "foo") 15)
  ∧ run_prio (xdp_program__set_run_prio (blank_handle "foo") 15) = 15.
Proof.
  apply (run_config_member_values foo_btf (blank_handle "foo") "foo" []
           (uint_field "priority" 3)
           [uint_field "XDP_PASS" 5; uint_field "XDP_DROP" 7]
           "priority" 15 (blank_handle "foo")).
  - reflexivity.
  - exact foo_finds_run_config.
  - reflexivity.
  - reflexivity.
  - eexists _, _, _. repeat split; vm_compute; reflexivity.
  - reflexivity.
Defined.

(** C3, as the code has it.  When the parser finds the run-config variable
    and has accepted the members before [m], a member [m] whose name is
    neither ["priority"] nor one of the five action names makes it fail with
    [-ENOTSUP] (Unsupported, the errno of a rejected linkage), which is not
    [-EINVAL]; the handle keeps what the earlier members set. *)
Theorem unknown_member_unsupported btf h pname pre m post mname h1 :
  prog_name h = Some pname →
  finds_run_config btf pname (pre ++ m :: post) →
  parse_members btf pre h = Some (0, h1) →
  m_name m = Some mname →
  c_string mname →
  mname ≠ "priority" →
  mname ∉ xdp_action_names →
  xdp_parse_run_config (Some btf) h = Some (- ENOTSUP, h1)
  ∧ ENOTSUP = EOPNOTSUPP ∧ - ENOTSUP ≠ - EINVAL.
Proof.
  intros Hname Hfinds Hpre Hm Hc Hprio Hact.
  split; [|done].
  rewrite (finds_run_config_members _ pname (pre ++ m :: post)) by done.
  rewrite (parse_members_app _ _ _ _ h1) by done.
  simpl. rewrite Hm, strcmp_neq by (done || by vm_compute).
  by rewrite get_xdp_action_unknown.
Qed.

Lemma bogus_finds_run_config :
  finds_run_config bogus_btf "foo" bogus_members.
Proof.
  split; [vm_compute; lia|].
  eexists _, [], _, [], _, _, _.
  split; [by vm_compute|]. split; [by vm_compute|].
  split; [by constructor|].
  split. { split; [by vm_compute|]. by eexists. }
  split; [done|]. split; [done|]. split; [by left|].
  split; [by vm_compute|]. split; [done|]. split; [by vm_compute|]. done.
Qed.

Lemma unknown_member_unsupported_witness :
  xdp_parse_run_config (Some bogus_btf) (blank_handle "foo")
  = Some (- ENOTSUP, xdp_program__set_run_prio (blank_handle "foo") 15)
  ∧ ENOTSUP = EOPNOTSUPP ∧ - ENOTSUP ≠ - EINVAL.
Proof.
  apply (unknown_member_unsupported bogus_btf (blank_handle "foo") "foo"
           [uint_field "priority" 3] (uint_field "bogus" 5) [] "bogus"
           (xdp_program__set_run_prio (blank_handle "foo") 15)).
  - reflexivity.
  - exact bogus_finds_run_config.
  - vm_compute. reflexivity.
  - reflexivity.
  - vm_compute. repeat split; discriminate.
  - discriminate.
  - intros Hin. repeat (apply elem_of_cons in Hin as [Hin|Hin];
      [discriminate|]). by apply elem_of_nil in Hin.
Defined.

(** A member named ["bogus"], neither ["priority"] nor an action name: the
    parser returns [-EOPNOTSUPP], not [-EINVAL]. *)
Lemma unknown_member_not_einval :
  m_name (uint_field "bogus" 5) = Some "bogus"
  ∧ "bogus" ≠ "priority"
  ∧ ("bogus" ∉ xdp_action_names)
  ∧ (fst <$> xdp_parse_run_config (Some bogus_btf) (blank_handle "foo"))
    = Some (- EOPNOTSUPP)
  ∧ (fst <$> xdp_parse_run_config (Some bogus_btf) (blank_handle "foo"))
    ≠ Some (- EINVAL).
Proof.
  split; [done|]. split; [done|]. split.
  { intros Hin. repeat (apply elem_of_cons in Hin as [Hin|Hin];
      [discriminate|]). by apply elem_of_nil in Hin. }
  split; by vm_compute.
Qed.

(** C10. The run-config section lists the variables [pre], then [vi], then
    [post]; the variables of [pre] have other names and [vi] is the first
    one named ["_" + name of the handle].  Then the parser's result, error
    code and handle, is that of handling [vi] alone: an accepted variable
    gives what the loop over the members of its struct gives, so that a
    first member [priority] of count [n] sets the handle's priority to [n]
    before the other members are read.  The variables after [vi] are never
    looked at: with any other variables [post'] in their place, further
    ones of the same name included, the result is the same. *)
Theorem first_matching_variable_only btf h pname sec pre vi post var :
  prog_name h = Some pname →
  (String.length ("_" +:+ pname) < 100)%nat →
  find_run_config_sec (types btf) = Some (Some sec) →
  btf_var_secinfos sec = Some (pre ++ vi :: post)%list →
  Forall (other_variable btf ("_" +:+ pname)) pre →
  matching_variable btf ("_" +:+ pname) vi var →
  xdp_parse_run_config (Some btf) h = parse_var btf var vi h
  ∧ (∀ linkage def ms,
       btf_is_var var = true →
       btf_var_linkage var = Some linkage →
       linkage = BTF_VAR_GLOBAL_ALLOCATED ∨ linkage = BTF_VAR_STATIC →
       skip_mods_and_typedefs btf (t_type var) = Some def →
       btf_is_struct def = true →
       t_size def ≤ vi_size vi →
       btf_members def = Some ms →
       xdp_parse_run_config (Some btf) h = parse_members btf ms h
       ∧ ∀ m ms' n,
           ms = m :: ms' → m_name m = Some "priority" →
           member_count btf m n →
           xdp_parse_run_config (Some btf) h
           = parse_members btf ms' (xdp_program__set_run_prio h n)
           ∧ run_prio (xdp_program__set_run_prio h n) = n)
  ∧ (∀ post',
       xdp_parse_run_config
         (Some {| types :=
                    set_run_config_vars (pre ++ vi :: post') (types btf) |})
         h
       = xdp_parse_run_config (Some btf) h).
Proof.
  intros Hname Hlen Hsec Hvis Hpre Hvi.
  assert (xdp_parse_run_config (Some btf) h = parse_var btf var vi h)
    as Hfirst.
  { unfold xdp_parse_run_config, xdp_program__name. rewrite Hname.
    unfold check_snprintf. apply Nat.ltb_lt in Hlen as ->.
    simpl negb. cbv iota.
    by rewrite Hsec, Hvis, (parse_vars_first_match _ _ _ _ var). }
  split; [done|]. split.
  - intros linkage def ms Hisvar Hlink Hlinkage Hdef Hstruct Hsize Hms.
    assert (parse_var btf var vi h = parse_members btf ms h) as Hvar.
    { unfold parse_var. rewrite Hisvar, Hlink, Hdef, Hstruct, Hms. simpl.
      replace (t_size def >? vi_size vi) with false
        by (symmetry; rewrite Z.gtb_ltb; apply Z.ltb_ge; lia).
      by destruct Hlinkage as [-> | ->]. }
    rewrite Hfirst, Hvar. split; [done|].
    intros m ms' n -> Hm Hcount. split; [|done].
    apply get_field_int_count in Hcount. simpl. by rewrite Hm, Hcount.
  - intros post'. rewrite Hfirst.
    by apply (parse_run_config_first_match _ _ pname sec pre vi post).
Qed.

Lemma first_matching_variable_only_witness :
  xdp_parse_run_config (Some dup_btf) (blank_handle "foo")
  = parse_var dup_btf dup_var dup_vi (blank_handle "foo")
  ∧ (∀ linkage def ms,
       btf_is_var dup_var = true →
       btf_var_linkage dup_var = Some linkage →
       linkage = BTF_VAR_GLOBAL_ALLOCATED ∨ linkage = BTF_VAR_STATIC →
       skip_mods_and_typedefs dup_btf (t_type dup_var) = Some def →
       btf_is_struct def = true →
       t_size def ≤ vi_size dup_vi →
       btf_members def = Some ms →
       xdp_parse_run_config (Some dup_btf) (blank_handle "foo")
       = parse_members dup_btf ms (blank_handle "foo")
       ∧ ∀ m ms' n,
           ms = m :: ms' → m_name m = Some "priority" →
           member_count dup_btf m n →
           xdp_parse_run_config (Some dup_btf) (blank_handle "foo")
           = parse_members dup_btf ms'
               (xdp_program__set_run_prio (blank_handle "foo") n)
           ∧ run_prio (xdp_program__set_run_prio (blank_handle "foo") n) = n)
  ∧ (∀ post',
       xdp_parse_run_config
         (Some {| types :=
                    set_run_config_vars (dup_pre ++ dup_vi :: post')
                      (types dup_btf) |})
         (blank_handle "foo")
       = xdp_parse_run_config (Some dup_btf) (blank_handle "foo")).
Proof.
  apply (first_matching_variable_only dup_btf (blank_handle "foo") "foo"
           (ty XDP_RUN_CONFIG_SEC BTF_KIND_DATASEC 24
              (ExtraSecinfos (dup_pre ++ dup_vi :: dup_post)))
           dup_pre dup_vi dup_post dup_var).
  - reflexivity.
  - vm_compute. lia.
  - vm_compute. reflexivity.
  - reflexivity.
  - repeat constructor. eexists _, _.
    split; [vm_compute; reflexivity|]. split; [reflexivity|].
    vm_compute. discriminate.
  - split; [vm_compute; reflexivity|]. eexists.
    split; [reflexivity|]. vm_compute. reflexivity.
Defined.

(** The handle of [foo] gets the first variable's priority 15, not the
    second's 1; without the second variable the result is the same, and
    with the two variables in the other order the priority is 1. *)
Lemma duplicate_variable_example :
  xdp_parse_run_config (Some dup_btf) (blank_handle "foo")
  = Some (0, xdp_program__set_run_prio (blank_handle "foo") 15)
  ∧ xdp_parse_run_config
      (Some {| types :=
                 set_run_config_vars (dup_pre ++ [dup_vi]) (types dup_btf) |})
      (blank_handle "foo")
    = Some (0, xdp_program__set_run_prio (blank_handle "foo") 15)
  ∧ xdp_parse_run_config
      (Some {| types :=
                 set_run_config_vars (dup_pre ++ dup_post ++ [dup_vi])
                   (types dup_btf) |})
      (blank_handle "foo")
    = Some (0, xdp_program__set_run_prio (blank_handle "foo") 1).
Proof. repeat split; by vm_compute. Qed.

(** ** The comparator *)

Lemma ascii_eqb_sym c d : Ascii.eqb c d = Ascii.eqb d c.
Proof.
  destruct (Ascii.eqb_spec c d) as [->|Hne].
  - by rewrite Ascii.eqb_refl.
  - symmetry. apply Ascii.eqb_neq. congruence.
Qed.

Lemma strcmp_antisym a b : strcmp b a = - strcmp a b.
Proof.
  revert b. induction a as [|c a IH]; intros [|d b]; simpl; try lia.
  rewrite (ascii_eqb_sym d c). destruct (Ascii.eqb c d); [apply IH|lia].
Qed.

Lemma memcmp_antisym n a b : memcmp b a n = - memcmp a b n.
Proof.
  revert a b. induction n as [|n IH]; intros a b; simpl; [done|].
  rewrite (Z.eqb_sym (hd 0 b)). destruct (hd 0 a =? hd 0 b); [apply IH|lia].
Qed.

(** X9. Swapping the arguments flips the sign: the comparator is
    anti-symmetric on all handles, and where it is defined one way round it
    is defined the other way round. *)
Lemma cmp_xdp_programs_antisym a b r :
  cmp_xdp_programs a b = Some r →
  ∃ r', cmp_xdp_programs b a = Some r' ∧ Z.sgn r' = - Z.sgn r.
Proof.
  unfold cmp_xdp_programs.
  rewrite (Z.eqb_sym (run_prio b)), (Z.eqb_sym (load_time b)).
  rewrite (memcmp_antisym _ (prog_tag a) (prog_tag b)).
  destruct (prog_name a) as [na|], (prog_name b) as [nb|];
    rewrite ?(strcmp_antisym na nb);
    destruct (bpf_prog a) as [pa|], (bpf_prog b) as [pb|];
    rewrite ?(Z.eqb_sym (bpf_program__size pb));
    intros Hr;
    repeat (case_match; simplify_eq; try lia);
    eexists; (split; [reflexivity|]); lia.
Qed.

(** C1 on the code: three loaded handles of equal priority and name on which
    the comparator runs in a circle, [cyc_a] before [cyc_c] (by size),
    [cyc_c] before [cyc_b] and [cyc_b] before [cyc_a] (by tag).  The size
    key is applied to two handles that both carry a [bpf_prog], loaded or
    not, and skipped when one of them comes from a kernel id. *)
Theorem cmp_xdp_programs_cycle :
  cmp_xdp_programs cyc_a cyc_c = Some (-1)
  ∧ cmp_xdp_programs cyc_c cyc_b = Some (-1)
  ∧ cmp_xdp_programs cyc_b cyc_a = Some (-1).
Proof. by vm_compute. Qed.

Corollary cmp_xdp_programs_not_transitive :
  ¬ (∀ x y z rxy ryz rxz,
       cmp_xdp_programs x y = Some rxy → cmp_xdp_programs y z = Some ryz →
       cmp_xdp_programs x z = Some rxz →
       rxy < 0 → ryz < 0 → rxz < 0).
Proof.
  intros Htrans.
  assert (cmp_xdp_programs cyc_a cyc_c = Some (-1)) as Hac by by vm_compute.
  assert (cmp_xdp_programs cyc_c cyc_b = Some (-1)) as Hcb by by vm_compute.
  assert (cmp_xdp_programs cyc_a cyc_b = Some 1) as Hab by by vm_compute.
  specialize (Htrans cyc_a cyc_c cyc_b (-1) (-1) 1 Hac Hcb Hab). lia.
Qed.

(** With the size key limited to two unloaded handles, as the comment in
    the source and the specification have it, the three are ordered
    [cyc_c], [cyc_b], [cyc_a] by tag. *)
Lemma spec_cmp_on_cycle :
  spec_cmp cyc_c cyc_b = Some (-1)
  ∧ spec_cmp cyc_b cyc_a = Some (-1)
  ∧ spec_cmp cyc_c cyc_a = Some (-2).
Proof. by vm_compute. Qed.

(** ** The attacher *)

Section AttachProperties.
Context `{externals}.

Lemma set_link_xdp_force fd ifindex mode w :
  let log := w_xdp_log w in
  let first := xcall ifindex fd (mode_flags mode) in
  let detach := xcall ifindex (-1) (opposite_mode_flags mode) in
  let r1 := w_xdp_reply w (log ++ [first]) in
  let r2 := w_xdp_reply w (log ++ [first; detach]) in
  let r3 := w_xdp_reply w (log ++ [first; detach; first]) in
  set_link_xdp fd ifindex true mode w =
    if r1 =? - EEXIST then
      if r2 =? 0 then
        Some (attach_result r3 fd,
              set_w_xdp_log (log ++ [first; detach; first]) w)
      else
        Some (attach_result r2 fd, set_w_xdp_log (log ++ [first; detach]) w)
    else Some (attach_result r1 fd, set_w_xdp_log (log ++ [first]) w).
Proof.
  intros log first detach r1 r2 r3.
  unfold set_link_xdp, mbind, M_bind, bind, bpf_set_link_xdp_fd.
  assert (Z.lor 0 (mode_flags mode) = mode_flags mode) as -> by done.
  assert ((Z.land (mode_flags mode) XDP_FLAGS_UPDATE_IF_NOEXIST =? 0) = true)
    as Hno by by destruct mode.
  assert (Z.lor (Z.land (mode_flags mode) (Z.lnot XDP_FLAGS_MODES))
            (if is_skb_mode mode then XDP_FLAGS_DRV_MODE
             else XDP_FLAGS_SKB_MODE) = opposite_mode_flags mode)
    as Hopp by by destruct mode.
  cbn [negb]. cbv zeta. fold (xcall ifindex fd (mode_flags mode)).
  fold first log. fold r1. rewrite Hno, andb_true_r.
  destruct (r1 =? - EEXIST);
    [|unfold ret, attach_result; by destruct (r1 <? 0)].
  rewrite Hopp. fold (xcall ifindex (-1) (opposite_mode_flags mode)).
  fold detach. cbn [w_xdp_log w_xdp_reply set_w_xdp_log].
  rewrite <- !app_assoc. cbn [app]. fold log r2.
  destruct (r2 =? 0);
    [|unfold ret, attach_result; by destruct (r2 <? 0)].
  cbn [w_xdp_log w_xdp_reply set_w_xdp_log].
  rewrite <- !app_assoc. cbn [app]. fold r3.
  unfold ret, attach_result. by destruct (r3 <? 0).
Qed.

Lemma set_link_xdp_no_force fd ifindex mode w :
  let guarded :=
    xcall ifindex fd (Z.lor (mode_flags mode) XDP_FLAGS_UPDATE_IF_NOEXIST) in
  let log := (w_xdp_log w ++ [guarded])%list in
  set_link_xdp fd ifindex false mode w =
    Some (attach_result (w_xdp_reply w log) fd, set_w_xdp_log log w).
Proof.
  intros guarded log.
  unfold set_link_xdp, mbind, M_bind, bind, bpf_set_link_xdp_fd.
  assert (Z.lor 0 (mode_flags mode) = mode_flags mode) as -> by done.
  assert ((Z.land (Z.lor (mode_flags mode) XDP_FLAGS_UPDATE_IF_NOEXIST)
             XDP_FLAGS_UPDATE_IF_NOEXIST =? 0) = false)
    as Hno by by destruct mode.
  cbn [negb]. cbv zeta. rewrite Hno, andb_false_r.
  unfold ret, attach_result. subst guarded log. unfold xcall.
  by destruct (_ <? 0).
Qed.

(** C8. An empty handle array: the result is [-EINVAL] and the call is a
    pure return, so no system call is made and the process, the file
    system and the kernel are as before. *)
Theorem attach_empty_is_einval ifindex force mode :
  xdp_attach_programs [] ifindex force mode = ret (- EINVAL, [])
  ∧ ∀ w, xdp_attach_programs [] ifindex force mode w
         = Some ((- EINVAL, []), w).
Proof. split; [reflexivity|]. intros w. reflexivity. Qed.

End AttachProperties.


(** ** Handle lifecycle *)

Lemma close_spec fd w :
  ∃ r e, close fd w = Some (r, set_w_errno e
                                 (set_w_fds (delete fd (w_fds w)) w)).
Proof.
  unfold close, sys_fail. destruct (w_fds w !! fd) eqn:Hfd.
  - by exists 0, (w_errno w).
  - exists (-1), EBADF. by rewrite delete_id.
Qed.

Ltac run_closes :=
  repeat first
    [ progress cbn [ret free modify]
    | match goal with
      | |- context [close ?fd ?w] =>
          destruct (close_spec fd w) as (? & ? & ->)
      end ].

Lemma from_bpf_obj_example :
  (obj ← bpf_object__open_file "foo.o";
   match obj with
   | inr obj => xdp_program__from_bpf_obj obj None
   | inl err => ret (inl err)
   end) world0 = Some (inr external_handle, world_foo).
Proof. vm_compute. reflexivity. Qed.

Lemma free_external h w :
  from_external_obj h = true →
  ∃ w', xdp_program__free h w = Some (tt, w')
    ∧ w_objs w' = w_objs w ∧ w_btfs w' = w_btfs w
    ∧ w_fds w' = closed_fds h (w_fds w)
    ∧ w_nalloc w' = w_nalloc w - freed_strings h
    ∧ w_fs w' = w_fs w.
Proof.
  intros Hext. unfold xdp_program__free, closed_fds, freed_strings.
  rewrite Hext. unfold mbind, M_bind, bind. cbn [negb].
  destruct (link_fd h >=? 0), (prog_fd h >=? 0),
    (link_pin_path h), (prog_name h);
    run_closes; eexists; (split; [reflexivity|]); cbn; repeat split; lia.
Qed.

(** C9. Freeing a handle whose source object is external closes the
    handle's descriptors and frees its two strings and nothing else: the
    live source objects and type-information views are as before.  A free
    that does remove a source object or a view is the free of a handle that
    owns it; and the free of an owning handle removes its source object
    together with the view the object holds. *)
Theorem free_respects_ownership h w :
  (from_external_obj h = true →
     ∃ w', xdp_program__free h w = Some (tt, w')
       ∧ w_objs w' = w_objs w ∧ w_btfs w' = w_btfs w
       ∧ w_fds w' = closed_fds h (w_fds w)
       ∧ w_nalloc w' = w_nalloc w - freed_strings h
       ∧ w_fs w' = w_fs w)
  ∧ (∀ w', xdp_program__free h w = Some (tt, w') →
       w_objs w' ≠ w_objs w ∨ w_btfs w' ≠ w_btfs w →
       from_external_obj h = false)
  ∧ (from_external_obj h = false →
     ∀ obj o view b,
       bpf_obj h = Some obj → w_objs w !! obj = Some o →
       o_btf o = Some view → w_btfs w !! view = Some b →
       ∃ w', xdp_program__free h w = Some (tt, w')
         ∧ w_objs w' = delete obj (w_objs w)
         ∧ w_btfs w' = delete view (w_btfs w)).
Proof.
  split; [apply free_external|]. split.
  - intros w' Hfree Hchanged.
    destruct (from_external_obj h) eqn:Hext; [|done].
    destruct (free_external h w Hext) as (w'' & Hfree' & Hobjs & Hbtfs & _).
    rewrite Hfree in Hfree'. injection Hfree' as <-. by destruct Hchanged.
  - intros Hown obj o view b Hobj Ho Hview Hb.
    unfold xdp_program__free. rewrite Hown, Hobj.
    unfold mbind, M_bind, bind. cbn [negb].
    destruct (link_fd h >=? 0), (prog_fd h >=? 0),
      (link_pin_path h), (prog_name h);
      run_closes; unfold bpf_object__close; cbn; rewrite Ho;
      unfold mbind, M_bind, bind, btf__free, modify; rewrite Hview; cbn;
      rewrite Hb; by eexists.
Qed.

Lemma free_respects_ownership_witness :
  ∃ w', xdp_program__free external_handle world_foo = Some (tt, w')
    ∧ w_objs w' = w_objs world_foo ∧ w_btfs w' = w_btfs world_foo
    ∧ w_fds w' = closed_fds external_handle (w_fds world_foo)
    ∧ w_nalloc w' = w_nalloc world_foo - freed_strings external_handle
    ∧ w_fs w' = w_fs world_foo.
Proof.
  apply (proj1 (free_respects_ownership external_handle world_foo)).
  reflexivity.
Defined.

(** ** Factories *)

(** C2 on the code: the program of kernel id 21 carries a run config with
    an unknown member.  [xdp_program__from_id] returns the parser's error
    and leaves descriptor 3 open on the program, the copy of the name
    allocated and the fetched type information alive: its error path only
    frees the handle structure. *)
Theorem from_id_leaks_descriptor :
  ∃ w', xdp_program__from_id 21 world0 = Some (inl (- EOPNOTSUPP), w')
    ∧ w_fds world0 !! 3 = None
    ∧ w_fds w' = <[3 := FdProg 21]> (w_fds world0)
    ∧ size (w_fds w') = S (size (w_fds world0))
    ∧ w_nalloc w' = w_nalloc world0 + 1
    ∧ w_btfs world0 = ∅
    ∧ w_btfs w' = {[ 1%N := bogus_btf ]}.
Proof.
  eexists. split; [vm_compute; reflexivity|].
  repeat split; by vm_compute.
Qed.

(** The sibling factory does release the descriptors on the same input:
    [xdp_program__from_bpf_obj] goes through [xdp_program__free]. *)
Lemma from_bpf_obj_closes_on_error :
  ∃ w', (obj ← bpf_object__open_file "bogus.o";
         match obj with
         | inr obj => xdp_program__from_bpf_obj obj None
         | inl err => ret (inl err)
         end) world0 = Some (inl (- EOPNOTSUPP), w')
    ∧ w_fds w' = w_fds world0.
Proof. eexists. split; [vm_compute; reflexivity|]. by vm_compute. Qed.

(** On the same artifact [xdp_program__open_file] closes the source object
    twice, in [xdp_program__free] and again in its own error path. *)
Lemma open_file_closes_twice :
  xdp_program__open_file "bogus.o" None world0 = None.
Proof. by vm_compute. Qed.

(** ** Descriptors and paths *)

Lemma lowest_free_spec fuel n (fds : gmap Z fdesc) :
  fds !! lowest_free fuel n fds = None
  ∨ (lowest_free fuel n fds = n + Z.of_nat fuel
     ∧ ∀ k, n ≤ k < n + Z.of_nat fuel → is_Some (fds !! k)).
Proof.
  revert n. induction fuel as [|fuel IH]; intros n; simpl.
  - right. split; [lia|]. intros k Hk. lia.
  - destruct (fds !! n) as [d|] eqn:Hn; [|by left].
    destruct (IH (n + 1)) as [Hfree|[Heq Hall]]; [by left|right].
    split; [lia|]. intros k Hk.
    destruct (decide (k = n)) as [->|Hne]; [by rewrite Hn|].
    apply Hall. lia.
Qed.

Lemma lowest_free_ge fuel n (fds : gmap Z fdesc) :
  n ≤ lowest_free fuel n fds.
Proof.
  revert n. induction fuel as [|fuel IH]; intros n; simpl; [lia|].
  destruct (fds !! n); [|lia]. specialize (IH (n + 1)). lia.
Qed.

(** The descriptor [alloc_fd] picks is not in use (there are more candidates
    than descriptors in the table) and is not negative. *)
Lemma alloc_fd_fresh (fds : gmap Z fdesc) : fds !! alloc_fd fds = None.
Proof.
  unfold alloc_fd.
  destruct (lowest_free_spec (size fds) 0 fds) as [Hfree|[Heq Hall]];
    [done|].
  destruct (fds !! lowest_free (size fds) 0 fds) as [d|] eqn:Hd; [|done].
  exfalso. rewrite Heq in Hd.
  set (X := list_to_set (Z.of_nat <$> seq 0 (S (size fds))) : gset Z).
  assert (X ⊆ dom fds) as Hsub.
  { intros k Hk. apply elem_of_list_to_set, list_elem_of_fmap in Hk
      as (j & -> & Hj).
    apply elem_of_seq in Hj. apply elem_of_dom.
    destruct (decide (j = size fds)) as [->|Hne].
    - rewrite Z.add_0_l in Hd. by rewrite Hd.
    - apply Hall. lia. }
  apply subseteq_size in Hsub. rewrite size_dom in Hsub.
  assert (size X = S (size fds)) as HX.
  { unfold X. rewrite size_list_to_set.
    - by rewrite length_fmap, length_seq.
    - apply NoDup_fmap; [apply _|apply NoDup_seq]. }
  lia.
Qed.

Lemma alloc_fd_nonneg (fds : gmap Z fdesc) : (alloc_fd fds <? 0) = false.
Proof. apply Z.ltb_ge, lowest_free_ge. Qed.

Lemma string_app_cons c a b : String c a +:+ b = String c (a +:+ b).
Proof. reflexivity. Qed.

Lemma string_app_inj p a b : p +:+ a = p +:+ b → a = b.
Proof. induction p as [|c p IH]; simpl; [done|]. intros [= Heq]. auto. Qed.

Lemma string_app_length a b :
  String.length (a +:+ b) = (String.length a + String.length b)%nat.
Proof. induction a as [|c a IH]; simpl; [done|]. by rewrite IH. Qed.

(** A path is not one of its own entries. *)
Lemma path_ne_entry p e : p ≠ p +:+ "/" +:+ e.
Proof.
  intros Heq. apply (f_equal String.length) in Heq.
  rewrite string_app_length in Heq. simpl in Heq. lia.
Qed.

Lemma strip_prefix_app p s : strip_prefix p (p +:+ s) = Some s.
Proof.
  induction p as [|c p IH]; simpl; [done|]. by rewrite Ascii.eqb_refl.
Qed.

Lemma strip_prefix_Some p k s : strip_prefix p k = Some s → k = p +:+ s.
Proof.
  revert k. induction p as [|c p IH]; intros k; simpl; [by intros [= ->]|].
  destruct k as [|d k]; [done|].
  destruct (Ascii.eqb_spec c d) as [->|]; [|done].
  intros Hk. rewrite string_app_cons. f_equal. by apply IH.
Qed.

Lemma string_app_assoc a b c : (a +:+ b) +:+ c = a +:+ b +:+ c.
Proof.
  induction a as [|x a IH]; [done|]. by rewrite !string_app_cons, IH.
Qed.

Lemma entry_name_Some dir k e :
  entry_name dir k = Some e ↔
  k = dir +:+ "/" +:+ e ∧ has_slash e = false ∧ e ≠ "".
Proof.
  unfold entry_name. split.
  - destruct (strip_prefix _ _) as [e'|] eqn:Hstrip; [|done].
    apply strip_prefix_Some in Hstrip. rewrite string_app_assoc in Hstrip.
    destruct (has_slash e') eqn:Hslash; [done|].
    destruct e'; [done|]. by intros [= <-].
  - intros (-> & Hslash & Hne).
    rewrite <- string_app_assoc, strip_prefix_app, Hslash.
    by destruct e.
Qed.

Lemma has_slash_app a b : has_slash (a +:+ b) = has_slash a || has_slash b.
Proof.
  induction a as [|c a IH]; [done|].
  rewrite string_app_cons. simpl. by rewrite IH, orb_assoc.
Qed.

Lemma dirname_no_slash e : has_slash e = false → dirname e = None.
Proof.
  induction e as [|c e IH]; simpl; [done|].
  intros [Hc He]%orb_false_elim. by rewrite IH, Hc.
Qed.

Lemma dirname_entry p e :
  has_slash e = false → dirname (p +:+ "/" +:+ e) = Some p.
Proof.
  intros He. induction p as [|c p IH].
  - change ("" +:+ "/" +:+ e) with (String "/" e). simpl.
    by rewrite dirname_no_slash.
  - rewrite string_app_cons. simpl. by rewrite IH.
Qed.

Lemma pretty_N_go_no_slash x s :
  has_slash s = false → has_slash (pretty_N_go x s) = false.
Proof.
  revert s. induction (N.lt_wf_0 x) as [x _ IH]; intros s Hs.
  destruct (decide (x = 0)%N) as [->|Hx]; [by rewrite pretty_N_go_0|].
  rewrite pretty_N_go_step by lia. apply IH.
  - apply N.div_lt; lia.
  - simpl. rewrite Hs, orb_false_r. unfold pretty_N_char.
    by repeat case_match.
Qed.

Lemma fmt_d_no_slash x : has_slash (fmt_d x) = false.
Proof.
  unfold fmt_d. generalize (if u32 x <? 2 ^ 31 then u32 x else u32 x - 2 ^ 32).
  intros [|p|p]; unfold pretty, pretty_Z; [done|..];
    unfold pretty, pretty_positive, pretty, pretty_N;
    case_decide; try done; rewrite ?has_slash_app;
    by rewrite pretty_N_go_no_slash.
Qed.

(** The entries a directory lists are those of the file system under it. *)
Lemma elem_of_dir_entries fs dir e :
  e ∈ dir_entries fs dir ↔
  is_Some (fs !! (dir +:+ "/" +:+ e)) ∧ has_slash e = false ∧ e ≠ "".
Proof.
  unfold dir_entries. rewrite list_elem_of_omap. split.
  - intros (k & Hk & He). apply entry_name_Some in He as (-> & ? & ?).
    apply list_elem_of_fmap in Hk as ([k' n] & -> & Hk).
    apply elem_of_map_to_list in Hk. simpl. by rewrite Hk.
  - intros ([n Hn] & ? & ?). exists (dir +:+ "/" +:+ e). split.
    + apply list_elem_of_fmap. exists (dir +:+ "/" +:+ e, n).
      split; [done|]. by apply elem_of_map_to_list.
    + by apply entry_name_Some.
Qed.

Lemma NoDup_dir_entries fs dir : NoDup (dir_entries fs dir).
Proof.
  unfold dir_entries.
  assert (NoDup (map fst (map_to_list fs))) as Hks
    by apply NoDup_fst_map_to_list.
  revert Hks. generalize (map fst (map_to_list fs)). intros l Hl. induction Hl as [|k ks Hk _ IH]; simpl; [constructor|].
  destruct (entry_name dir k) as [e|] eqn:He; [|done].
  constructor; [|done]. intros Hin.
  apply list_elem_of_omap in Hin as (k' & Hk' & He').
  apply entry_name_Some in He as (-> & _), He' as (-> & _). done.
Qed.

(** ** Pin store *)

(** The unwind of [pin_multiprog] when the first handle is linked and the
    second is not.  The pin fails with
    [-EINVAL] after it has pinned the first link; the unwind calls [unlink]
    on the handle's [link_pin_path], which holds the directory and not the
    link file, so the call fails ([EISDIR]) and the link file and the
    directory both remain, though neither existed before the call.  The
    handle's [link_pin_path] is cleared all the same. *)
Lemma pin_unwind_leaves_link :
  ∃ progs' w',
    pin_multiprog 3 [linked_handle; unlinked_handle] world_links
      = Some ((- EINVAL, progs'), w')
    ∧ w_fs world_links !! "/sys/fs/bpf/xdp/dispatch-7" = None
    ∧ w_fs world_links !! "/sys/fs/bpf/xdp/dispatch-7/link-prog0" = None
    ∧ w_fs w' !! "/sys/fs/bpf/xdp/dispatch-7" = Some Dir
    ∧ w_fs w' !! "/sys/fs/bpf/xdp/dispatch-7/link-prog0"
      = Some (Pinned (FdLink 21))
    ∧ w_errno w' = EISDIR
    ∧ link_pin_path <$> progs' = [None; None].
Proof.
  eexists _, _. split; [vm_compute; reflexivity|].
  repeat split; by vm_compute.
Qed.

(** ** Steps of pin and unpin *)

Lemma world_eta w : set_w_errno (w_errno w) (set_w_fs (w_fs w) w) = w.
Proof. by destruct w. Qed.

Lemma get_bpffs_dir_cached w dir :
  w_dir_cache w = Some dir → get_bpffs_dir w = Some (inr dir, w).
Proof.
  intros Hdir. unfold get_bpffs_dir, mbind, M_bind, bind, get_world.
  by rewrite Hdir.
Qed.

Lemma mkdir_inv path w e w2 :
  mkdir path w = Some (e, w2) →
  (e = 0 ∧ w_fs w !! path = None
   ∧ w2 = set_w_fs (<[path := Dir]> (w_fs w)) w)
  ∨ (e = -1 ∧ is_Some (w_fs w !! path) ∧ w2 = set_w_errno EEXIST w)
  ∨ (e = -1 ∧ w2 = set_w_errno ENOENT w).
Proof.
  unfold mkdir, sys_fail. intros Hrun.
  destruct (w_fs w !! path) eqn:Hp.
  - injection Hrun as <- <-. right; left. eauto.
  - destruct (parent_is_dir (w_fs w) path); injection Hrun as <- <-.
    + by left.
    + right; right. done.
Qed.

Lemma find_bpffs_frame w r w' :
  find_bpffs w = Some (r, w') →
  w_fds w' = w_fds w ∧ w_kprogs w' = w_kprogs w ∧ w_fs w' = w_fs w
  ∧ w_dir_cache w' = w_dir_cache w.
Proof.
  unfold find_bpffs, bpf_find_mntpt_single, bpf_is_valid_mntpt, statfs,
    get_world, modify, mbind, M_bind, bind, ret.
  destruct (w_mnt_cache w); [by intros [= <- <-]|].
  destruct (PATH_MAX <=? _)%nat; [by intros [= <- <-]|].
  destruct (w_statfs w !! _) as [f_type|]; [|by intros [= <- <-]].
  destruct (f_type =? BPF_FS_MAGIC); by intros [= <- <-].
Qed.

(** What [get_bpffs_dir] does to the world: on success the directory is in
    the cache, and the only entry it can have added is the directory. *)
Lemma get_bpffs_dir_inv w r w' :
  get_bpffs_dir w = Some (r, w') →
  w_fds w' = w_fds w ∧ w_kprogs w' = w_kprogs w
  ∧ match r with
    | inl err => err ≠ 0
    | inr dir =>
        w_dir_cache w' = Some dir
        ∧ ∀ k, w_fs w' !! k = w_fs w !! k ∨ k = dir
    end.
Proof.
  unfold get_bpffs_dir, mbind, M_bind, bind, get_world.
  destruct (w_dir_cache w) as [dir|] eqn:Hcache.
  { intros [= <- <-]. repeat split; try done. intros k. by left. }
  destruct (find_bpffs w) as [[parent wf]|] eqn:Hfind; [|done].
  apply find_bpffs_frame in Hfind as (Hfds & Hkprogs & Hfs & _).
  destruct parent as [parent|]; [|by intros [= <- <-]].
  destruct (check_snprintf PATH_MAX (parent +:+ "/xdp") =? 0) eqn:Hcheck;
    cbn [negb].
  2: { intros [= <- <-]. apply Z.eqb_neq in Hcheck. done. }
  destruct (mkdir (parent +:+ "/xdp") wf) as [[e wm]|] eqn:Hmkdir; [|done].
  unfold get_errno, modify, ret.
  apply mkdir_inv in Hmkdir
    as [(-> & Hnone & ->)|[(-> & Hsome & ->)|(-> & ->)]];
    cbn [Z.eqb negb andb w_errno set_w_errno set_w_fs].
  - intros [= <- <-]. repeat split; try done. intros k. cbn.
    destruct (decide (k = parent +:+ "/xdp")) as [->|Hne]; [by right|].
    left. by rewrite lookup_insert_ne, Hfs.
  - change (EEXIST =? EEXIST) with true. cbn [negb andb].
    intros [= <- <-]. repeat split; try done. intros k. left. cbn.
    by rewrite Hfs.
  - change (ENOENT =? EEXIST) with false. cbn [negb andb].
    by intros [= <- <-].
Qed.

Lemma bpf_obj_get_info_by_fd_inv fd w err info w' :
  bpf_obj_get_info_by_fd fd w = Some ((err, info), w') →
  (err = 0 ∧ w' = w
   ∧ ∃ id, w_fds w !! fd = Some (FdProg id) ∧ w_kprogs w !! id = Some info)
  ∨ err ≠ 0.
Proof.
  unfold bpf_obj_get_info_by_fd. intros Hrun.
  repeat (case_match; simplify_eq); try (by right).
  left. repeat split; eauto.
Qed.

Lemma bpf_obj_get_info_by_fd_prog fd w id info :
  w_fds w !! fd = Some (FdProg id) → w_kprogs w !! id = Some info →
  bpf_obj_get_info_by_fd fd w = Some ((0, info), w).
Proof. intros Hfd Hid. unfold bpf_obj_get_info_by_fd. by rewrite Hfd, Hid. Qed.

(** ** The lock *)

Lemma after_flock_fields w :
  w_fds (after_flock w) = w_fds w ∧ w_fs (after_flock w) = w_fs w
  ∧ w_dir_cache (after_flock w) = w_dir_cache w
  ∧ w_kprogs (after_flock w) = w_kprogs w
  ∧ w_dirent_rank (after_flock w) = w_dirent_rank w
  ∧ w_malloc_left (after_flock w) = w_malloc_left w
  ∧ w_nalloc (after_flock w) = w_nalloc w
  ∧ w_flock (after_flock w) = tail (w_flock w).
Proof. unfold after_flock. by destruct (flock_answer w). Qed.

Lemma after_flock_fds w : w_fds (after_flock w) = w_fds w.
Proof. apply after_flock_fields. Qed.

Lemma after_flock_fs w : w_fs (after_flock w) = w_fs w.
Proof. apply after_flock_fields. Qed.

Lemma after_flock_dir_cache w : w_dir_cache (after_flock w) = w_dir_cache w.
Proof. apply after_flock_fields. Qed.

Lemma after_flock_kprogs w : w_kprogs (after_flock w) = w_kprogs w.
Proof. apply after_flock_fields. Qed.

Lemma after_flock_rank w : w_dirent_rank (after_flock w) = w_dirent_rank w.
Proof. apply after_flock_fields. Qed.

Lemma after_flock_set_fds fds w :
  after_flock (set_w_fds fds w) = set_w_fds fds (after_flock w).
Proof. unfold after_flock, flock_answer. cbn. by case_match. Qed.

Lemma flock_answer_set_fds fds w :
  flock_answer (set_w_fds fds w) = flock_answer w.
Proof. done. Qed.

Lemma after_flock_errno w :
  flock_answer w ≠ 0%N → w_errno (after_flock w) = Z.of_N (flock_answer w).
Proof. unfold after_flock. by destruct (flock_answer w). Qed.

(** [flock] on an open descriptor returns what the kernel answers. *)
Lemma flock_open fd op w d :
  w_fds w !! fd = Some d →
  flock fd op w
  = Some (if decide (flock_answer w = 0%N) then 0 else -1, after_flock w).
Proof.
  intros Hfd. unfold flock, after_flock, flock_answer, sys_fail.
  rewrite Hfd. by destruct (w_flock w) as [|[|p] l].
Qed.

Lemma flock_error_negative w :
  flock_answer w ≠ 0%N → (- Z.of_N (flock_answer w) <? 0) = true.
Proof. intros Hne. apply Z.ltb_lt. lia. Qed.

(** Taking the lock once the library directory is known: the lowest free
    descriptor is opened on it; when the kernel refuses the lock, the
    descriptor is closed again and the refusal is the result. *)
Lemma xdp_lock_acquire_cached w dir :
  w_dir_cache w = Some dir →
  xdp_lock_acquire w =
    match w_fs w !! dir with
    | Some Dir =>
        if decide (flock_answer w = 0%N) then
          Some (alloc_fd (w_fds w),
                set_w_fds (<[alloc_fd (w_fds w) := FdDir dir]> (w_fds w))
                  (after_flock w))
        else Some (- Z.of_N (flock_answer w), after_flock w)
    | Some (Pinned _) => Some (- ENOTDIR, set_w_errno ENOTDIR w)
    | None => Some (- ENOENT, set_w_errno ENOENT w)
    end.
Proof.
  intros Hdir. unfold xdp_lock_acquire, mbind, M_bind, bind.
  rewrite (get_bpffs_dir_cached _ dir) by done.
  unfold open_directory, install_fd, sys_fail.
  destruct (w_fs w !! dir) as [[|o]|]; try done.
  rewrite alloc_fd_nonneg.
  rewrite (flock_open _ _ _ (FdDir dir)) by apply lookup_insert_eq.
  rewrite after_flock_set_fds, flock_answer_set_fds.
  destruct (decide (flock_answer w = 0%N)) as [Hok|Hne]; cbn [Z.eqb negb].
  - done.
  - unfold get_errno, close, ret. cbn [w_errno w_fds set_w_fds].
    rewrite lookup_insert_eq, delete_insert_id by apply alloc_fd_fresh.
    rewrite after_flock_errno by done. f_equal. f_equal.
    rewrite <- (after_flock_fds w) at 1. by destruct (after_flock w).
Qed.

(** Releasing the lock closes the descriptor whatever the kernel answers to
    the unlock, and returns that answer. *)
Lemma xdp_lock_release_open w fd d :
  w_fds w !! fd = Some d →
  xdp_lock_release fd w
  = Some (- Z.of_N (flock_answer w),
          set_w_fds (delete fd (w_fds w)) (after_flock w)).
Proof.
  intros Hfd. unfold xdp_lock_release, mbind, M_bind, bind.
  rewrite (flock_open _ _ _ d) by done. unfold get_errno, close.
  rewrite after_flock_fds, Hfd.
  destruct (decide (flock_answer w = 0%N)) as [Hok|Hne]; cbn [Z.eqb negb].
  - by rewrite Hok.
  - by rewrite after_flock_errno.
Qed.

Lemma link_name_no_slash i : has_slash (link_name i) = false.
Proof.
  unfold link_name. rewrite has_slash_app, fmt_d_no_slash. by vm_compute.
Qed.

Lemma link_path_eq path i :
  path +:+ "/link-prog" +:+ fmt_d (Z.of_nat i) = path +:+ "/" +:+ link_name i.
Proof. reflexivity. Qed.

Lemma link_name_not_dot i :
  (strcmp "." (link_name i) =? 0) || (strcmp ".." (link_name i) =? 0) = false.
Proof.
  unfold link_name. change ("link-prog" +:+ ?x) with (String "l" ("ink-prog" +:+ x)).
  reflexivity.
Qed.

Lemma pins_added_refl path fs : pins_added path fs fs.
Proof. intros k. by left. Qed.

Lemma bpf_obj_pin_inv fd buf w e w2 :
  bpf_obj_pin fd buf w = Some (e, w2) →
  (e = 0 ∧ ∃ obj, w_fs w !! buf = None ∧ parent_is_dir (w_fs w) buf = true
     ∧ w2 = set_w_fs (<[buf := Pinned obj]> (w_fs w)) w)
  ∨ e ≠ 0.
Proof.
  unfold bpf_obj_pin, sys_fail. intros Hrun.
  repeat (case_match; simplify_eq); try (by right); left; eauto.
Qed.

Lemma parent_is_dir_entry fs path e :
  path ≠ "" → has_slash e = false →
  parent_is_dir fs (path +:+ "/" +:+ e) = true → fs !! path = Some Dir.
Proof.
  intros Hpath He. unfold parent_is_dir. rewrite dirname_entry by done.
  destruct path; [done|]. by repeat case_match.
Qed.

(** A run of the pin loop that leaves through [goto err_unpin] carries an
    error; one that runs to its end has pinned link files under [path] and
    changed nothing else of the file system, the descriptors or the caches. *)
Lemma pin_loop_inv n i path err progs w r unwind progs' w' :
  path ≠ "" →
  pin_loop n i path err progs w = Some ((r, unwind, progs'), w') →
  match unwind with
  | Some _ => r ≠ 0
  | None =>
      w_fds w' = w_fds w ∧ w_kprogs w' = w_kprogs w
      ∧ w_dir_cache w' = w_dir_cache w
      ∧ pins_added path (w_fs w) (w_fs w')
      ∧ (n = 0%nat → r = err)
      ∧ (n ≠ 0%nat → r = 0 ∧ w_fs w !! path = Some Dir)
  end.
Proof.
  intros Hpath. revert i err progs w.
  induction n as [|n IH]; intros i err progs w; simpl.
  - intros [= <- <- <- <-]. repeat split; try done. apply pins_added_refl.
  - destruct (progs !! i) as [prog|]; [|by unfold fault].
    destruct (link_fd prog <? 0); [by intros [= <- <- <- <-]|].
    rewrite link_path_eq. set (buf := path +:+ "/" +:+ link_name i).
    destruct (check_snprintf PATH_MAX buf =? 0) eqn:Hcheck; cbn [negb].
    2: { intros [= <- <- <- <-]. by apply Z.eqb_neq. }
    apply Z.eqb_eq in Hcheck.
    unfold mbind, M_bind, bind.
    destruct (bpf_obj_pin (link_fd prog) buf w) as [[e w2]|] eqn:Hpin;
      [|done].
    apply bpf_obj_pin_inv in Hpin
      as [(-> & obj & Hfree & Hparent & ->)|Hne].
    2: { apply Z.eqb_neq in Hne as Hne'. rewrite Hne'.
         by intros [= <- <- <- <-]. }
    cbn [Z.eqb negb]. unfold strdup, malloc, mbind, M_bind, bind.
    destruct (malloc_succeeds _); cbn [ret].
    2: { destruct (unlink path _) as [[? ?]|]; [|done].
         by intros [= <- <- <- <-]. }
    intros Hrun. apply IH in Hrun. destruct unwind; [done|].
    destruct Hrun as (Hfds & Hkprogs & Hcache & Hfs & Hzero & Hnonzero).
    repeat split; try done.
    + intros k. destruct (Hfs k) as [Hk|(Hk & j & o & -> & Ho & Hfit)].
      * rewrite Hk. cbn.
        destruct (decide (k = buf)) as [->|Hkne];
          [|left; by rewrite lookup_insert_ne].
        right. split; [done|]. exists i, obj.
        by rewrite lookup_insert_eq.
      * cbn in Hk. right.
        destruct (decide (path +:+ "/" +:+ link_name j = buf)) as [Heq|Hkne].
        { by rewrite Heq, lookup_insert_eq in Hk. }
        rewrite lookup_insert_ne in Hk by done. split; [done|]. eauto.
    + destruct n; [by apply Hzero|]. by apply Hnonzero.
    + by eapply parent_is_dir_entry, Hparent; [|apply link_name_no_slash].
Qed.

Lemma dispatch_path_eq dir id :
  dir +:+ "/dispatch-" +:+ fmt_d id = dir +:+ "/" +:+ dispatch_name id.
Proof. reflexivity. Qed.

Lemma entry_path_nonempty p e : p +:+ "/" +:+ e ≠ "".
Proof.
  intros Heq. apply (f_equal String.length) in Heq.
  rewrite !string_app_length in Heq. simpl in Heq. lia.
Qed.

Ltac absurd_result :=
  let H := fresh in
  intros H; injection H; intros; first [done | congruence | lia].

(** What a successful pin leaves behind. *)
Lemma pin_multiprog_success dfd progs w progs1 w1 :
  pin_multiprog dfd progs w = Some ((0, progs1), w1) →
  ∃ dir id info,
    let path := dir +:+ "/" +:+ dispatch_name (info_id info) in
    w_dir_cache w1 = Some dir ∧ w_fs w1 !! dir = Some Dir
    ∧ w_fds w1 = w_fds w ∧ w_kprogs w1 = w_kprogs w
    ∧ w_fds w !! dfd = Some (FdProg id) ∧ w_kprogs w !! id = Some info
    ∧ check_snprintf PATH_MAX path = 0
    ∧ w_fs w1 !! path = Some Dir
    ∧ ∀ k, w_fs w1 !! k = w_fs w !! k ∨ k = dir ∨ k = path
           ∨ ∃ i o, k = path +:+ "/" +:+ link_name i
                    ∧ w_fs w1 !! k = Some (Pinned o)
                    ∧ check_snprintf PATH_MAX k = 0.
Proof.
  unfold pin_multiprog, mbind, M_bind, bind.
  destruct (get_bpffs_dir w) as [[[err|dir] wa]|] eqn:Hdir; [| |done].
  { apply get_bpffs_dir_inv in Hdir as (_ & _ & Hne). absurd_result. }
  apply get_bpffs_dir_inv in Hdir as (Hfds & Hkprogs & Hcache & Hfsa).
  destruct (bpf_obj_get_info_by_fd dfd wa) as [[[e info] wb]|] eqn:Hinfo;
    [|done].
  apply bpf_obj_get_info_by_fd_inv in Hinfo
    as [(-> & -> & id & Hfd & Hid)|Hne].
  2: { apply Z.eqb_neq in Hne as Hne'. rewrite Hne'. cbn [negb].
       absurd_result. }
  cbn [Z.eqb negb]. rewrite (xdp_lock_acquire_cached _ dir) by done.
  destruct (w_fs wa !! dir) as [[|o]|] eqn:Hdirnode; [|done..].
  destruct (decide (flock_answer wa = 0%N)) as [Hgrant|Hrefuse].
  2: { rewrite flock_error_negative by done. absurd_result. }
  rewrite alloc_fd_nonneg, dispatch_path_eq.
  set (lock := alloc_fd (w_fds wa)).
  set (path := dir +:+ "/" +:+ dispatch_name (info_id info)).
  set (wl := set_w_fds _ (after_flock wa)).
  assert (w_fds wl = <[lock := FdDir dir]> (w_fds wa)) as Hfdsl by done.
  assert (w_fs wl = w_fs wa) as Hfsl by apply after_flock_fs.
  assert (w_kprogs wl = w_kprogs wa) as Hkprogsl by apply after_flock_kprogs.
  assert (w_dir_cache wl = Some dir) as Hcachel
    by (rewrite <- Hcache; apply after_flock_dir_cache).
  clearbody wl.
  assert (w_fds wl !! lock = Some (FdDir dir)) as Hlock
    by (rewrite Hfdsl; apply lookup_insert_eq).
  destruct (check_snprintf PATH_MAX path =? 0) eqn:Hcheck; cbn [negb].
  2: { rewrite (xdp_lock_release_open _ _ _ Hlock).
       apply Z.eqb_neq in Hcheck. absurd_result. }
  apply Z.eqb_eq in Hcheck.
  destruct (mkdir path wl) as [[e wc]|] eqn:Hmkdir; [|done].
  assert (path ≠ "") as Hpath by apply entry_path_nonempty.
  assert (dir ≠ path) as Hdirpath by apply path_ne_entry.
  unfold get_errno.
  assert (w_fds wc = w_fds wl ∧ w_kprogs wc = w_kprogs wa
          ∧ w_dir_cache wc = Some dir
          ∧ (e = 0 → w_fs wc !! path = Some Dir)
          ∧ w_fs wc !! dir = Some Dir
          ∧ (∀ k, w_fs wc !! k = w_fs wa !! k ∨ k = path)
          ∧ (negb (e =? 0) && negb (w_errno wc =? EEXIST) = false
             ∨ e ≠ 0 ∧ w_errno wc = ENOENT ∧ w_fds wc = w_fds wl))
    as (Hfdsc & Hkprogsc & Hcachec & Hpathc & Hdirc & Hfsc & Hcond).
  { apply mkdir_inv in Hmkdir
      as [(-> & Hnone & ->)|[(-> & Hsome & ->)|(-> & ->)]]; cbn;
      rewrite ?Hfsl.
    - repeat split; try done.
      + intros _. apply lookup_insert_eq.
      + by rewrite lookup_insert_ne.
      + intros k. destruct (decide (k = path)) as [->|Hk]; [by right|].
        left. by rewrite lookup_insert_ne.
      + by left.
    - repeat split; try done; [intros k; by left|by left].
    - repeat split; try done; [intros k; by left|by right]. }
  destruct Hcond as [->|(Hne & Herrno & _)].
  2: { apply Z.eqb_neq in Hne as ->. rewrite Herrno. cbn.
       assert (w_fds wc !! lock = Some (FdDir dir)) as Hlockc
         by by rewrite Hfdsc.
       rewrite (xdp_lock_release_open _ _ _ Hlockc). absurd_result. }
  destruct (pin_loop (length progs) 0 path e progs wc)
    as [[[[r unwind] progs'] wd]|] eqn:Hloop; [|done].
  apply pin_loop_inv in Hloop; [|done].
  destruct unwind as [i|].
  { destruct (unpin_loop i progs' wd) as [[? ?]|]; [|done].
    destruct (xdp_lock_release lock _) as [[? ?]|]; [|done].
    absurd_result. }
  destruct Hloop as (Hfdsd & Hkprogsd & Hcached & Hfsd & Hzero & Hnonzero).
  assert (w_fds wd !! lock = Some (FdDir dir)) as Hlockd
    by by rewrite Hfdsd, Hfdsc.
  cbn [ret]. rewrite (xdp_lock_release_open _ _ _ Hlockd).
  intros [= -> <- <-]. exists dir, id, info.
  cbn [w_dir_cache w_fs w_fds w_kprogs set_w_fds].
  rewrite after_flock_dir_cache, after_flock_fs, after_flock_kprogs.
  assert (w_fs wc !! path = Some Dir) as Hpathdir.
  { destruct (decide (length progs = 0%nat)) as [Hlen|Hlen].
    - apply Hpathc. by rewrite <- (Hzero Hlen).
    - by apply Hnonzero. }
  assert (∀ k n, w_fs wc !! k = Some n → w_fs wd !! k = Some n) as Hkeep.
  { intros k n Hk. destruct (Hfsd k) as [->|(Hnone & _)]; [done|].
    by rewrite Hk in Hnone. }
  split; [by rewrite Hcached|]. split; [by apply Hkeep|].
  split. { rewrite Hfdsd, Hfdsc, Hfdsl.
           rewrite delete_insert_eq, delete_id; [done|].
           apply alloc_fd_fresh. }
  split; [by rewrite Hkprogsd, Hkprogsc|].
  split; [by rewrite <- Hfds|]. split; [by rewrite <- Hkprogs|].
  split; [done|]. split; [by apply Hkeep|].
  intros k. destruct (Hfsd k) as [Hk|(_ & i & o & -> & Ho & Hfit)].
  - rewrite Hk. destruct (Hfsc k) as [-> | ->]; [|by right; right; left].
    destruct (Hfsa k) as [-> | ->]; [by left|by right; left].
  - right; right; right. eauto.
Qed.
Lemma set_errno_fs_same w e :
  set_w_errno e (set_w_fs (w_fs w) w) = set_w_errno e w.
Proof. by destruct w. Qed.

Lemma unlink_entries_spec path ents w :
  ∃ stopped e fs',
    unlink_entries path ents w
      = Some (stopped, set_w_errno e (set_w_fs fs' w))
    ∧ pins_removed (w_fs w) fs'
    ∧ (∀ err, stopped = Some err → err ≠ 0)
    ∧ (stopped = None →
       ∀ e', e' ∈ ents → not_dot e' → fs' !! (path +:+ "/" +:+ e') = None)
    ∧ (NoDup ents →
       (∀ e', e' ∈ ents → not_dot e' → unlinkable (w_fs w) path e') →
       stopped = None).
Proof.
  revert w. induction ents as [|d ents IH]; intros w.
  { exists None, (w_errno w), (w_fs w). rewrite world_eta.
    split; [done|]. split; [by left|]. split; [done|]. split; [|done].
    intros _ e' He'. by apply elem_of_nil in He'. }
  cbn [unlink_entries].
  destruct ((strcmp "." d =? 0) || (strcmp ".." d =? 0)) eqn:Hdot.
  { destruct (IH w) as (stopped & e & fs' & Hrun & Hfs & Herr & Hgone & Hok).
    exists stopped, e, fs'. split; [done|]. split; [done|].
    split; [done|]. split.
    - intros Hs e' [->|He']%elem_of_cons Hnd; [|by apply Hgone].
      unfold not_dot in Hnd. congruence.
    - intros [_ Hnd]%NoDup_cons Hall. apply Hok; [done|].
      intros e' He'. apply Hall. by right. }
  set (buf := path +:+ "/" +:+ d).
  destruct (check_snprintf PATH_MAX buf =? 0) eqn:Hcheck; cbn [negb].
  2: { exists (Some (check_snprintf PATH_MAX buf)), (w_errno w), (w_fs w).
       rewrite world_eta. split; [done|]. split; [by left|].
       split; [intros err [= <-]; by apply Z.eqb_neq|].
       split; [done|]. intros _ Hall.
       destruct (Hall d) as [Hfit _]; [by left|done|].
       fold buf in Hfit. rewrite Hfit in Hcheck. done. }
  unfold mbind, M_bind, bind, unlink, sys_fail, get_errno.
  destruct (w_fs w !! buf) as [[|o]|] eqn:Hbuf; cbn [Z.eqb negb].
  - exists (Some (- EISDIR)), EISDIR, (w_fs w). rewrite set_errno_fs_same.
    split; [done|]. split; [by left|]. split; [by intros err [= <-]|].
    split; [done|]. intros _ Hall.
    destruct (Hall d) as [_ [o Ho]]; [by left|done|].
    fold buf in Ho. congruence.
  - destruct (IH (set_w_fs (delete buf (w_fs w)) w))
      as (stopped & e & fs' & Hrun & Hfs & Herr & Hgone & Hok).
    exists stopped, e, fs'. split; [done|]. cbn in Hfs. split.
    { intros k. destruct (Hfs k) as [Hk|(Hk & o' & Ho')].
      - destruct (decide (k = buf)) as [->|Hne].
        + right. rewrite Hk, lookup_delete_eq. eauto.
        + left. by rewrite Hk, lookup_delete_ne.
      - right. split; [done|]. exists o'.
        destruct (decide (k = buf)) as [->|Hne].
        + by rewrite lookup_delete_eq in Ho'.
        + by rewrite lookup_delete_ne in Ho'. }
    split; [done|]. split.
    { intros Hs e' [->|He']%elem_of_cons Hnd; [|by apply Hgone].
      fold buf. destruct (Hfs buf) as [Hk|[Hk _]]; [|done].
      by rewrite Hk, lookup_delete_eq. }
    intros [Hd Hnd]%NoDup_cons Hall. apply Hok; [done|].
    intros e' He' Hdot'. destruct (Hall e') as [Hfit [o' Ho']];
      [by right|done|].
    split; [done|]. exists o'. cbn. rewrite lookup_delete_ne; [done|].
    intros Heq. apply string_app_inj, string_app_inj in Heq.
    by subst.
  - exists (Some (- ENOENT)), ENOENT, (w_fs w). rewrite set_errno_fs_same.
    split; [done|]. split; [by left|]. split; [by intros err [= <-]|].
    split; [done|]. intros _ Hall.
    destruct (Hall d) as [_ [o Ho]]; [by left|done|].
    fold buf in Ho. congruence.
Qed.

Lemma entry_path_inj path d d' :
  path +:+ "/" +:+ d = path +:+ "/" +:+ d' → d = d'.
Proof. by intros ?%string_app_inj%string_app_inj. Qed.

Lemma check_snprintf_error n s :
  check_snprintf n s ≠ 0 → check_snprintf n s = - ENAMETOOLONG.
Proof. unfold check_snprintf. by case_match. Qed.

(** A run of the loop over the entries [ents]: it unlinks the entries
    [gone] and stops at the first entry of [rest], if there is one. *)
Lemma unlink_entries_run path ents w :
  NoDup ents →
  ∃ gone rest stopped e fs',
    ents = (gone ++ rest)%list
    ∧ unlink_entries path ents w
      = Some (stopped, set_w_errno e (set_w_fs fs' w))
    ∧ (∀ d, d ∈ gone → not_dot d →
         unlinkable (w_fs w) path d ∧ fs' !! (path +:+ "/" +:+ d) = None)
    ∧ (∀ k, (∀ d, d ∈ gone → not_dot d → k ≠ path +:+ "/" +:+ d) →
         fs' !! k = w_fs w !! k)
    ∧ match rest with
      | [] => stopped = None
      | d :: _ =>
          not_dot d
          ∧ ∃ err, stopped = Some err
              ∧ (stops_unpin (w_fs w) path d err
                 ∨ (w_fs w !! (path +:+ "/" +:+ d) = None
                    ∧ err = - ENOENT))
      end.
Proof.
  revert w. induction ents as [|d ents IH]; intros w Hnd.
  { exists [], [], None, (w_errno w), (w_fs w). rewrite world_eta.
    split; [done|]. split; [done|].
    split; [by intros d ?%elem_of_nil|]. by split. }
  apply NoDup_cons in Hnd as [Hd Hnd].
  cbn [unlink_entries].
  destruct ((strcmp "." d =? 0) || (strcmp ".." d =? 0)) eqn:Hdot.
  { destruct (IH w Hnd)
      as (gone & rest & stopped & e & fs' & -> & Hrun & Hdone & Hframe & Hrest).
    exists (d :: gone), rest, stopped, e, fs'.
    split; [done|]. split; [done|]. split.
    - intros d' [->|Hin]%elem_of_cons Hnot; [|by apply Hdone].
      unfold not_dot in Hnot. congruence.
    - split; [|done]. intros k Hk. apply Hframe.
      intros d' Hin. apply Hk. by right. }
  set (buf := path +:+ "/" +:+ d).
  destruct (Z.eqb_spec (check_snprintf PATH_MAX buf) 0) as [Hcheck|Hcheck];
    cbn [negb].
  2: { exists [], (d :: ents), (Some (check_snprintf PATH_MAX buf)),
         (w_errno w), (w_fs w).
       rewrite world_eta. split; [done|]. split; [done|].
       split; [by intros ? ?%elem_of_nil|]. split; [done|].
       split; [done|]. eexists. split; [done|]. left. left.
       split; [done|]. by apply check_snprintf_error. }
  unfold mbind, M_bind, bind, unlink, sys_fail, get_errno.
  destruct (w_fs w !! buf) as [[|o]|] eqn:Hbuf; cbn [Z.eqb negb].
  - exists [], (d :: ents), (Some (- EISDIR)), EISDIR, (w_fs w).
    rewrite set_errno_fs_same. split; [done|]. split; [done|].
    split; [by intros ? ?%elem_of_nil|]. split; [done|].
    split; [done|]. eexists. split; [done|]. left. right. done.
  - destruct (IH (set_w_fs (delete buf (w_fs w)) w) Hnd)
      as (gone & rest & stopped & e & fs' & -> & Hrun & Hdone & Hframe & Hrest).
    cbn [w_fs set_w_fs] in Hdone, Hframe, Hrest.
    exists (d :: gone), rest, stopped, e, fs'.
    split; [done|]. split; [exact Hrun|]. split.
    { intros d' [->|Hin]%elem_of_cons Hnot.
      - split; [split; [done|by exists o]|]. fold buf.
        rewrite Hframe; [apply lookup_delete_eq|].
        intros d' Hin _ Heq. apply entry_path_inj in Heq as <-.
        apply Hd, elem_of_app. by left.
      - destruct (Hdone d' Hin Hnot) as [[Hfit [o' Ho']] Hnone].
        split; [|done]. split; [done|]. exists o'.
        by apply lookup_delete_Some in Ho' as [_ Ho']. }
    split.
    { intros k Hk. rewrite Hframe.
      - apply lookup_delete_ne. intros <-.
        by apply (Hk d); [left|exact Hdot|].
      - intros d' Hin. apply Hk. by right. }
    destruct rest as [|d0 rest]; [done|].
    destruct Hrest as (Hnot0 & err & -> & Hstop). split; [done|].
    exists err. split; [done|].
    assert (buf ≠ path +:+ "/" +:+ d0) as Hne.
    { intros Heq. apply entry_path_inj in Heq as <-.
      apply Hd, elem_of_app. right. by left. }
    unfold stops_unpin in *. by rewrite lookup_delete_ne in Hstop.
  - exists [], (d :: ents), (Some (- ENOENT)), ENOENT, (w_fs w).
    rewrite set_errno_fs_same. split; [done|]. split; [done|].
    split; [by intros ? ?%elem_of_nil|]. split; [done|].
    split; [done|]. eexists. split; [done|]. by right.
Qed.

Lemma unlink_entries_dots path ents :
  unlink_entries path ("." :: ".." :: ents) = unlink_entries path ents.
Proof. reflexivity. Qed.

Lemma readdir_order_Permutation w ents : readdir_order w ents ≡ₚ ents.
Proof. apply merge_sort_Permutation. Qed.

Lemma elem_of_readdir_order w ents d : d ∈ readdir_order w ents ↔ d ∈ ents.
Proof. by rewrite readdir_order_Permutation. Qed.

Lemma NoDup_readdir_order w ents : NoDup ents → NoDup (readdir_order w ents).
Proof. by rewrite readdir_order_Permutation. Qed.

(** ** The order of directory entries *)

#[global] Instance rank_le_total rank : Total (rank_le rank).
Proof. intros a b. unfold rank_le. lia. Qed.

#[global] Instance rank_le_trans rank : Transitive (rank_le rank).
Proof. intros a b c. unfold rank_le. lia. Qed.

Lemma rank_of_inj order a b :
  a ∈ order → b ∈ order → rank_of order a = rank_of order b → a = b.
Proof.
  induction order as [|x order IH]; [by intros ?%elem_of_nil|].
  intros Ha Hb. simpl. repeat case_decide; subst; try done; try lia.
  intros Heq%N.succ_inj.
  apply elem_of_cons in Ha as [->|Ha]; [done|].
  apply elem_of_cons in Hb as [->|Hb]; [done|]. by apply IH.
Qed.

Lemma Sorted_impl_elem {A} (R R' : relation A) l :
  (∀ a b, a ∈ l → b ∈ l → R a b → R' a b) → Sorted R l → Sorted R' l.
Proof.
  intros Himpl Hl. induction Hl as [|a l Hl IH Hhd]; [constructor|].
  constructor.
  - apply IH. intros x y Hx Hy. apply Himpl; by right.
  - destruct Hhd as [|b l' Hab]; constructor.
    apply Himpl; [by left|right; by left|done].
Qed.

Lemma rank_of_sorted order :
  NoDup order → Sorted (rank_le (rank_of order)) order.
Proof.
  induction order as [|x order IH]; [constructor|].
  intros [Hx Hnd]%NoDup_cons. constructor.
  - apply (Sorted_impl_elem (rank_le (rank_of order))); [|by apply IH].
    intros a b Ha Hb. unfold rank_le. simpl.
    repeat case_decide; subst; try done. lia.
  - destruct order as [|y order]; constructor.
    unfold rank_le. simpl. rewrite decide_True by done. lia.
Qed.

(** Every order of the entries is the reading order under some rank: the
    model leaves the order to the file system. *)
Lemma readdir_order_any w ents order :
  NoDup order → order ≡ₚ ents →
  w_dirent_rank w = rank_of order →
  readdir_order w ents = order.
Proof.
  intros Hnd Hperm Hrank. unfold readdir_order. rewrite Hrank.
  apply (Sorted_unique_strong (rank_le (rank_of order))).
  - intros a b Ha Hb Hab Hba. apply (rank_of_inj order); [|done|].
    + by rewrite merge_sort_Permutation, <- Hperm in Ha.
    + unfold rank_le in *. lia.
  - apply Sorted_merge_sort, _.
  - by apply rank_of_sorted.
  - by rewrite merge_sort_Permutation.
Qed.

(** One run of [unpin_multiprog] in a process that knows the library
    directory and holds the dispatcher's descriptor: what it returns and
    what it leaves of the file system, by the kernel's answer to the lock
    request and by the entries [ents] of the directory in reading order. *)
Lemma unpin_multiprog_run dfd w dir id info :
  let path := dir +:+ "/" +:+ dispatch_name (info_id info) in
  let ents := readdir_order w (dir_entries (w_fs w) path) in
  w_dir_cache w = Some dir → w_fs w !! dir = Some Dir →
  w_fds w !! dfd = Some (FdProg id) → w_kprogs w !! id = Some info →
  check_snprintf PATH_MAX path = 0 →
  ∃ r w',
    unpin_multiprog dfd w = Some (r, w')
    ∧ w_fds w' = w_fds w ∧ w_kprogs w' = w_kprogs w
    ∧ w_dir_cache w' = w_dir_cache w
    ∧ (flock_answer w ≠ 0%N →
       r = - Z.of_N (flock_answer w) ∧ w_fs w' = w_fs w)
    ∧ (flock_answer w = 0%N →
       match w_fs w !! path with
       | Some Dir =>
           ∃ gone rest,
             ents = (gone ++ rest)%list
             ∧ (∀ d, d ∈ gone → not_dot d →
                  unlinkable (w_fs w) path d
                  ∧ w_fs w' !! (path +:+ "/" +:+ d) = None)
             ∧ (∀ k, k ≠ path →
                  (∀ d, d ∈ gone → not_dot d → k ≠ path +:+ "/" +:+ d) →
                  w_fs w' !! k = w_fs w !! k)
             ∧ match rest with
               | d :: _ =>
                   not_dot d ∧ stops_unpin (w_fs w) path d r
                   ∧ w_fs w' !! path = Some Dir
                   ∧ ∀ d', d' ∈ rest →
                       w_fs w' !! (path +:+ "/" +:+ d')
                       = w_fs w !! (path +:+ "/" +:+ d')
               | [] =>
                   (r = 0 ∧ w_fs w' !! path = None
                    ∧ ∀ d, d ∈ ents → not_dot d)
                   ∨ (r = - ENOTEMPTY ∧ w_fs w' !! path = Some Dir
                      ∧ ∃ d, d ∈ ents ∧ ¬ not_dot d)
               end
       | _ => r = - ENOENT ∧ w_fs w' = w_fs w
       end).
Proof.
  intros path ents Hcache Hdir Hfd Hid Hcheck.
  unfold unpin_multiprog, mbind, M_bind, bind.
  rewrite (get_bpffs_dir_cached _ dir) by done.
  rewrite (bpf_obj_get_info_by_fd_prog _ _ id info) by done.
  cbn [Z.eqb negb]. rewrite (xdp_lock_acquire_cached _ dir) by done.
  rewrite Hdir.
  destruct (decide (flock_answer w = 0%N)) as [Hgrant|Hrefuse].
  2: { rewrite flock_error_negative by done. eexists _, _.
       split; [reflexivity|].
       rewrite after_flock_fds, after_flock_kprogs, after_flock_dir_cache,
         after_flock_fs.
       split; [done|]. split; [done|]. split; [done|]. split; [done|].
       intros ?. done. }
  rewrite alloc_fd_nonneg, dispatch_path_eq. fold path.
  rewrite Hcheck. cbn [Z.eqb negb].
  set (lock := alloc_fd (w_fds w)).
  set (wl := set_w_fds (<[lock := FdDir dir]> (w_fds w)) (after_flock w)).
  assert (w_fds w !! lock = None) as Hlockfree by apply alloc_fd_fresh.
  assert (w_fds wl = <[lock := FdDir dir]> (w_fds w)) as Hfdsl by done.
  assert (w_fs wl = w_fs w) as Hfsl by apply after_flock_fs.
  assert (w_kprogs wl = w_kprogs w) as Hkl by apply after_flock_kprogs.
  assert (w_dir_cache wl = w_dir_cache w) as Hcl
    by apply after_flock_dir_cache.
  assert (w_dirent_rank wl = w_dirent_rank w) as Hrl
    by apply after_flock_rank.
  clearbody wl.
  assert (∀ wx (res : Z), w_fds wx = w_fds wl →
    ∃ w', (_ ← xdp_lock_release lock; ret res) wx = Some (res, w')
      ∧ w_fds w' = w_fds w ∧ w_fs w' = w_fs wx
      ∧ w_kprogs w' = w_kprogs wx ∧ w_dir_cache w' = w_dir_cache wx)
    as Hrelease.
  { intros wx res Hwx. unfold mbind, M_bind, bind.
    rewrite (xdp_lock_release_open _ _ (FdDir dir))
      by (rewrite Hwx, Hfdsl; apply lookup_insert_eq).
    eexists. split; [reflexivity|]. cbn [w_fds w_fs w_kprogs w_dir_cache set_w_fds].
    rewrite after_flock_fs, after_flock_kprogs, after_flock_dir_cache.
    rewrite Hwx, Hfdsl, delete_insert_id by done. done. }
  unfold mbind, M_bind, bind in Hrelease.
  unfold opendir, open_directory, mbind, M_bind, bind, install_fd, sys_fail.
  rewrite Hfsl.
  destruct (w_fs w !! path) as [[|o]|] eqn:Hpath.
  - rewrite alloc_fd_nonneg. unfold get_world, ret at 1.
    set (fd2 := alloc_fd (w_fds wl)).
    set (wo := set_w_fds (<[fd2 := FdDir path]> (w_fds wl)) wl).
    assert (w_fds wl !! fd2 = None) as Hfd2free by apply alloc_fd_fresh.
    cbn [dir_ents dir_fd]. rewrite unlink_entries_dots.
    change (w_fs wo) with (w_fs wl). rewrite Hfsl.
    unfold readdir_order at 1. change (w_dirent_rank wo) with (w_dirent_rank wl).
    rewrite Hrl. fold (readdir_order w (dir_entries (w_fs w) path)). fold ents.
    unfold closedir. cbn [dir_fd].
    assert (∀ wx (res : Z), w_fds wx = w_fds wo →
      ∃ w', match close fd2 wx with
            | Some (_, w1) =>
                match xdp_lock_release lock w1 with
                | Some (_, w2) => ret res w2
                | None => None
                end
            | None => None
            end = Some (res, w')
        ∧ w_fds w' = w_fds w ∧ w_fs w' = w_fs wx
        ∧ w_kprogs w' = w_kprogs wx ∧ w_dir_cache w' = w_dir_cache wx)
      as Hclose.
    { intros wx res Hwx. unfold close.
      assert (w_fds wx !! fd2 = Some (FdDir path)) as ->
        by (rewrite Hwx; apply lookup_insert_eq).
      destruct (Hrelease (set_w_fds (delete fd2 (w_fds wx)) wx) res)
        as (w' & Hrel & ?).
      { cbn. rewrite Hwx. cbn. by rewrite delete_insert_id. }
      exists w'. split; [exact Hrel|done]. }
    destruct (unlink_entries_run path ents wo)
      as (gone & rest & stopped & e & fs' & Hents & Hrun & Hgone & Hframe
          & Hrest).
    { apply NoDup_readdir_order, NoDup_dir_entries. }
    rewrite Hrun. change (w_fs wo) with (w_fs wl) in Hgone, Hframe, Hrest.
    rewrite Hfsl in Hgone, Hframe, Hrest.
    assert (fs' !! path = Some Dir) as Hpath'.
    { rewrite Hframe; [done|]. intros d _ _. apply path_ne_entry. }
    assert (∀ d, d ∈ ents → is_Some (w_fs w !! (path +:+ "/" +:+ d)))
      as Hexist.
    { intros d Hd%elem_of_readdir_order.
      by apply elem_of_dir_entries in Hd as (? & _). }
    destruct rest as [|d0 rest].
    + subst stopped. unfold rmdir, sys_fail, get_errno.
      cbn [w_fs set_w_errno set_w_fs]. rewrite Hpath'.
      destruct (dir_entries fs' path) as [|d1 left] eqn:Hleft.
      * destruct (Hclose (set_w_errno e
                   (set_w_fs (delete path fs') (set_w_errno e (set_w_fs fs' wo))))
                   0) as (w' & Hrun' & Hfds' & Hfs' & Hk' & Hc'); [done|].
        exists 0, w'. split; [exact Hrun'|].
        cbn in Hfs', Hk', Hc'.
        split; [done|]. split; [by rewrite Hk'|]. split; [by rewrite Hc'|].
        split; [done|]. intros _. exists gone, [].
        split; [done|]. split.
        { intros d Hd Hnot. destruct (Hgone d Hd Hnot) as [Hu Hn].
          split; [done|]. rewrite Hfs'.
          rewrite lookup_delete_ne by apply path_ne_entry. done. }
        split.
        { intros k Hk Hother. rewrite Hfs', lookup_delete_ne by done.
          by apply Hframe. }
        left. split; [done|]. split; [by rewrite Hfs', lookup_delete_eq|].
        intros d Hd. destruct (decide (not_dot d)) as [|Hdot]; [done|].
        exfalso.
        assert (d ∈ dir_entries fs' path) as Hin; [|by rewrite Hleft in Hin;
          apply elem_of_nil in Hin].
        apply elem_of_readdir_order in Hd as Hd'.
        apply elem_of_dir_entries in Hd' as (Hsome & Hslash & Hne).
        apply elem_of_dir_entries. split; [|done].
        rewrite Hframe; [done|]. intros d' Hd' Hnot' Heq.
        apply entry_path_inj in Heq as <-. done.
      * destruct (Hclose (set_w_errno ENOTEMPTY
                   (set_w_errno e (set_w_fs fs' wo))) (- ENOTEMPTY))
          as (w' & Hrun' & Hfds' & Hfs' & Hk' & Hc'); [done|].
        exists (- ENOTEMPTY), w'. split; [exact Hrun'|].
        cbn in Hfs', Hk', Hc'.
        split; [done|]. split; [by rewrite Hk'|]. split; [by rewrite Hc'|].
        split; [done|]. intros _. exists gone, [].
        split; [done|]. split.
        { intros d Hd Hnot. destruct (Hgone d Hd Hnot) as [Hu Hn].
          split; [done|]. by rewrite Hfs'. }
        split.
        { intros k Hk Hother. rewrite Hfs'. by apply Hframe. }
        right. split; [done|]. split; [by rewrite Hfs'|].
        exists d1.
        assert (d1 ∈ dir_entries fs' path) as Hin
          by (rewrite Hleft; by left).
        apply elem_of_dir_entries in Hin as (Hsome & Hslash & Hne).
        assert (d1 ∈ ents → not_dot d1 → False) as Hno.
        { intros Hd Hnot. rewrite Hents, app_nil_r in Hd.
          destruct (Hgone d1 Hd Hnot) as [_ Hn]. rewrite Hn in Hsome.
          by destruct Hsome. }
        assert (d1 ∈ ents) as Hd1.
        { apply elem_of_readdir_order, elem_of_dir_entries. split; [|done].
          destruct (decide (d1 ∈ gone ∧ not_dot d1)) as [[Hd Hnot]|Hnd].
          - destruct (Hgone d1 Hd Hnot) as [[_ [o Ho]] _]. by rewrite Ho.
          - rewrite <- Hframe; [done|]. intros d' Hd' Hnot' Heq.
            apply entry_path_inj in Heq as <-. by apply Hnd. }
        split; [done|]. intros Hnot. by apply Hno.
    + destruct Hrest as (Hnot0 & err & -> & Hstop).
      destruct (Hclose (set_w_errno e (set_w_fs fs' wo)) err)
        as (w' & Hrun' & Hfds' & Hfs' & Hk' & Hc'); [done|].
      exists err, w'. split; [exact Hrun'|].
      cbn in Hfs', Hk', Hc'.
      split; [done|]. split; [by rewrite Hk'|]. split; [by rewrite Hc'|].
      split; [done|]. intros _. exists gone, (d0 :: rest).
      split; [done|]. split.
      { intros d Hd Hnot. destruct (Hgone d Hd Hnot) as [Hu Hn].
        split; [done|]. by rewrite Hfs'. }
      split.
      { intros k Hk Hother. rewrite Hfs'. by apply Hframe. }
      split; [done|]. split; [|split; [by rewrite Hfs'|]].
      { destruct Hstop as [Hstop|[Hnone _]]; [done|].
        destruct (Hexist d0) as [n Hn]; [|congruence].
        rewrite Hents. apply elem_of_app. right. by left. }
      intros d' Hd'. rewrite Hfs'. apply Hframe. intros d Hd _ Heq.
      apply entry_path_inj in Heq as ->.
      assert (NoDup (gone ++ d0 :: rest)) as Hnd.
      { rewrite <- Hents. apply NoDup_readdir_order, NoDup_dir_entries. }
      apply NoDup_app in Hnd as (_ & Hdisj & _). by apply (Hdisj d).
  - cbn [Z.ltb Z.compare]. unfold ret at 1.
    destruct (Hrelease (set_w_errno ENOTDIR wl) (- ENOENT))
      as (w' & Hrun' & Hfds' & Hfs' & Hk' & Hc'); [done|].
    exists (- ENOENT), w'. split; [exact Hrun'|]. cbn in Hfs', Hk', Hc'.
    split; [done|]. split; [by rewrite Hk'|]. split; [by rewrite Hc'|].
    split; [done|]. intros _. by rewrite Hfs'.
  - cbn [Z.ltb Z.compare]. unfold ret at 1.
    destruct (Hrelease (set_w_errno ENOENT wl) (- ENOENT))
      as (w' & Hrun' & Hfds' & Hfs' & Hk' & Hc'); [done|].
    exists (- ENOENT), w'. split; [exact Hrun'|]. cbn in Hfs', Hk', Hc'.
    split; [done|]. split; [by rewrite Hk'|]. split; [by rewrite Hc'|].
    split; [done|]. intros _. by rewrite Hfs'.
Qed.
Lemma dir_ne_entry_entry dir a b : dir ≠ (dir +:+ "/" +:+ a) +:+ "/" +:+ b.
Proof.
  intros Heq. apply (f_equal String.length) in Heq.
  rewrite !string_app_length in Heq. simpl in Heq. lia.
Qed.

(** C7, as the code has it.  After a successful pin the dispatcher's
    directory exists, and the unpin that follows returns some [r].  When the
    kernel refuses the lock, [r] is that refusal and the file system is
    untouched.  When it grants the lock, the unpin unlinks the entries of
    the directory in reading order, skipping ["."] and [".."]: the entries
    [gone] were pinned objects and are removed, nothing else outside the
    directory node changes, and either the loop stops at the first entry
    [d] it cannot unlink (a directory, or a path too long for the buffer)
    with that entry's error, leaving [d], the entries [rest] after it and
    the directory, or it reaches the end and removes the directory.  When [r]
    is 0 the directory and all its entries are gone, the library directory
    is still there, and a second unpin returns [-ENOENT] unless the kernel
    refuses it the lock; when [r] is not 0 the directory is still there;
    and [r] is 0 when the lock is granted and nothing lay below the
    directory before the pin. *)
Theorem pin_unpin_cycle dfd progs progs1 w w1 :
  pin_multiprog dfd progs w = Some ((0, progs1), w1) →
  ∃ dir id info r w2,
    let path := dir +:+ "/dispatch-" +:+ fmt_d (info_id info) in
    let ents := readdir_order w1 (dir_entries (w_fs w1) path) in
    w_dir_cache w1 = Some dir
    ∧ w_fds w1 !! dfd = Some (FdProg id) ∧ w_kprogs w1 !! id = Some info
    ∧ w_fs w1 !! path = Some Dir
    ∧ unpin_multiprog dfd w1 = Some (r, w2)
    ∧ (flock_answer w1 ≠ 0%N →
       r = - Z.of_N (flock_answer w1) ∧ w_fs w2 = w_fs w1)
    ∧ (flock_answer w1 = 0%N →
       ∃ gone rest,
         ents = (gone ++ rest)%list
         ∧ (∀ d, d ∈ gone → not_dot d →
              unlinkable (w_fs w1) path d
              ∧ w_fs w2 !! (path +:+ "/" +:+ d) = None)
         ∧ (∀ k, k ≠ path →
              (∀ d, d ∈ gone → not_dot d → k ≠ path +:+ "/" +:+ d) →
              w_fs w2 !! k = w_fs w1 !! k)
         ∧ match rest with
           | d :: _ =>
               not_dot d ∧ stops_unpin (w_fs w1) path d r
               ∧ w_fs w2 !! path = Some Dir
               ∧ ∀ d', d' ∈ rest →
                   w_fs w2 !! (path +:+ "/" +:+ d')
                   = w_fs w1 !! (path +:+ "/" +:+ d')
           | [] =>
               (r = 0 ∧ w_fs w2 !! path = None
                ∧ ∀ d, d ∈ ents → not_dot d)
               ∨ (r = - ENOTEMPTY ∧ w_fs w2 !! path = Some Dir
                  ∧ ∃ d, d ∈ ents ∧ ¬ not_dot d)
           end)
    ∧ (r = 0 →
       w_fs w2 !! path = None
       ∧ (∀ e, e ∈ dir_entries (w_fs w1) path →
               w_fs w2 !! (path +:+ "/" +:+ e) = None)
       ∧ w_fs w2 !! dir = Some Dir
       ∧ ∃ r3 w3,
           unpin_multiprog dfd w2 = Some (r3, w3)
           ∧ w_fs w3 = w_fs w2
           ∧ (flock_answer w2 = 0%N → r3 = - ENOENT)
           ∧ (flock_answer w2 ≠ 0%N → r3 = - Z.of_N (flock_answer w2)))
    ∧ (r ≠ 0 → w_fs w2 !! path = Some Dir)
    ∧ (flock_answer w1 = 0%N →
       (∀ e, w_fs w !! (path +:+ "/" +:+ e) = None) → r = 0).
Proof.
  intros Hpin.
  apply pin_multiprog_success in Hpin
    as (dir & id & info & Hcache & Hdir & Hfds & Hkprogs & Hfd & Hid
        & Hcheck & Hpath & Hfs1).
  cbv zeta in *.
  set (path := dir +:+ "/" +:+ dispatch_name (info_id info)) in *.
  assert (w_fds w1 !! dfd = Some (FdProg id)) as Hfd1 by by rewrite Hfds.
  assert (w_kprogs w1 !! id = Some info) as Hid1 by by rewrite Hkprogs.
  destruct (unpin_multiprog_run dfd w1 dir id info Hcache Hdir Hfd1 Hid1
              Hcheck) as (r & w2 & Hunpin & Hfds2 & Hk2 & Hc2 & Hrefused
                          & Hgranted).
  fold path in Hgranted. rewrite Hpath in Hgranted.
  exists dir, id, info, r, w2. rewrite dispatch_path_eq. fold path.
  set (ents := readdir_order w1 (dir_entries (w_fs w1) path)) in *.
  split; [done|]. split; [done|]. split; [done|]. split; [done|].
  split; [done|]. split; [done|]. split; [done|].
  assert (r = 0 → flock_answer w1 = 0%N) as Hzero.
  { intros ->. destruct (decide (flock_answer w1 = 0%N)) as [|Hne]; [done|].
    destruct (Hrefused Hne) as [Heq _]. lia. }
  split; [|split].
  - intros ->. destruct (Hgranted (Hzero eq_refl))
      as (gone & rest & Hents & Hgone & Hframe & Hrest).
    assert (rest = [] ∧ w_fs w2 !! path = None ∧ ∀ d, d ∈ ents → not_dot d)
      as (-> & Hnone & Hall).
    { destruct rest as [|d0 rest].
      - destruct Hrest as [(_ & ? & ?)|(Habs & _)]; [done|].
        unfold ENOTEMPTY in Habs. lia.
      - destruct Hrest as (_ & [[_ Habs]|(_ & _ & Habs)] & _).
        + unfold ENAMETOOLONG in Habs. lia.
        + unfold EISDIR in Habs. lia. }
    rewrite app_nil_r in Hents.
    assert (w_fs w2 !! dir = Some Dir) as Hdir2.
    { rewrite Hframe; [done|apply path_ne_entry|].
      intros d _ _. apply dir_ne_entry_entry. }
    split; [done|]. split; [|split; [done|]].
    + intros e He. apply Hgone.
      * rewrite <- Hents. by apply elem_of_readdir_order.
      * apply Hall. by apply elem_of_readdir_order.
    + assert (w_dir_cache w2 = Some dir) as Hcache2 by by rewrite Hc2.
      assert (w_fds w2 !! dfd = Some (FdProg id)) as Hfd2 by by rewrite Hfds2.
      assert (w_kprogs w2 !! id = Some info) as Hid2 by by rewrite Hk2.
      destruct (unpin_multiprog_run dfd w2 dir id info Hcache2 Hdir2 Hfd2
                  Hid2 Hcheck) as (r3 & w3 & Hunpin3 & _ & _ & _ & Hrefused3
                                   & Hgranted3).
      fold path in Hgranted3. rewrite Hnone in Hgranted3.
      exists r3, w3. split; [done|].
      destruct (decide (flock_answer w2 = 0%N)) as [Hg|Hne].
      * destruct (Hgranted3 Hg) as [-> ->]. done.
      * destruct (Hrefused3 Hne) as [-> ->]. done.
  - intros Hr. destruct (decide (flock_answer w1 = 0%N)) as [Hg|Hne].
    + destruct (Hgranted Hg) as (gone & rest & Hents & Hgone & Hframe & Hrest).
      destruct rest as [|d0 rest]; [|by destruct Hrest as (_ & _ & ? & _)].
      by destruct Hrest as [(? & _)|(_ & ? & _)].
    + destruct (Hrefused Hne) as [_ ->]. done.
  - intros Hg Hfresh.
    destruct (Hgranted Hg) as (gone & rest & Hents & Hgone & Hframe & Hrest).
    assert (∀ d, d ∈ ents → not_dot d ∧ unlinkable (w_fs w1) path d)
      as Hlinks.
    { intros d [Hd _]%elem_of_readdir_order%elem_of_dir_entries.
      destruct (Hfs1 (path +:+ "/" +:+ d))
        as [Hk|[Hk|[Hk|(i & o & Hk & Ho & Hfit)]]].
      - rewrite Hk, Hfresh in Hd. by destruct Hd.
      - symmetry in Hk. by apply dir_ne_entry_entry in Hk.
      - symmetry in Hk. by apply path_ne_entry in Hk.
      - apply entry_path_inj in Hk as ->.
        split; [apply link_name_not_dot|]. split; [done|]. eauto. }
    destruct rest as [|d0 rest].
    + destruct Hrest as [(? & _)|(_ & _ & d & Hd & Hdot)]; [done|].
      by destruct (Hlinks d Hd).
    + destruct Hrest as (_ & Hstop & _). exfalso.
      destruct (Hlinks d0) as [_ [Hfit [o Ho]]].
      { rewrite Hents. apply elem_of_app. right. by left. }
      destruct Hstop as [[Hbad _]|(_ & Hd0 & _)]; congruence.
Qed.

Lemma pin_unpin_cycle_witness :
  ∃ progs1 w1,
    pin_multiprog 3 [linked_handle] world_links = Some ((0, progs1), w1)
    ∧ ∃ dir id info r w2,
      let path := dir +:+ "/dispatch-" +:+ fmt_d (info_id info) in
      let ents := readdir_order w1 (dir_entries (w_fs w1) path) in
      w_dir_cache w1 = Some dir
      ∧ w_fds w1 !! 3 = Some (FdProg id) ∧ w_kprogs w1 !! id = Some info
      ∧ w_fs w1 !! path = Some Dir
      ∧ unpin_multiprog 3 w1 = Some (r, w2)
      ∧ (flock_answer w1 ≠ 0%N →
         r = - Z.of_N (flock_answer w1) ∧ w_fs w2 = w_fs w1)
      ∧ (flock_answer w1 = 0%N →
         ∃ gone rest,
           ents = (gone ++ rest)%list
           ∧ (∀ d, d ∈ gone → not_dot d →
                unlinkable (w_fs w1) path d
                ∧ w_fs w2 !! (path +:+ "/" +:+ d) = None)
           ∧ (∀ k, k ≠ path →
                (∀ d, d ∈ gone → not_dot d → k ≠ path +:+ "/" +:+ d) →
                w_fs w2 !! k = w_fs w1 !! k)
           ∧ match rest with
             | d :: _ =>
                 not_dot d ∧ stops_unpin (w_fs w1) path d r
                 ∧ w_fs w2 !! path = Some Dir
                 ∧ ∀ d', d' ∈ rest →
                     w_fs w2 !! (path +:+ "/" +:+ d')
                     = w_fs w1 !! (path +:+ "/" +:+ d')
             | [] =>
                 (r = 0 ∧ w_fs w2 !! path = None
                  ∧ ∀ d, d ∈ ents → not_dot d)
                 ∨ (r = - ENOTEMPTY ∧ w_fs w2 !! path = Some Dir
                    ∧ ∃ d, d ∈ ents ∧ ¬ not_dot d)
             end)
      ∧ (r = 0 →
         w_fs w2 !! path = None
         ∧ (∀ e, e ∈ dir_entries (w_fs w1) path →
                 w_fs w2 !! (path +:+ "/" +:+ e) = None)
         ∧ w_fs w2 !! dir = Some Dir
         ∧ ∃ r3 w3,
             unpin_multiprog 3 w2 = Some (r3, w3)
             ∧ w_fs w3 = w_fs w2
             ∧ (flock_answer w2 = 0%N → r3 = - ENOENT)
             ∧ (flock_answer w2 ≠ 0%N → r3 = - Z.of_N (flock_answer w2)))
      ∧ (r ≠ 0 → w_fs w2 !! path = Some Dir)
      ∧ (flock_answer w1 = 0%N →
         (∀ e, w_fs world_links !! (path +:+ "/" +:+ e) = None) → r = 0).
Proof.
  eexists _, _. split; [vm_compute; reflexivity|].
  eapply (pin_unpin_cycle 3 [linked_handle] _ world_links).
  vm_compute. reflexivity.
Defined.

(** A directory of dispatcher 7 is left from earlier and holds a directory
    [old].  The pin succeeds; the unpin that follows fails with [-EISDIR]
    and leaves the dispatcher's directory in place, and so does the unpin
    after it, which does not return [-ENOENT]. *)
Lemma unpin_leaves_directory :
  ∃ progs1 w1 w2 w3,
    pin_multiprog 3 [linked_handle] world_sub = Some ((0, progs1), w1)
    ∧ unpin_multiprog 3 w1 = Some (- EISDIR, w2)
    ∧ w_fs w2 !! "/sys/fs/bpf/xdp/dispatch-7" = Some Dir
    ∧ w_fs w2 !! "/sys/fs/bpf/xdp/dispatch-7/old" = Some Dir
    ∧ unpin_multiprog 3 w2 = Some (- EISDIR, w3)
    ∧ - EISDIR ≠ - ENOENT.
Proof.
  eexists _, _, _, _. split; [vm_compute; reflexivity|].
  split; [vm_compute; reflexivity|].
  split; [by vm_compute|]. split; [by vm_compute|].
  split; [vm_compute; reflexivity|]. done.
Qed.

(** The same host under the two orders in which the directory can be read.
    When [link-prog0] comes first it is unlinked before the unpin stops at
    [old]; when [old] comes first the unpin stops at once and the link
    stays.  The result is [-EISDIR] either way. *)
Lemma unpin_order_example :
  let link_first :=
    set_w_dirent_rank (rank_of ["link-prog0"; "old"]) world_sub in
  let old_first :=
    set_w_dirent_rank (rank_of ["old"; "link-prog0"]) world_sub in
  ∃ progs1 w1 w2 progs1' w1' w2',
    pin_multiprog 3 [linked_handle] link_first = Some ((0, progs1), w1)
    ∧ unpin_multiprog 3 w1 = Some (- EISDIR, w2)
    ∧ w_fs w2 !! "/sys/fs/bpf/xdp/dispatch-7/link-prog0" = None
    ∧ pin_multiprog 3 [linked_handle] old_first = Some ((0, progs1'), w1')
    ∧ unpin_multiprog 3 w1' = Some (- EISDIR, w2')
    ∧ w_fs w2' !! "/sys/fs/bpf/xdp/dispatch-7/link-prog0"
      = Some (Pinned (FdLink 21)).
Proof.
  eexists _, _, _, _, _, _. split; [vm_compute; reflexivity|].
  split; [vm_compute; reflexivity|]. split; [by vm_compute|].
  split; [vm_compute; reflexivity|]. split; [vm_compute; reflexivity|].
  by vm_compute.
Qed.

(** Scenario S5 with one component: the pin creates
    [/sys/fs/bpf/xdp/dispatch-7] with [link-prog0] in it, the unpin removes
    both and leaves [/sys/fs/bpf/xdp], and a second unpin finds nothing. *)
Lemma pin_unpin_example :
  ∃ progs1 w1 w2 w3,
    pin_multiprog 3 [linked_handle] world_links = Some ((0, progs1), w1)
    ∧ w_fs w1 !! "/sys/fs/bpf/xdp/dispatch-7" = Some Dir
    ∧ w_fs w1 !! "/sys/fs/bpf/xdp/dispatch-7/link-prog0"
      = Some (Pinned (FdLink 21))
    ∧ unpin_multiprog 3 w1 = Some (0, w2)
    ∧ w_fs w2 = w_fs world_links
    ∧ unpin_multiprog 3 w2 = Some (- ENOENT, w3)
    ∧ w_fs w3 = w_fs world_links.
Proof.
  eexists _, _, _, _. split; [vm_compute; reflexivity|].
  split; [by vm_compute|]. split; [by vm_compute|].
  split; [vm_compute; reflexivity|]. split; [by vm_compute|].
  split; [vm_compute; reflexivity|]. by vm_compute.
Qed.
(** ** A pin that meets a handle without link descriptor *)












(** * Further properties *)

(** ** Chain-call bits and the action table *)

(** X1. For action codes below 32, reading a chain-call bit after setting it
    returns what was set, the bit of every other action is as before, and
    the priority is untouched. *)
Theorem chain_call_round_trip prog act act' enabled :
  0 ≤ act < 32 → 0 ≤ act' < 32 → act ≠ act' →
  let prog' := xdp_program__set_chain_call_enabled prog act enabled in
  xdp_program__chain_call_enabled prog' act = enabled
  ∧ xdp_program__chain_call_enabled prog' act'
    = xdp_program__chain_call_enabled prog act'
  ∧ xdp_program__run_prio prog' = xdp_program__run_prio prog.
Proof.
  intros Ha Ha' Hne. cbv zeta. split; [by apply chain_call_set_get|].
  split; [apply chain_call_set_other; lia|]. destruct enabled; reflexivity.
Qed.

Lemma chain_call_round_trip_witness :
  let prog' :=
    xdp_program__set_chain_call_enabled (blank_handle "foo") XDP_PASS false in
  xdp_program__chain_call_enabled prog' XDP_PASS = false
  ∧ xdp_program__chain_call_enabled prog' XDP_DROP
    = xdp_program__chain_call_enabled (blank_handle "foo") XDP_DROP
  ∧ xdp_program__run_prio prog' = xdp_program__run_prio (blank_handle "foo").
Proof.
  apply (chain_call_round_trip (blank_handle "foo") XDP_PASS XDP_DROP false).
  - unfold XDP_PASS. lia.
  - unfold XDP_DROP. lia.
  - discriminate.
Defined.

Lemma get_xdp_action_from_bound i names s act :
  get_xdp_action_from i names s = Some act →
  i ≤ act < i + Z.of_nat (length names).
Proof.
  revert i. induction names as [|n names IH]; intros i; simpl; [done|].
  destruct (strcmp s n =? 0).
  - intros [= <-]. lia.
  - intros Hact. apply IH in Hact. lia.
Qed.

Lemma get_xdp_action_range s act :
  get_xdp_action s = Some act → 0 ≤ act < 5.
Proof. intros Hact. by apply get_xdp_action_from_bound in Hact. Qed.

(** X2. [get_xdp_action] inverts the table of action names: on a C string
    it returns [act] exactly when [act] is the index of that name, so the
    result is one of the five action codes, and a name outside the table
    has no action. *)
Theorem get_xdp_action_inverse s act :
  c_string s →
  (get_xdp_action s = Some act ↔
   ∃ i : nat, act = Z.of_nat i ∧ xdp_action_names !! i = Some s)
  ∧ (get_xdp_action s = Some act → 0 ≤ act ≤ XDP_REDIRECT)
  ∧ (s ∉ xdp_action_names → get_xdp_action s = None).
Proof.
  intros Hs. split; [|split].
  - split.
    + intros Hact. destruct (decide (s ∈ xdp_action_names)) as [Hin|Hnot].
      * apply list_elem_of_lookup in Hin as [i Hi]. exists i.
        split; [|done]. rewrite (get_xdp_action_named i s Hi) in Hact.
        by injection Hact as <-.
      * by rewrite get_xdp_action_unknown in Hact.
    + intros (i & -> & Hi). by apply get_xdp_action_named.
  - intros Hact. apply get_xdp_action_range in Hact. unfold XDP_REDIRECT. lia.
  - by apply get_xdp_action_unknown.
Qed.

Lemma get_xdp_action_inverse_witness :
  (get_xdp_action "XDP_TX" = Some XDP_TX ↔
   ∃ i : nat, XDP_TX = Z.of_nat i ∧ xdp_action_names !! i = Some "XDP_TX")
  ∧ (get_xdp_action "XDP_TX" = Some XDP_TX → 0 ≤ XDP_TX ≤ XDP_REDIRECT)
  ∧ ("XDP_TX" ∉ xdp_action_names → get_xdp_action "XDP_TX" = None).
Proof.
  apply (get_xdp_action_inverse "XDP_TX" XDP_TX).
  vm_compute. repeat split; discriminate.
Defined.

(** ** Type resolution *)

Lemma skip_mods_loop_result fuel btf t t' :
  skip_mods_loop fuel btf t = Some t' →
  btf_is_mod t' || btf_is_typedef t' = false.
Proof.
  revert t. induction fuel as [|fuel IH]; intros t; simpl.
  - destruct (btf_is_mod t || btf_is_typedef t) eqn:Hmod; [done|].
    by intros [= <-].
  - destruct (btf_is_mod t || btf_is_typedef t) eqn:Hmod.
    + destruct (btf__type_by_id btf (t_type t)); [apply IH|done].
    + by intros [= <-].
Qed.

(** X3. What [skip_mods_and_typedefs] returns is never a [volatile],
    [const], [restrict] or [typedef] record; a type that is none of these is
    returned as it is; and one modifier or alias in front of such a type is
    stripped. *)
Theorem skip_mods_and_typedefs_strips btf id t0 :
  btf__type_by_id btf id = Some t0 →
  (∀ t, skip_mods_and_typedefs btf id = Some t →
        btf_is_mod t = false ∧ btf_is_typedef t = false)
  ∧ (btf_is_mod t0 || btf_is_typedef t0 = false →
     skip_mods_and_typedefs btf id = Some t0)
  ∧ (∀ t1, btf_is_mod t0 || btf_is_typedef t0 = true →
           btf__type_by_id btf (t_type t0) = Some t1 →
           btf_is_mod t1 || btf_is_typedef t1 = false →
           skip_mods_and_typedefs btf id = Some t1).
Proof.
  intros Hid. unfold skip_mods_and_typedefs. rewrite Hid. split; [|split].
  - intros t Ht. apply skip_mods_loop_result in Ht.
    by apply orb_false_elim in Ht.
  - intros Hplain. simpl. by rewrite Hplain.
  - intros t1 Hmod Ht1 Hplain. simpl. rewrite Hmod, Ht1.
    destruct (length (types btf)); simpl; by rewrite Hplain.
Qed.

Lemma skip_mods_and_typedefs_strips_witness :
  skip_mods_and_typedefs foo_btf 3
  = Some (ty "" BTF_KIND_PTR 2 ExtraNone).
Proof.
  refine (proj1 (proj2 (skip_mods_and_typedefs_strips foo_btf 3
            (ty "" BTF_KIND_PTR 2 ExtraNone) _)) _).
  - vm_compute. reflexivity.
  - vm_compute. reflexivity.
Defined.

(** ** The metadata parser: frame and errors *)

Lemma same_identity_refl h : same_identity h h.
Proof. by repeat split. Qed.

Lemma parse_members_frame btf ms h err h' :
  parse_members btf ms h = Some (err, h') →
  same_identity h h'
  ∧ ∀ j, 5 ≤ j < 32 →
         xdp_program__chain_call_enabled h' j
         = xdp_program__chain_call_enabled h j.
Proof.
  revert h. induction ms as [|m ms IH]; intros h; simpl.
  { intros [= _ <-]. split; [apply same_identity_refl|done]. }
  destruct (m_name m) as [mname|].
  2: { intros [= _ <-]. split; [apply same_identity_refl|done]. }
  destruct (strcmp mname "priority" =? 0).
  - destruct (get_field_int btf m) as [[v|]|]; [| |done].
    + intros Hrest. apply IH in Hrest as [Hsame Hbits]. done.
    + intros [= _ <-]. split; [apply same_identity_refl|done].
  - destruct (get_xdp_action mname) as [act|] eqn:Hact.
    2: { intros [= _ <-]. split; [apply same_identity_refl|done]. }
    apply get_xdp_action_range in Hact.
    destruct (get_field_int btf m) as [[v|]|]; [| |done].
    + intros Hrest. apply IH in Hrest as [Hsame Hbits]. split.
      * by destruct (negb (v =? 0)).
      * intros j Hj. rewrite Hbits by done.
        apply chain_call_set_other; lia.
    + intros [= _ <-]. split; [apply same_identity_refl|done].
Qed.

Lemma parse_vars_frame btf struct_name vis h err h' :
  parse_vars btf struct_name vis h = Some (err, h') →
  same_identity h h'
  ∧ ∀ j, 5 ≤ j < 32 →
         xdp_program__chain_call_enabled h' j
         = xdp_program__chain_call_enabled h j.
Proof.
  induction vis as [|vi vis IH]; simpl.
  { intros [= _ <-]. split; [apply same_identity_refl|done]. }
  destruct (btf__type_by_id btf (vi_type vi)) as [var|]; [|done].
  destruct (t_name var) as [name|]; [|done].
  destruct (negb (strcmp name struct_name =? 0)); [done|].
  unfold parse_var.
  repeat (case_match; try done);
    try (intros [= _ <-]; split; [apply same_identity_refl|done]).
  apply parse_members_frame.
Qed.

Lemma xdp_parse_run_config_identity btf h err h' :
  xdp_parse_run_config btf h = Some (err, h') → same_identity h h'.
Proof.
  unfold xdp_parse_run_config.
  destruct btf as [btf|]; [|intros [= _ <-]; apply same_identity_refl].
  destruct (xdp_program__name h) as [pname|]; [|done].
  destruct (negb (check_snprintf 100 ("_" +:+ pname) =? 0));
    [intros [= _ <-]; apply same_identity_refl|].
  destruct (find_run_config_sec (types btf)) as [[sec|]|]; [| |done].
  - destruct (btf_var_secinfos sec) as [vis|]; [|done].
    by intros [? _]%parse_vars_frame.
  - intros [= _ <-]. apply same_identity_refl.
Qed.

(** X4. Whatever it returns, the parser writes the priority and the
    chain-call bits of the five actions and nothing else: the descriptors,
    the name, the tag, the load time, the source object and the ownership
    flag of the handle are as before, and so are the chain-call bits 5 to
    31. *)
Theorem parse_run_config_frame btf h err h' :
  xdp_parse_run_config btf h = Some (err, h') →
  same_identity h h'
  ∧ ∀ j, 5 ≤ j < 32 →
         xdp_program__chain_call_enabled h' j
         = xdp_program__chain_call_enabled h j.
Proof.
  unfold xdp_parse_run_config.
  destruct btf as [btf|].
  2: { intros [= _ <-]. split; [apply same_identity_refl|done]. }
  destruct (xdp_program__name h) as [pname|]; [|done].
  destruct (negb (check_snprintf 100 ("_" +:+ pname) =? 0)).
  { intros [= _ <-]. split; [apply same_identity_refl|done]. }
  destruct (find_run_config_sec (types btf)) as [[sec|]|]; [| |done].
  - destruct (btf_var_secinfos sec) as [vis|]; [|done].
    apply parse_vars_frame.
  - intros [= _ <-]. split; [apply same_identity_refl|done].
Qed.

Lemma parse_run_config_frame_witness :
  same_identity (blank_handle "foo")
    (xdp_program__set_run_prio (blank_handle "foo") 15)
  ∧ ∀ j, 5 ≤ j < 32 →
         xdp_program__chain_call_enabled
           (xdp_program__set_run_prio (blank_handle "foo") 15) j
         = xdp_program__chain_call_enabled (blank_handle "foo") j.
Proof.
  apply (parse_run_config_frame (Some bogus_btf) (blank_handle "foo")
           (- ENOTSUP)).
  vm_compute. reflexivity.
Defined.

Lemma parse_vars_no_match btf struct_name vis h :
  Forall (other_variable btf struct_name) vis →
  parse_vars btf struct_name vis h = Some (- ENOENT, h).
Proof.
  induction 1 as [|vi vis (t & name & Ht & Hname & Hne) _ IH]; simpl;
    [done|].
  rewrite Ht, Hname. by apply Z.eqb_neq in Hne as ->.
Qed.

(** X5. The parser answers [-ENOENT] and leaves the handle as it is when
    the handle has no type information, when the type information has no
    data section named [.xdp_run_config], and when no variable of that
    section is named ["_" + name]. *)
Theorem run_config_not_found h pname :
  prog_name h = Some pname →
  (String.length ("_" +:+ pname) < 100)%nat →
  xdp_parse_run_config None h = Some (- ENOENT, h)
  ∧ (∀ btf, find_run_config_sec (types btf) = Some None →
            xdp_parse_run_config (Some btf) h = Some (- ENOENT, h))
  ∧ (∀ btf sec vis,
       find_run_config_sec (types btf) = Some (Some sec) →
       btf_var_secinfos sec = Some vis →
       Forall (other_variable btf ("_" +:+ pname)) vis →
       xdp_parse_run_config (Some btf) h = Some (- ENOENT, h)).
Proof.
  intros Hname Hlen. split; [done|].
  assert (negb (check_snprintf 100 ("_" +:+ pname) =? 0) = false) as Hfit.
  { unfold check_snprintf. by apply Nat.ltb_lt in Hlen as ->. }
  split.
  - intros btf Hsec. unfold xdp_parse_run_config, xdp_program__name.
    by rewrite Hname, Hfit, Hsec.
  - intros btf sec vis Hsec Hvis Hother.
    unfold xdp_parse_run_config, xdp_program__name.
    rewrite Hname, Hfit, Hsec, Hvis. by apply parse_vars_no_match.
Qed.

Lemma run_config_not_found_witness :
  xdp_parse_run_config (Some foo_btf) (blank_handle "bar")
  = Some (- ENOENT, blank_handle "bar").
Proof.
  refine (proj2 (proj2 (run_config_not_found (blank_handle "bar") "bar"
            _ _)) foo_btf _ _ _ _ _).
  - reflexivity.
  - vm_compute. lia.
  - vm_compute. reflexivity.
  - vm_compute. reflexivity.
  - repeat constructor. eexists _, _.
    split; [vm_compute; reflexivity|]. split; [reflexivity|].
    vm_compute. discriminate.
Defined.

Lemma reaches_variable_parse_var btf pname vi var h :
  prog_name h = Some pname →
  reaches_variable btf pname vi var →
  xdp_parse_run_config (Some btf) h = parse_var btf var vi h.
Proof.
  intros Hname [Hlen (sec & pre & post & Hsec & Hvis & Hpre & Hvi)].
  unfold xdp_parse_run_config, xdp_program__name. rewrite Hname.
  unfold check_snprintf. apply Nat.ltb_lt in Hlen as ->.
  simpl negb. cbv iota.
  by rewrite Hsec, Hvis, (parse_vars_first_match _ _ _ _ var).
Qed.

(** X6. The variable the parser selects is rejected, with the handle as it
    was: [-EINVAL] when it is not a variable declaration, [-EOPNOTSUPP] when
    its linkage is neither global-allocated nor static, [-EINVAL] when its
    type is not a struct under modifiers and aliases, and [-EINVAL] when
    that struct is larger than the section entry. *)
Theorem malformed_variable_rejected btf h pname vi var :
  prog_name h = Some pname →
  reaches_variable btf pname vi var →
  (btf_is_var var = false →
     xdp_parse_run_config (Some btf) h = Some (- EINVAL, h))
  ∧ (∀ linkage,
       btf_is_var var = true → btf_var_linkage var = Some linkage →
       linkage ≠ BTF_VAR_GLOBAL_ALLOCATED → linkage ≠ BTF_VAR_STATIC →
       xdp_parse_run_config (Some btf) h = Some (- EOPNOTSUPP, h))
  ∧ (∀ linkage def,
       btf_is_var var = true → btf_var_linkage var = Some linkage →
       linkage = BTF_VAR_GLOBAL_ALLOCATED ∨ linkage = BTF_VAR_STATIC →
       skip_mods_and_typedefs btf (t_type var) = Some def →
       btf_is_struct def = false ∨ vi_size vi < t_size def →
       xdp_parse_run_config (Some btf) h = Some (- EINVAL, h)).
Proof.
  intros Hname Hreach.
  rewrite (reaches_variable_parse_var _ pname vi var) by done.
  unfold parse_var. split; [|split].
  - by intros ->.
  - intros linkage -> -> Hga Hst.
    apply Z.eqb_neq in Hga as ->, Hst as ->. done.
  - intros linkage def -> -> Hlinkage -> Hbad. simpl negb. cbv iota.
    replace (negb (linkage =? BTF_VAR_GLOBAL_ALLOCATED)
             && negb (linkage =? BTF_VAR_STATIC)) with false
      by (by destruct Hlinkage as [-> | ->]).
    destruct Hbad as [-> | Hsize]; [done|].
    destruct (btf_is_struct def); [|done]. simpl negb. cbv iota.
    replace (t_size def >? vi_size vi) with true; [done|].
    symmetry. rewrite Z.gtb_ltb. by apply Z.ltb_lt.
Qed.

Lemma malformed_variable_rejected_witness :
  xdp_parse_run_config (Some extern_btf) (blank_handle "foo")
  = Some (- EOPNOTSUPP, blank_handle "foo").
Proof.
  refine (proj1 (proj2 (malformed_variable_rejected extern_btf
            (blank_handle "foo") "foo" extern_vi extern_var _ _)) 2 _ _ _ _).
  - reflexivity.
  - split; [vm_compute; lia|]. eexists _, [], [].
    split; [vm_compute; reflexivity|]. split; [vm_compute; reflexivity|].
    split; [constructor|]. split; [vm_compute; reflexivity|].
    eexists. split; [reflexivity|]. vm_compute. reflexivity.
  - reflexivity.
  - reflexivity.
  - discriminate.
  - discriminate.
Defined.

Lemma get_field_int_not_a_count btf m :
  not_a_count btf m → get_field_int btf m = Some None.
Proof.
  intros (tp & Htp & Hbad). unfold get_field_int. rewrite Htp.
  destruct Hbad as [-> | [Hnone | (ta & Hta & Harr)]]; [done|..];
    destruct (btf_is_ptr tp); try done; simpl.
  - by rewrite Hnone.
  - by rewrite Hta, Harr.
Qed.

(** X7. When the parser has found the run-config variable and accepted the
    members before [m]: a member whose name cannot be read, and a member
    named ["priority"] or after an action whose type is not a pointer to an
    array, make it fail with [-EINVAL].  The handle keeps what the earlier
    members have set: the error does not undo them. *)
Theorem member_type_rejected btf h pname pre m post h1 :
  prog_name h = Some pname →
  finds_run_config btf pname (pre ++ m :: post) →
  parse_members btf pre h = Some (0, h1) →
  (m_name m = None →
     xdp_parse_run_config (Some btf) h = Some (- EINVAL, h1))
  ∧ (∀ mname,
       m_name m = Some mname →
       mname = "priority" ∨ mname ∈ xdp_action_names →
       not_a_count btf m →
       xdp_parse_run_config (Some btf) h = Some (- EINVAL, h1)).
Proof.
  intros Hname Hfinds Hpre.
  rewrite (finds_run_config_members _ pname (pre ++ m :: post)) by done.
  rewrite (parse_members_app _ _ _ _ h1) by done. simpl. split.
  - by intros ->.
  - intros mname -> Hknown Hbad.
    rewrite (get_field_int_not_a_count _ _ Hbad).
    destruct (strcmp mname "priority" =? 0) eqn:Hprio; [done|].
    destruct Hknown as [-> | Hin]; [by rewrite strcmp_refl in Hprio|].
    apply list_elem_of_lookup in Hin as [i Hi].
    by rewrite (get_xdp_action_named i mname Hi).
Qed.

Lemma member_type_rejected_witness :
  xdp_parse_run_config (Some intprio_btf) (blank_handle "foo")
  = Some (- EINVAL,
          xdp_program__set_chain_call_enabled (blank_handle "foo") XDP_DROP
            true).
Proof.
  refine (proj2 (member_type_rejected intprio_btf (blank_handle "foo") "foo"
            [uint_field "XDP_DROP" 5] (uint_field "priority" 1) []
            (xdp_program__set_chain_call_enabled (blank_handle "foo")
               XDP_DROP true) _ _ _) "priority" _ _ _).
  - reflexivity.
  - split; [vm_compute; lia|].
    eexists _, [], _, [], _, _, _.
    split; [vm_compute; reflexivity|]. split; [vm_compute; reflexivity|].
    split; [constructor|].
    split. { split; [vm_compute; reflexivity|]. eexists.
             split; [reflexivity|]. vm_compute. reflexivity. }
    split; [reflexivity|]. split; [reflexivity|]. split; [by left|].
    split; [vm_compute; reflexivity|]. split; [reflexivity|].
    split; [vm_compute; discriminate|]. reflexivity.
  - vm_compute. reflexivity.
  - reflexivity.
  - by left.
  - eexists. split; [vm_compute; reflexivity|]. left. reflexivity.
Defined.

(** ** Parsing twice *)

Lemma handle_eq h1 h2 :
  same_identity h1 h2 → run_prio h2 = run_prio h1 →
  chain_call_actions h2 = chain_call_actions h1 → h2 = h1.
Proof.
  destruct h1, h2. unfold same_identity. cbn.
  intros (-> & -> & -> & -> & -> & -> & -> & -> & -> & ->) -> ->. done.
Qed.

Lemma set_bit_testbit h act enabled n :
  0 ≤ act < 32 → 0 ≤ n →
  Z.testbit (chain_call_actions
               (xdp_program__set_chain_call_enabled h act enabled)) n
  = (n <? 32) && (if n =? act then enabled
                  else Z.testbit (chain_call_actions h) n).
Proof.
  intros Ha Hn. unfold xdp_program__set_chain_call_enabled, u32.
  destruct enabled; cbn [chain_call_actions set_chain_call_actions];
    (destruct (Z.ltb_spec n 32) as [Hlt|Hge]; cbn [andb];
     [rewrite Z.mod_pow2_bits_low by lia
     |by rewrite Z.mod_pow2_bits_high by lia]).
  - rewrite Z.lor_spec, Z.shiftl_spec by lia.
    destruct (Z.eqb_spec n act) as [->|Hne].
    + rewrite Z.sub_diag. cbn. apply orb_true_r.
    + destruct (Z.ltb_spec n act).
      * rewrite (Z.testbit_neg_r 1 (n - act)) by lia. apply orb_false_r.
      * rewrite (Z.bits_above_log2 1 (n - act)); [apply orb_false_r|lia|].
        cbn. lia.
  - rewrite Z.land_spec, Z.lnot_spec, Z.shiftl_spec by lia.
    destruct (Z.eqb_spec n act) as [->|Hne].
    + rewrite Z.sub_diag. cbn. apply andb_false_r.
    + destruct (Z.ltb_spec n act).
      * rewrite (Z.testbit_neg_r 1 (n - act)) by lia. apply andb_true_r.
      * rewrite (Z.bits_above_log2 1 (n - act)); [apply andb_true_r|lia|].
        cbn. lia.
Qed.

Lemma set_bit_identity h act enabled :
  same_identity h (xdp_program__set_chain_call_enabled h act enabled)
  ∧ run_prio (xdp_program__set_chain_call_enabled h act enabled)
    = run_prio h.
Proof. by destruct enabled. Qed.

Lemma same_identity_trans h1 h2 h3 :
  same_identity h1 h2 → same_identity h2 h3 → same_identity h1 h3.
Proof.
  unfold same_identity.
  intros (? & ? & ? & ? & ? & ? & ? & ? & ? & ?)
         (? & ? & ? & ? & ? & ? & ? & ? & ? & ?).
  repeat split; congruence.
Qed.

Lemma same_identity_sym h1 h2 : same_identity h1 h2 → same_identity h2 h1.
Proof.
  unfold same_identity. intros (? & ? & ? & ? & ? & ? & ? & ? & ? & ?).
  repeat split; congruence.
Qed.

Lemma handle_eq_bits x y :
  same_identity y x → run_prio x = run_prio y →
  (∀ n, 0 ≤ n → Z.testbit (chain_call_actions x) n
                = Z.testbit (chain_call_actions y) n) →
  x = y.
Proof.
  intros Hid Hp Hbits. apply handle_eq; [done..|]. by apply Z.bits_inj'.
Qed.

Lemma set_bit_override a b b' x :
  0 ≤ a < 32 →
  xdp_program__set_chain_call_enabled
    (xdp_program__set_chain_call_enabled x a b') a b
  = xdp_program__set_chain_call_enabled x a b.
Proof.
  intros Ha. apply handle_eq_bits.
  - eapply same_identity_trans; [apply same_identity_sym, set_bit_identity|].
    eapply same_identity_trans; apply set_bit_identity.
  - by destruct b, b'.
  - intros n Hn. rewrite !set_bit_testbit by done.
    destruct (n <? 32), (n =? a); done.
Qed.

Lemma set_bit_commute a b a' b' x :
  0 ≤ a < 32 → 0 ≤ a' < 32 → a ≠ a' →
  xdp_program__set_chain_call_enabled
    (xdp_program__set_chain_call_enabled x a' b') a b
  = xdp_program__set_chain_call_enabled
      (xdp_program__set_chain_call_enabled x a b) a' b'.
Proof.
  intros Ha Ha' Hne. apply handle_eq_bits.
  - eapply same_identity_trans; [apply same_identity_sym, set_bit_identity|].
    eapply same_identity_trans; [apply same_identity_sym, set_bit_identity|].
    eapply same_identity_trans; apply set_bit_identity.
  - by destruct b, b'.
  - intros n Hn. rewrite !set_bit_testbit by done.
    destruct (n <? 32), (Z.eqb_spec n a), (Z.eqb_spec n a'); try done.
    congruence.
Qed.

(** Two writes commute, or the later one makes the earlier one
    irrelevant. *)
Lemma write_pair f g :
  small_bit f → small_bit g →
  (∀ x, do_write f (do_write g x) = do_write g (do_write f x))
  ∨ (∀ x, do_write f (do_write g x) = do_write f x).
Proof.
  destruct f as [v|a b], g as [v'|a' b']; cbn [small_bit do_write].
  - intros _ _. by right.
  - intros _ _. left. intros x. by destruct b'.
  - intros _ _. left. intros x. by destruct b.
  - intros Ha Ha'. destruct (decide (a = a')) as [<-|Hne].
    + right. intros x. by apply set_bit_override.
    + left. intros x. by apply set_bit_commute.
Qed.

Lemma write_idempotent f x :
  small_bit f → do_write f (do_write f x) = do_write f x.
Proof.
  destruct f as [v|a b]; cbn [small_bit do_write]; [done|].
  apply set_bit_override.
Qed.

Lemma do_writes_snoc ws f x :
  do_writes (ws ++ [f]) x = do_write f (do_writes ws x).
Proof. unfold do_writes. by rewrite fold_left_app. Qed.

Lemma do_writes_absorb f ws :
  small_bit f → Forall small_bit ws →
  ∀ x, do_write f (do_writes ws (do_write f x))
       = do_write f (do_writes ws x).
Proof.
  intros Hf. induction ws as [|g ws IH] using rev_ind.
  { intros _ x. by apply write_idempotent. }
  intros [Hws Hg%Forall_inv]%Forall_app x. rewrite !do_writes_snoc.
  destruct (write_pair f g Hf Hg) as [Hcomm|Hover].
  - by rewrite !Hcomm, IH.
  - by rewrite !Hover, IH.
Qed.

Lemma do_writes_idempotent ws x :
  Forall small_bit ws → do_writes ws (do_writes ws x) = do_writes ws x.
Proof.
  revert x. induction ws as [|f ws IH] using rev_ind; [done|].
  intros x [Hws Hf%Forall_inv]%Forall_app. rewrite !do_writes_snoc.
  by rewrite do_writes_absorb, IH.
Qed.

Lemma parse_members_writes btf ms h h' :
  parse_members btf ms h = Some (0, h') →
  ∃ ws, Forall small_bit ws
        ∧ ∀ x, parse_members btf ms x = Some (0, do_writes ws x).
Proof.
  revert h. induction ms as [|m ms IH]; intros h; cbn [parse_members].
  { intros _. by exists []. }
  destruct (m_name m) as [mname|]; [|by intros [= ? _]].
  destruct (strcmp mname "priority" =? 0).
  - destruct (get_field_int btf m) as [[v|]|]; [|by intros [= ? _]|done].
    intros (ws & Hws & Hrun)%IH. exists (WPrio v :: ws).
    split; [by constructor|]. intros x. apply Hrun.
  - destruct (get_xdp_action mname) as [act|] eqn:Hact;
      [|by intros [= ? _]].
    destruct (get_field_int btf m) as [[v|]|]; [|by intros [= ? _]|done].
    intros (ws & Hws & Hrun)%IH.
    exists (WBit act (negb (v =? 0)) :: ws). split.
    + constructor; [|done]. apply get_xdp_action_range in Hact. cbn. lia.
    + intros x. apply Hrun.
Qed.

Lemma parse_vars_writes btf struct_name vis h h' :
  parse_vars btf struct_name vis h = Some (0, h') →
  ∃ ws, Forall small_bit ws
        ∧ ∀ x, parse_vars btf struct_name vis x = Some (0, do_writes ws x).
Proof.
  induction vis as [|vi vis IH]; cbn [parse_vars]; [by intros [= ? _]|].
  destruct (btf__type_by_id btf (vi_type vi)) as [var|]; [|done].
  destruct (t_name var) as [name|]; [|done].
  destruct (negb (strcmp name struct_name =? 0)); [done|].
  unfold parse_var.
  destruct (negb (btf_is_var var)); [by intros [= ? _]|].
  destruct (btf_var_linkage var) as [linkage|]; [|done].
  destruct (negb (linkage =? BTF_VAR_GLOBAL_ALLOCATED)
            && negb (linkage =? BTF_VAR_STATIC)); [by intros [= ? _]|].
  destruct (skip_mods_and_typedefs btf (t_type var)) as [def|]; [|done].
  destruct (negb (btf_is_struct def)); [by intros [= ? _]|].
  destruct (t_size def >? vi_size vi); [by intros [= ? _]|].
  destruct (btf_members def) as [ms|]; [|done].
  apply parse_members_writes.
Qed.

(** X8. Parsing the metadata is idempotent: a handle that was parsed with
    success parses again with success and comes out unchanged, whatever the
    order and repetition of the members in the struct. *)
Theorem parse_run_config_idempotent btf h h' :
  xdp_parse_run_config btf h = Some (0, h') →
  xdp_parse_run_config btf h' = Some (0, h').
Proof.
  intros Hrun.
  pose proof (xdp_parse_run_config_identity _ _ _ _ Hrun)
    as (_ & _ & _ & _ & _ & _ & Hname & _).
  revert Hrun. unfold xdp_parse_run_config, xdp_program__name.
  destruct btf as [btf|]; [|by intros [= ? _]].
  rewrite Hname. destruct (prog_name h) as [pname|]; [|done].
  destruct (Z.eqb_spec (check_snprintf 100 ("_" +:+ pname)) 0) as [_|Hc];
    cbn [negb]; [|by intros [= ? _]].
  destruct (find_run_config_sec (types btf)) as [[sec|]|];
    [|by intros [= ? _]|done].
  destruct (btf_var_secinfos sec) as [vis|]; [|done].
  intros Hrun.
  destruct (parse_vars_writes _ _ _ _ _ Hrun) as (ws & Hws & Hall).
  rewrite Hall in Hrun. injection Hrun as <-.
  by rewrite Hall, do_writes_idempotent.
Qed.

Lemma parse_run_config_idempotent_witness :
  ∃ h',
    xdp_parse_run_config (Some foo_btf) (blank_handle "foo") = Some (0, h')
    ∧ xdp_parse_run_config (Some foo_btf) h' = Some (0, h').
Proof.
  eexists. split; [vm_compute; reflexivity|].
  apply (parse_run_config_idempotent (Some foo_btf) (blank_handle "foo")).
  vm_compute. reflexivity.
Defined.

(** ** The comparator on handles of one kind *)

Lemma byte_of_inj c d : byte_of c = byte_of d → c = d.
Proof.
  unfold byte_of. intros Heq. apply Nat2Z.inj in Heq.
  by rewrite <- (ascii_nat_embedding c), <- (ascii_nat_embedding d), Heq.
Qed.

Lemma byte_of_nonneg c : 0 ≤ byte_of c.
Proof. unfold byte_of. lia. Qed.

Lemma strcmp_trans3 x y z :
  c_string x → c_string y → c_string z → ordered3 (strcmp x y) (strcmp y z) (strcmp x z).
Proof.
  revert y z. induction x as [|c x IH]; intros [|d y] [|e z] Hx Hy Hz;
    simpl in Hx, Hy, Hz;
    try (pose proof (byte_of_nonneg c)); try (pose proof (byte_of_nonneg d));
    try (pose proof (byte_of_nonneg e));
    try (unfold ordered3; simpl; try destruct (Ascii.eqb _ _); lia).
  destruct Hx as [Hc Hx], Hy as [Hd Hy], Hz as [He Hz].
  specialize (IH y z Hx Hy Hz).
  unfold ordered3 in *; simpl.
  destruct (Ascii.eqb_spec c d) as [->|Hcd],
           (Ascii.eqb_spec d e) as [->|Hde];
    rewrite ?Ascii.eqb_refl; try done.
  - assert (byte_of d ≠ byte_of e) by (intros ?%byte_of_inj; done). lia.
  - apply Ascii.eqb_neq in Hcd as Hcd'. rewrite Hcd'.
    assert (byte_of c ≠ byte_of e) by (intros ?%byte_of_inj; done). lia.
  - assert (byte_of c ≠ byte_of d) by (intros ?%byte_of_inj; done).
    assert (byte_of d ≠ byte_of e) by (intros ?%byte_of_inj; done).
    destruct (Ascii.eqb_spec c e) as [->|Hce]; [lia|].
    assert (byte_of c ≠ byte_of e) by (intros ?%byte_of_inj; done). lia.
Qed.

Lemma memcmp_trans3 n x y z :
  ordered3 (memcmp x y n) (memcmp y z n) (memcmp x z n).
Proof.
  revert x y z. induction n as [|n IH]; intros x y z.
  { unfold ordered3; simpl. lia. }
  specialize (IH (tl x) (tl y) (tl z)). unfold ordered3 in *; simpl.
  destruct (Z.eqb_spec (hd 0 x) (hd 0 y)) as [Hxy|Hxy],
           (Z.eqb_spec (hd 0 y) (hd 0 z)) as [Hyz|Hyz],
           (Z.eqb_spec (hd 0 x) (hd 0 z)) as [Hxz|Hxz]; lia.
Qed.

Lemma lex_trans3 p q r p' q' r' :
  ordered3 p q r → ordered3 p' q' r' →
  ordered3 (lex p p') (lex q q') (lex r r').
Proof.
  unfold ordered3, lex.
  destruct (Z.eqb_spec p 0), (Z.eqb_spec q 0), (Z.eqb_spec r 0); lia.
Qed.

Lemma three_way_trans3 (kx ky kz : Z) :
  ordered3 (if kx =? ky then 0 else if kx <? ky then -1 else 1)
           (if ky =? kz then 0 else if ky <? kz then -1 else 1)
           (if kx =? kz then 0 else if kx <? kz then -1 else 1).
Proof.
  unfold ordered3.
  destruct (Z.eqb_spec kx ky), (Z.eqb_spec ky kz), (Z.eqb_spec kx kz),
           (Z.ltb_spec kx ky), (Z.ltb_spec ky kz), (Z.ltb_spec kx kz); lia.
Qed.

Lemma cmp_loaded_trans3 x y z :
  ordered3 (cmp_loaded x y) (cmp_loaded y z) (cmp_loaded x z).
Proof.
  unfold ordered3, cmp_loaded.
  rewrite !Z.geb_leb.
  destruct (Z.leb_spec 0 (prog_fd x)), (Z.leb_spec 0 (prog_fd y)),
           (Z.leb_spec 0 (prog_fd z)),
           (Z.ltb_spec (prog_fd x) 0), (Z.ltb_spec (prog_fd y) 0),
           (Z.ltb_spec (prog_fd z) 0); simpl; lia.
Qed.

Lemma cmp_size_trans3 x y z :
  (is_Some (bpf_prog x) ↔ is_Some (bpf_prog y)) →
  (is_Some (bpf_prog y) ↔ is_Some (bpf_prog z)) →
  ordered3 (cmp_size x y) (cmp_size y z) (cmp_size x z).
Proof.
  intros Hxy Hyz. unfold ordered3, cmp_size.
  destruct (bpf_prog x) as [px|], (bpf_prog y) as [py|],
           (bpf_prog z) as [pz|]; try lia.
  - apply three_way_trans3.
  - exfalso. by apply (is_Some_None (A:=bpf_program)), Hyz.
  - exfalso. by apply (is_Some_None (A:=bpf_program)), Hxy.
  - exfalso. by apply (is_Some_None (A:=bpf_program)), Hxy.
Qed.

(** The comparator is the lexicographic combination of its six keys. *)
Lemma cmp_xdp_programs_lex a b na nb :
  prog_name a = Some na → prog_name b = Some nb →
  cmp_xdp_programs a b
  = Some (lex (cmp_prio a b)
            (lex (cmp_name a b)
               (lex (cmp_loaded a b)
                  (lex (cmp_size a b) (lex (cmp_tag a b) (cmp_time a b)))))).
Proof.
  intros Ha Hb.
  unfold cmp_xdp_programs, cmp_prio, cmp_name, cmp_loaded, cmp_size, cmp_tag,
    cmp_time, bpf_program__size, lex.
  rewrite Ha, Hb. simpl default.
  generalize (memcmp (prog_tag a) (prog_tag b) BPF_TAG_SIZE). intros m.
  destruct (run_prio a =? run_prio b); simpl; [|by destruct (_ <? _)].
  destruct (strcmp na nb =? 0); simpl; [|done].
  destruct ((prog_fd a >=? 0) && (prog_fd b <? 0)); simpl; [done|].
  destruct ((prog_fd a <? 0) && (prog_fd b >=? 0)); simpl; [done|].
  destruct (bpf_prog a) as [pa|], (bpf_prog b) as [pb|];
    try destruct (bp_size pa =? bp_size pb);
    try destruct (bp_size pa <? bp_size pb);
    destruct (m =? 0), (load_time a =? load_time b),
             (load_time a <? load_time b); reflexivity.
Qed.

(** X10. On three named handles that all carry a [bpf_prog] (built from
    object files) or all carry none (built from kernel ids), the comparator
    is transitive: what is not after and not after again is not after, a
    strict step makes the result strict, and ties compose. *)
Theorem cmp_xdp_programs_transitive a b c na nb nc :
  prog_name a = Some na → prog_name b = Some nb → prog_name c = Some nc →
  c_string na → c_string nb → c_string nc →
  (is_Some (bpf_prog a) ↔ is_Some (bpf_prog b)) →
  (is_Some (bpf_prog b) ↔ is_Some (bpf_prog c)) →
  ∃ rab rbc rac,
    cmp_xdp_programs a b = Some rab ∧ cmp_xdp_programs b c = Some rbc
    ∧ cmp_xdp_programs a c = Some rac
    ∧ (rab ≤ 0 → rbc ≤ 0 → rac ≤ 0)
    ∧ (rab < 0 → rbc ≤ 0 → rac < 0)
    ∧ (rab ≤ 0 → rbc < 0 → rac < 0)
    ∧ (rab = 0 → rbc = 0 → rac = 0).
Proof.
  intros Ha Hb Hc Hca Hcb Hcc Hab Hbc.
  rewrite (cmp_xdp_programs_lex a b na nb), (cmp_xdp_programs_lex b c nb nc),
    (cmp_xdp_programs_lex a c na nc) by done.
  eexists _, _, _. split; [done|]. split; [done|]. split; [done|].
  change (ordered3 (lex (cmp_prio a b)
            (lex (cmp_name a b)
               (lex (cmp_loaded a b)
                  (lex (cmp_size a b) (lex (cmp_tag a b) (cmp_time a b))))))
          (lex (cmp_prio b c)
            (lex (cmp_name b c)
               (lex (cmp_loaded b c)
                  (lex (cmp_size b c) (lex (cmp_tag b c) (cmp_time b c))))))
          (lex (cmp_prio a c)
            (lex (cmp_name a c)
               (lex (cmp_loaded a c)
                  (lex (cmp_size a c) (lex (cmp_tag a c) (cmp_time a c))))))).
  repeat apply lex_trans3.
  - apply three_way_trans3.
  - unfold cmp_name. rewrite Ha, Hb, Hc. by apply strcmp_trans3.
  - apply cmp_loaded_trans3.
  - by apply cmp_size_trans3.
  - apply memcmp_trans3.
  - apply three_way_trans3.
Qed.

Lemma cmp_xdp_programs_transitive_witness :
  ∃ rab rbc rac,
    cmp_xdp_programs (unloaded_handle 10 100) (unloaded_handle 10 200)
    = Some rab
    ∧ cmp_xdp_programs (unloaded_handle 10 200) (unloaded_handle 20 50)
      = Some rbc
    ∧ cmp_xdp_programs (unloaded_handle 10 100) (unloaded_handle 20 50)
      = Some rac
    ∧ (rab ≤ 0 → rbc ≤ 0 → rac ≤ 0)
    ∧ (rab < 0 → rbc ≤ 0 → rac < 0)
    ∧ (rab ≤ 0 → rbc < 0 → rac < 0)
    ∧ (rab = 0 → rbc = 0 → rac = 0).
Proof.
  apply (cmp_xdp_programs_transitive _ _ _ "xdp_main" "xdp_main" "xdp_main");
    try reflexivity;
    try (unfold byte_of; simpl; repeat split; discriminate);
    split; intros _; simpl; eauto.
Defined.

Lemma cmp_xdp_programs_antisym_witness :
  ∃ r', cmp_xdp_programs (unloaded_handle 20 50) (unloaded_handle 10 100)
        = Some r' ∧ Z.sgn r' = - Z.sgn (-1).
Proof.
  apply (cmp_xdp_programs_antisym (unloaded_handle 10 100)
           (unloaded_handle 20 50) (-1)).
  reflexivity.
Defined.

(** ** Mount resolver and lock *)

Lemma find_bpffs_Some w m wf :
  find_bpffs w = Some (Some m, wf) →
  w_mnt_cache wf = Some m ∧ w_fs wf = w_fs w ∧ w_fds wf = w_fds w
  ∧ w_dir_cache wf = w_dir_cache w.
Proof.
  unfold find_bpffs, bpf_find_mntpt_single, bpf_is_valid_mntpt, statfs,
    get_world, modify, mbind, M_bind, bind, ret.
  destruct (w_mnt_cache w) eqn:Hc; [by intros [= <- <-]|].
  destruct (PATH_MAX <=? _)%nat; [by intros [= <-]|].
  destruct (w_statfs w !! _) as [f_type|]; [|by intros [= <-]].
  destruct (f_type =? BPF_FS_MAGIC); by intros [= <- <-].
Qed.

Lemma check_snprintf_fits n s :
  check_snprintf n s = 0 → (String.length s < n)%nat.
Proof.
  unfold check_snprintf.
  destruct (Nat.ltb_spec (String.length s) n); [done|].
  unfold ENAMETOOLONG. lia.
Qed.

Lemma check_snprintf_neg n s :
  check_snprintf n s ≠ 0 → check_snprintf n s = - ENAMETOOLONG.
Proof. unfold check_snprintf. by destruct (_ <? _)%nat. Qed.

(** X11. The library directory is computed once.  When the first lookup
    succeeds the directory is the cached mount point followed by [/xdp],
    fits a path buffer and exists; from then on every lookup returns it
    without any system call, whatever happened to the file system or the
    environment in between. *)
Theorem get_bpffs_dir_computed_once w dir w1 :
  w_dir_cache w = None →
  get_bpffs_dir w = Some (inr dir, w1) →
  (∃ mnt, dir = mnt +:+ "/xdp" ∧ w_mnt_cache w1 = Some mnt)
  ∧ (String.length dir < PATH_MAX)%nat
  ∧ is_Some (w_fs w1 !! dir)
  ∧ ∀ w2, w_dir_cache w2 = w_dir_cache w1 →
          get_bpffs_dir w2 = Some (inr dir, w2).
Proof.
  intros Hcache.
  unfold get_bpffs_dir, mbind, M_bind, bind, get_world. rewrite Hcache.
  destruct (find_bpffs w) as [[parent wf]|] eqn:Hfind; [|done].
  destruct parent as [parent|]; [|by intros [= <-]].
  apply find_bpffs_Some in Hfind as (Hmnt & Hfs & _ & _).
  destruct (check_snprintf PATH_MAX (parent +:+ "/xdp") =? 0) eqn:Hcheck;
    cbn [negb]; [|by intros [= <-]].
  apply Z.eqb_eq, check_snprintf_fits in Hcheck.
  destruct (mkdir (parent +:+ "/xdp") wf) as [[e wm]|] eqn:Hmkdir; [|done].
  unfold get_errno, modify, ret.
  apply mkdir_inv in Hmkdir
    as [(-> & Hnone & ->)|[(-> & Hsome & ->)|(-> & ->)]];
    cbn [Z.eqb negb andb w_errno set_w_errno set_w_fs].
  - intros [= <- <-]. cbn. split; [by exists parent|]. split; [done|].
    split; [by rewrite lookup_insert_eq|].
    intros w2 Hw2. by apply get_bpffs_dir_cached.
  - change (EEXIST =? EEXIST) with true. cbn [negb andb].
    intros [= <- <-]. cbn. split; [by exists parent|]. split; [done|].
    split; [done|].
    intros w2 Hw2. by apply get_bpffs_dir_cached.
  - change (ENOENT =? EEXIST) with false. cbn [negb andb].
    by intros [= <-].
Qed.

Lemma get_bpffs_dir_computed_once_witness :
  ∃ w1, get_bpffs_dir world0 = Some (inr "/sys/fs/bpf/xdp", w1)
    ∧ (∃ mnt, "/sys/fs/bpf/xdp" = mnt +:+ "/xdp"
              ∧ w_mnt_cache w1 = Some mnt)
    ∧ (String.length "/sys/fs/bpf/xdp" < PATH_MAX)%nat
    ∧ is_Some (w_fs w1 !! "/sys/fs/bpf/xdp")
    ∧ ∀ w2, w_dir_cache w2 = w_dir_cache w1 →
            get_bpffs_dir w2 = Some (inr "/sys/fs/bpf/xdp", w2).
Proof.
  eexists. split; [vm_compute; reflexivity|].
  apply (get_bpffs_dir_computed_once world0); [reflexivity|].
  vm_compute. reflexivity.
Defined.

(** X12. The mount override is not a preference but a replacement: when the
    override variable names a path that is no bpf file system, the lookup
    fails with -ENOENT without probing the default mount point; nothing is
    cached and nothing but [errno] changes. *)
Theorem get_bpffs_dir_override_only w e :
  w_dir_cache w = None → w_mnt_cache w = None →
  w_env_bpffs w = Some e →
  w_statfs w !! e ≠ Some BPF_FS_MAGIC →
  ∃ errno, get_bpffs_dir w = Some (inl (- ENOENT), set_w_errno errno w).
Proof.
  intros Hdir Hmnt Henv Hst.
  unfold get_bpffs_dir, find_bpffs, bpf_find_mntpt_single, bpf_is_valid_mntpt,
    statfs, get_world, modify, mbind, M_bind, bind, ret.
  rewrite Hdir, Hmnt, Henv.
  change (default BPF_DIR_MNT (Some e)) with e.
  destruct (PATH_MAX <=? _)%nat; [by eexists|].
  destruct (w_statfs w !! e) as [f_type|] eqn:Hty; [|by eexists].
  destruct (Z.eqb_spec f_type BPF_FS_MAGIC) as [->|Hne]; [done|].
  exists (w_errno w). by destruct w.
Qed.

Lemma get_bpffs_dir_override_only_witness :
  ∃ errno, get_bpffs_dir world_override
           = Some (inl (- ENOENT), set_w_errno errno world_override).
Proof.
  apply (get_bpffs_dir_override_only world_override "/tmp/nobpf");
    try reflexivity.
  vm_compute. discriminate.
Defined.

Lemma substring_all s n :
  (String.length s ≤ n)%nat → substring 0 n s = s.
Proof.
  revert n. induction s as [|c s IH]; intros [|n] Hn; simpl in *;
    try done; try lia.
  f_equal. apply IH. lia.
Qed.

(** X25. What the mount probe finds.  With an empty cache, [find_bpffs]
    probes exactly one path: the override when the variable is set, the
    default mount point otherwise.  A mount point it returns is that very
    path (the copy into the PATH_MAX buffer never truncates, because a path
    that long already fails the probe), it is a bpf file system, and it is
    cached.  A failed probe caches nothing, so the next call probes
    again. *)
Theorem find_bpffs_probe w r w' :
  w_mnt_cache w = None →
  find_bpffs w = Some (r, w') →
  let p := default BPF_DIR_MNT (w_env_bpffs w) in
  match r with
  | Some m =>
      m = p ∧ (String.length p < PATH_MAX)%nat
      ∧ w_statfs w !! p = Some BPF_FS_MAGIC
      ∧ w' = set_w_mnt_cache (Some p) w
  | None =>
      ((PATH_MAX ≤ String.length p)%nat
       ∨ w_statfs w !! p ≠ Some BPF_FS_MAGIC)
      ∧ w_mnt_cache w' = None ∧ w_fs w' = w_fs w ∧ w_fds w' = w_fds w
  end.
Proof.
  intros Hcache. cbv zeta.
  unfold find_bpffs, bpf_find_mntpt_single, bpf_is_valid_mntpt, statfs,
    get_world, modify, mbind, M_bind, bind, ret.
  rewrite Hcache.
  set (p := default BPF_DIR_MNT (w_env_bpffs w)).
  destruct (Nat.leb_spec PATH_MAX (String.length p)) as [Hlong|Hfits].
  { intros [= <- <-]. cbn. auto. }
  destruct (w_statfs w !! p) as [f_type|] eqn:Hty.
  2: { intros [= <- <-]. cbn. split; [by right|done]. }
  destruct (Z.eqb_spec f_type BPF_FS_MAGIC) as [->|Hne].
  - intros [= <- <-].
    rewrite substring_all by (unfold PATH_MAX in Hfits; lia). done.
  - intros [= <- <-]. split; [|done]. right. congruence.
Qed.

Lemma find_bpffs_probe_witness :
  let p := default BPF_DIR_MNT (w_env_bpffs world_override) in
  ((PATH_MAX ≤ String.length p)%nat
   ∨ w_statfs world_override !! p ≠ Some BPF_FS_MAGIC)
  ∧ w_mnt_cache world_override = None
  ∧ w_fs world_override = w_fs world_override
  ∧ w_fds world_override = w_fds world_override.
Proof.
  apply (find_bpffs_probe world_override None world_override).
  - reflexivity.
  - vm_compute. reflexivity.
Defined.

Lemma get_bpffs_dir_error w err w' :
  get_bpffs_dir w = Some (inl err, w') → err < 0.
Proof.
  unfold get_bpffs_dir, mbind, M_bind, bind, get_world.
  destruct (w_dir_cache w); [done|].
  destruct (find_bpffs w) as [[parent wf]|]; [|done].
  destruct parent as [parent|];
    [|intros [= <- _]; unfold ENOENT; lia].
  destruct (Z.eqb_spec (check_snprintf PATH_MAX (parent +:+ "/xdp")) 0)
    as [Hc|Hc]; cbn [negb].
  2: { intros [= <- _]. rewrite (check_snprintf_neg _ _ Hc).
       unfold ENAMETOOLONG. lia. }
  destruct (mkdir (parent +:+ "/xdp") wf) as [[e wm]|] eqn:Hmkdir; [|done].
  unfold get_errno, modify, ret.
  apply mkdir_inv in Hmkdir
    as [(-> & Hnone & ->)|[(-> & Hsome & ->)|(-> & ->)]];
    cbn [Z.eqb negb andb w_errno set_w_errno set_w_fs]; try done.
  change (ENOENT =? EEXIST) with false. cbn [negb andb].
  intros [= <- _]. unfold ENOENT. lia.
Qed.

Lemma xdp_lock_acquire_inv w r w1 :
  xdp_lock_acquire w = Some (r, w1) →
  (r < 0 ∧ w_fds w1 = w_fds w)
  ∨ (0 ≤ r ∧ w_fds w !! r = None ∧ flock_answer w = 0%N
     ∧ ∃ dir, w_dir_cache w1 = Some dir ∧ w_fs w1 !! dir = Some Dir
       ∧ w_fds w1 = <[r := FdDir dir]> (w_fds w)).
Proof.
  unfold xdp_lock_acquire, mbind, M_bind, bind.
  destruct (get_bpffs_dir w) as [[[err|dir] wd]|] eqn:Hdir; [| |done].
  { intros [= <- <-]. left.
    pose proof (get_bpffs_dir_error _ _ _ Hdir).
    by apply get_bpffs_dir_inv in Hdir as (-> & _). }
  assert (w_flock wd = w_flock w) as Hflock.
  { revert Hdir. unfold get_bpffs_dir, mbind, M_bind, bind, get_world.
    destruct (w_dir_cache w); [by intros [= _ <-]|].
    destruct (find_bpffs w) as [[parent wf]|] eqn:Hfind; [|done].
    assert (w_flock wf = w_flock w) as <-.
    { revert Hfind.
      unfold find_bpffs, bpf_find_mntpt_single, bpf_is_valid_mntpt, statfs,
        get_world, modify, mbind, M_bind, bind, ret.
      destruct (w_mnt_cache w); [by intros [= <- <-]|].
      destruct (PATH_MAX <=? _)%nat; [by intros [= <- <-]|].
      destruct (w_statfs w !! _) as [f_type|]; [|by intros [= <- <-]].
      destruct (f_type =? BPF_FS_MAGIC); by intros [= <- <-]. }
    destruct parent as [parent|]; [|done].
    destruct (negb (check_snprintf PATH_MAX (parent +:+ "/xdp") =? 0));
      [done|].
    destruct (mkdir (parent +:+ "/xdp") wf) as [[e wm]|] eqn:Hmkdir; [|done].
    unfold get_errno, modify, ret.
    assert (w_flock wm = w_flock wf) as <-.
    { apply mkdir_inv in Hmkdir
        as [(-> & Hnone & ->)|[(-> & Hsome & ->)|(-> & ->)]]; by cbn. }
    destruct (negb (e =? 0) && negb (w_errno wm =? EEXIST));
      by intros [= _ <-]. }
  apply get_bpffs_dir_inv in Hdir as (Hfds & _ & Hcache & _).
  pose proof (xdp_lock_acquire_cached wd dir Hcache) as Hrun.
  unfold xdp_lock_acquire, mbind, M_bind, bind in Hrun.
  rewrite (get_bpffs_dir_cached _ dir) in Hrun by done. rewrite Hrun.
  assert (flock_answer wd = flock_answer w) as Hanswer
    by (unfold flock_answer; by rewrite Hflock).
  destruct (w_fs wd !! dir) as [[|o]|] eqn:Hnode.
  - destruct (decide (flock_answer wd = 0%N)) as [Hgrant|Hrefuse].
    + intros [= <- <-]. right.
      pose proof (alloc_fd_nonneg (w_fds wd)) as Hnn%Z.ltb_ge.
      rewrite <- Hfds. split; [done|]. split; [apply alloc_fd_fresh|].
      split; [by rewrite <- Hanswer|]. exists dir.
      cbn [w_dir_cache w_fs w_fds set_w_fds].
      by rewrite after_flock_dir_cache, after_flock_fs.
    + intros [= <- <-]. left. rewrite after_flock_fds, Hfds.
      split; [lia|done].
  - intros [= <- <-]. left. by rewrite <- Hfds.
  - intros [= <- <-]. left. by rewrite <- Hfds.
Qed.

Lemma xdp_lock_release_restores w fd d fds :
  fds !! fd = None → w_fds w = <[fd := d]> fds →
  ∃ w2, xdp_lock_release fd w = Some (- Z.of_N (flock_answer w), w2)
        ∧ w_fds w2 = fds ∧ w_fs w2 = w_fs w.
Proof.
  intros Hfree Hfds. eexists. split.
  { apply (xdp_lock_release_open _ _ d). by rewrite Hfds, lookup_insert_eq. }
  cbn [w_fds w_fs set_w_fds]. rewrite after_flock_fs.
  by rewrite Hfds, delete_insert_id.
Qed.

(** X13. The lock never leaks a descriptor.  An acquire that fails, be it
    that the directory cannot be opened or that the kernel refuses the lock
    on the descriptor just opened, leaves the descriptor table as it was.
    One that succeeds was granted the lock and returns a descriptor that
    was free, opened on the library directory; releasing it returns the
    kernel's answer to the unlock, negated, and restores the table whatever
    that answer is. *)
Theorem xdp_lock_round_trip w r w1 :
  xdp_lock_acquire w = Some (r, w1) →
  (r < 0 ∧ w_fds w1 = w_fds w)
  ∨ (0 ≤ r ∧ w_fds w !! r = None ∧ flock_answer w = 0%N
     ∧ ∃ dir, w_dir_cache w1 = Some dir ∧ w_fs w1 !! dir = Some Dir
       ∧ w_fds w1 = <[r := FdDir dir]> (w_fds w)
       ∧ ∃ w2, xdp_lock_release r w1
               = Some (- Z.of_N (flock_answer w1), w2)
           ∧ w_fds w2 = w_fds w ∧ w_fs w2 = w_fs w1).
Proof.
  intros [?|(Hpos & Hfree & Hgrant & dir & Hcache & Hnode & Hfds)]
    %xdp_lock_acquire_inv; [by left|right].
  split; [done|]. split; [done|]. split; [done|]. exists dir.
  split; [done|]. split; [done|]. split; [done|].
  destruct (xdp_lock_release_restores w1 r (FdDir dir) (w_fds w) Hfree Hfds)
    as (w2 & Hrel & Hfds2 & Hfs2).
  by exists w2.
Qed.

Lemma xdp_lock_round_trip_witness :
  ∃ w1, xdp_lock_acquire world_intr = Some (- EINTR, w1)
    ∧ ((- EINTR < 0 ∧ w_fds w1 = w_fds world_intr)
       ∨ (0 ≤ - EINTR ∧ w_fds world_intr !! (- EINTR) = None
          ∧ flock_answer world_intr = 0%N
          ∧ ∃ dir, w_dir_cache w1 = Some dir ∧ w_fs w1 !! dir = Some Dir
            ∧ w_fds w1 = <[- EINTR := FdDir dir]> (w_fds world_intr)
            ∧ ∃ w2, xdp_lock_release (- EINTR) w1
                    = Some (- Z.of_N (flock_answer w1), w2)
                ∧ w_fds w2 = w_fds world_intr ∧ w_fs w2 = w_fs w1)).
Proof.
  eexists. split; [vm_compute; reflexivity|].
  apply (xdp_lock_round_trip world_intr). vm_compute. reflexivity.
Defined.

(** The lock is granted in [world_links]: descriptor 5 is opened on the
    library directory, and the release closes it. *)
Lemma xdp_lock_example :
  ∃ w1 w2,
    xdp_lock_acquire world_links = Some (5, w1)
    ∧ w_fds w1 !! 5 = Some (FdDir "/sys/fs/bpf/xdp")
    ∧ xdp_lock_release 5 w1 = Some (0, w2)
    ∧ w_fds w2 = w_fds world_links.
Proof.
  eexists _, _. split; [vm_compute; reflexivity|].
  split; [by vm_compute|]. split; [vm_compute; reflexivity|].
  by vm_compute.
Qed.

(** ** Pin store: footprint *)

Lemma bpf_obj_pin_frame fd buf w e w2 :
  bpf_obj_pin fd buf w = Some (e, w2) →
  w_fds w2 = w_fds w ∧ (e = 0 ∨ e = -1).
Proof.
  unfold bpf_obj_pin, sys_fail. intros Hrun.
  repeat (case_match; simplify_eq); cbn; auto.
Qed.

Lemma unlink_frame path w e w2 :
  unlink path w = Some (e, w2) → w_fds w2 = w_fds w ∧ (e = 0 ∨ e = -1).
Proof.
  unfold unlink, sys_fail. intros Hrun.
  repeat (case_match; simplify_eq); cbn; auto.
Qed.

Lemma strdup_frame s w r w2 :
  strdup s w = Some (r, w2) → w_fds w2 = w_fds w ∧ w_fs w2 = w_fs w.
Proof.
  unfold strdup, malloc, mbind, M_bind, bind, ret.
  destruct (malloc_succeeds w); by intros [= <- <-].
Qed.

Lemma pin_loop_frame n i path err progs w r unwind progs' w' :
  err ≤ 0 →
  pin_loop n i path err progs w = Some ((r, unwind, progs'), w') →
  w_fds w' = w_fds w ∧ r ≤ 0 ∧ length progs' = length progs.
Proof.
  revert i err progs w.
  induction n as [|n IH]; intros i err progs w Herr; simpl.
  { by intros [= <- <- <- <-]. }
  destruct (progs !! i) as [prog|]; [|by unfold fault].
  destruct (link_fd prog <? 0); [by intros [= <- <- <- <-]|].
  set (buf := path +:+ "/link-prog" +:+ fmt_d (Z.of_nat i)).
  destruct (Z.eqb_spec (check_snprintf PATH_MAX buf) 0) as [Hc|Hc];
    cbn [negb].
  2: { intros [= <- <- <- <-]. rewrite (check_snprintf_neg _ _ Hc).
       by repeat split. }
  unfold mbind, M_bind, bind.
  destruct (bpf_obj_pin (link_fd prog) buf w) as [[e w2]|] eqn:Hpin; [|done].
  apply bpf_obj_pin_frame in Hpin as (Hfds2 & [-> | ->]); cbn [Z.eqb negb].
  2: { by intros [= <- <- <- <-]. }
  destruct (strdup path w2) as [[name w3]|] eqn:Hdup; [|done].
  apply strdup_frame in Hdup as (Hfds3 & _).
  destruct name as [name|].
  - intros (Hfds & Hr & Hlen)%IH; [|done].
    rewrite Hfds, Hfds3, Hfds2, Hlen, length_insert. done.
  - destruct (unlink path w3) as [[e w4]|] eqn:Hun; [|done].
    apply unlink_frame in Hun as (Hfds4 & _).
    intros [= <- <- <- <-]. rewrite Hfds4, Hfds3, Hfds2, length_insert.
    done.
Qed.

Lemma unpin_loop_frame i progs w progs' w' :
  unpin_loop i progs w = Some (progs', w') →
  w_fds w' = w_fds w ∧ length progs' = length progs.
Proof.
  assert (∀ i progs w progs1 w1,
    match progs !! i with
    | None => fault
    | Some prog =>
        match link_pin_path prog with
        | None => ret progs
        | Some path =>
            _ ← unlink path;
            _ ← free (Some path);
            ret (<[i := set_link_pin_path None prog]> progs)
        end
    end w = Some (progs1, w1) →
    w_fds w1 = w_fds w ∧ length progs1 = length progs) as Hbody.
  { clear. intros i progs w progs1 w1.
    destruct (progs !! i) as [prog|]; [|by unfold fault].
    destruct (link_pin_path prog) as [path|]; [|by intros [= <- <-]].
    unfold mbind, M_bind, bind.
    destruct (unlink path w) as [[e w2]|] eqn:Hun; [|done].
    apply unlink_frame in Hun as (Hfds2 & _).
    intros [= <- <-]. by rewrite length_insert. }
  revert progs w. induction i as [|i IH]; intros progs w; simpl;
    unfold mbind at 1, M_bind at 1, bind at 1;
    destruct (match progs !! _ with
              | None => fault
              | Some _ => _
              end w) as [[progs1 w1]|] eqn:Hstep; try done;
    apply Hbody in Hstep as (Hfds1 & Hlen1).
  - intros [= <- <-]. done.
  - intros (Hfds & Hlen)%IH. by rewrite Hfds, Hlen.
Qed.

Lemma mkdir_frame path w e w2 :
  mkdir path w = Some (e, w2) →
  w_fds w2 = w_fds w ∧ (e = 0 ∨ e = -1 ∧ w_errno w2 = EEXIST
                        ∨ e = -1 ∧ w_errno w2 = ENOENT).
Proof.
  intros [(-> & _ & ->)|[(-> & _ & ->)|(-> & ->)]]%mkdir_inv; cbn; auto.
Qed.

(** X14. Pinning never leaks the lock: on every path through
    [pin_multiprog], whether it succeeds, fails early, is refused the lock
    by the kernel on the descriptor it opened, or unwinds, the descriptor
    table is afterwards what it was before; the array keeps its length and
    the result is zero or negative. *)
Theorem pin_multiprog_keeps_descriptors dfd progs w r progs' w' :
  pin_multiprog dfd progs w = Some ((r, progs'), w') →
  w_fds w' = w_fds w ∧ r ≤ 0 ∧ length progs' = length progs.
Proof.
  unfold pin_multiprog, mbind, M_bind, bind.
  destruct (get_bpffs_dir w) as [[[err|dir] wa]|] eqn:Hdir; [| |done].
  { pose proof (get_bpffs_dir_error _ _ _ Hdir).
    apply get_bpffs_dir_inv in Hdir as (Hfds & _).
    intros [= <- <- <-]. repeat split; try done; lia. }
  apply get_bpffs_dir_inv in Hdir as (Hfds & _).
  destruct (bpf_obj_get_info_by_fd dfd wa) as [[[e info] wb]|] eqn:Hinfo;
    [|done].
  assert (w_fds wb = w_fds wa ∧ (e = 0 ∨ e = -1)) as (Hfdsb & He).
  { unfold bpf_obj_get_info_by_fd in Hinfo.
    repeat (case_match; simplify_eq); cbn; auto. }
  destruct He as [-> | ->]; cbn [Z.eqb negb].
  2: { intros [= <- <- <-]. by rewrite Hfdsb, Hfds. }
  destruct (xdp_lock_acquire wb) as [[lock wl]|] eqn:Hlock; [|done].
  apply xdp_lock_acquire_inv in Hlock
    as [(Hneg & Hfdsl)|(Hpos & Hfree & _ & ldir & _ & _ & Hfdsl)].
  { apply Z.ltb_lt in Hneg as Hneg'. rewrite Hneg'.
    intros [= <- <- <-]. rewrite Hfdsl, Hfdsb, Hfds.
    repeat split; try done; lia. }
  apply Z.ltb_ge in Hpos as Hpos'. rewrite Hpos'.
  set (path := dir +:+ "/dispatch-" +:+ fmt_d (info_id info)).
  destruct (Z.eqb_spec (check_snprintf PATH_MAX path) 0) as [Hc|Hc];
    cbn [negb].
  2: { destruct (xdp_lock_release_restores wl lock _ _ Hfree Hfdsl)
         as (w2 & -> & Hfds2 & _).
       intros [= <- <- <-]. rewrite (check_snprintf_neg _ _ Hc).
       by rewrite Hfds2, Hfdsb, Hfds. }
  destruct (mkdir path wl) as [[e wc]|] eqn:Hmkdir; [|done].
  apply mkdir_frame in Hmkdir as (Hfdsc & He).
  unfold get_errno.
  assert (e ≤ 0) as Hele by (destruct He as [->|[[-> _]|[-> _]]]; lia).
  destruct (negb (e =? 0) && negb (w_errno wc =? EEXIST)) eqn:Hcond.
  { rewrite Hfdsl in Hfdsc.
    destruct (xdp_lock_release_restores wc lock _ _ Hfree Hfdsc)
      as (w2 & -> & Hfds2 & _).
    intros [= <- <- <-]. rewrite Hfds2, Hfdsb, Hfds.
    destruct He as [->|[[-> Hno]|[-> Hno]]]; [done| |];
      rewrite Hno in *; [done|]. by repeat split. }
  destruct (pin_loop (length progs) 0 path e progs wc)
    as [[[[r1 unwind] progs1] wd]|] eqn:Hloop; [|done].
  apply pin_loop_frame in Hloop as (Hfdsd & Hr1 & Hlen1); [|done].
  destruct (match unwind with
            | Some i => unpin_loop i progs1
            | None => ret progs1
            end wd) as [[progs2 we]|] eqn:Hunwind; [|done].
  assert (w_fds we = w_fds wd ∧ length progs2 = length progs1)
    as (Hfdse & Hlen2).
  { destruct unwind as [i|]; [by apply unpin_loop_frame in Hunwind|].
    by injection Hunwind as <- <-. }
  rewrite Hfdsd, Hfdsc, Hfdsl in Hfdse.
  destruct (xdp_lock_release_restores we lock _ _ Hfree Hfdse)
    as (w2 & -> & Hfds2 & _).
  intros [= <- <- <-]. by rewrite Hfds2, Hfdsb, Hfds, Hlen2, Hlen1.
Qed.

Lemma pin_multiprog_keeps_descriptors_witness :
  ∃ progs' w',
    pin_multiprog 3 [linked_handle] world_intr
    = Some ((- EINTR, progs'), w')
    ∧ w_fds w' = w_fds world_intr ∧ - EINTR ≤ 0
    ∧ length progs' = length [linked_handle].
Proof.
  eexists _, _. split; [vm_compute; reflexivity|].
  apply (pin_multiprog_keeps_descriptors 3 [linked_handle] world_intr).
  vm_compute. reflexivity.
Defined.

(** The same on the unwind path: the second handle is not linked. *)
Lemma pin_multiprog_unwind_example :
  ∃ progs' w',
    pin_multiprog 3 [linked_handle; unlinked_handle] world_links
    = Some ((- EINVAL, progs'), w')
    ∧ w_fds w' = w_fds world_links.
Proof. eexists _, _. split; [vm_compute; reflexivity|]. by vm_compute. Qed.

Lemma dirs_added_refl fs : dirs_added fs fs.
Proof. intros k. by left. Qed.

Lemma dirs_added_trans fs1 fs2 fs3 :
  dirs_added fs1 fs2 → dirs_added fs2 fs3 → dirs_added fs1 fs3.
Proof.
  intros H12 H23 k.
  destruct (H12 k) as [H1|[H1 H1']], (H23 k) as [H2|[H2 H2']].
  - left. congruence.
  - right. split; congruence.
  - right. split; congruence.
  - congruence.
Qed.

Lemma get_bpffs_dir_fs w r w' :
  get_bpffs_dir w = Some (r, w') → dirs_added (w_fs w) (w_fs w').
Proof.
  unfold get_bpffs_dir, mbind, M_bind, bind, get_world.
  destruct (w_dir_cache w); [intros [= <- <-] k; by left|].
  destruct (find_bpffs w) as [[parent wf]|] eqn:Hfind; [|done].
  apply find_bpffs_frame in Hfind as (_ & _ & Hfs & _).
  destruct parent as [parent|]; [|intros [= <- <-] k; left; by rewrite Hfs].
  destruct (negb (check_snprintf PATH_MAX (parent +:+ "/xdp") =? 0));
    [intros [= <- <-] k; left; by rewrite Hfs|].
  destruct (mkdir (parent +:+ "/xdp") wf) as [[e wm]|] eqn:Hmkdir; [|done].
  unfold get_errno, modify, ret.
  assert (dirs_added (w_fs w) (w_fs wm)) as Hm.
  { intros k. rewrite <- Hfs.
    apply mkdir_inv in Hmkdir
      as [(-> & Hnone & ->)|[(-> & Hsome & ->)|(-> & ->)]]; cbn;
      try by left.
    destruct (decide (k = parent +:+ "/xdp")) as [->|Hne].
    - right. by rewrite lookup_insert_eq.
    - left. by rewrite lookup_insert_ne. }
  destruct (negb (e =? 0) && negb (w_errno wm =? EEXIST));
    by intros [= <- <-].
Qed.

Lemma xdp_lock_acquire_fs w r w1 :
  xdp_lock_acquire w = Some (r, w1) → dirs_added (w_fs w) (w_fs w1).
Proof.
  unfold xdp_lock_acquire, mbind, M_bind, bind.
  destruct (get_bpffs_dir w) as [[[err|dir] wd]|] eqn:Hdir; [| |done];
    pose proof (get_bpffs_dir_fs _ _ _ Hdir) as Hfs;
    [by intros [= <- <-]|].
  apply get_bpffs_dir_inv in Hdir as (_ & _ & Hcache & _).
  pose proof (xdp_lock_acquire_cached wd dir Hcache) as Hrun.
  unfold xdp_lock_acquire, mbind, M_bind, bind in Hrun.
  rewrite (get_bpffs_dir_cached _ dir) in Hrun by done. rewrite Hrun.
  destruct (w_fs wd !! dir) as [[|o]|] eqn:Hnode;
    try (cbn; by intros [= <- <-]).
  destruct (decide (flock_answer wd = 0%N)); intros [= <- <-];
    cbn [w_fs set_w_fds]; by rewrite after_flock_fs.
Qed.

Lemma close_restores w fd d fds :
  fds !! fd = None → w_fds w = <[fd := d]> fds →
  close fd w = Some (0, set_w_fds fds w).
Proof.
  intros Hfree Hfds. unfold close. rewrite Hfds, lookup_insert_eq.
  by rewrite delete_insert_id.
Qed.

Lemma rmdir_inv path w e w2 :
  rmdir path w = Some (e, w2) →
  w_fds w2 = w_fds w
  ∧ ((e = 0 ∧ w_fs w !! path = Some Dir
      ∧ w_fs w2 = delete path (w_fs w))
     ∨ (e = -1 ∧ w_fs w2 = w_fs w ∧ 0 < w_errno w2)).
Proof.
  unfold rmdir, sys_fail. intros Hrun.
  repeat (case_match; simplify_eq); cbn; split; try done;
    try (right; by repeat split).
  left. by repeat split.
Qed.

Lemma unlink_entries_neg path ents w err w' :
  unlink_entries path ents w = Some (Some err, w') → err < 0.
Proof.
  revert w. induction ents as [|d ents IH]; intros w; cbn [unlink_entries];
    [done|].
  destruct ((strcmp "." d =? 0) || (strcmp ".." d =? 0)); [apply IH|].
  destruct (Z.eqb_spec (check_snprintf PATH_MAX (path +:+ "/" +:+ d)) 0)
    as [Hc|Hc]; cbn [negb].
  2: { intros [= <- _]. by rewrite (check_snprintf_neg _ _ Hc). }
  unfold mbind, M_bind, bind, unlink, sys_fail, get_errno.
  destruct (w_fs w !! _) as [[|o]|]; cbn [Z.eqb negb];
    try (by intros [= <- _]).
  apply IH.
Qed.

(** X15. The footprint of unpinning.  On every path through
    [unpin_multiprog], a lock that the kernel refuses included, the
    descriptor table ends as it began (the directory stream and the lock
    are closed), and the result is zero or negative.
    In the file system an entry is unchanged, or is a directory the
    resolver created, or is a pinned object that was removed, or is a
    directory that was removed, which happens only when the result is
    zero. *)
Theorem unpin_multiprog_footprint dfd w r w' :
  unpin_multiprog dfd w = Some (r, w') →
  w_fds w' = w_fds w ∧ r ≤ 0
  ∧ ∀ k, w_fs w' !! k = w_fs w !! k
         ∨ (w_fs w !! k = None ∧ w_fs w' !! k = Some Dir)
         ∨ (w_fs w' !! k = None ∧ ∃ o, w_fs w !! k = Some (Pinned o))
         ∨ (w_fs w' !! k = None ∧ w_fs w !! k = Some Dir ∧ r = 0).
Proof.
  unfold unpin_multiprog, mbind, M_bind, bind.
  destruct (get_bpffs_dir w) as [[[err|dir] wa]|] eqn:Hdir; [| |done].
  { pose proof (get_bpffs_dir_error _ _ _ Hdir).
    pose proof (get_bpffs_dir_fs _ _ _ Hdir) as Hfsa.
    apply get_bpffs_dir_inv in Hdir as (Hfds & _).
    intros [= <- <-]. split; [done|]. split; [lia|].
    intros k. destruct (Hfsa k) as [?|?]; auto. }
  pose proof (get_bpffs_dir_fs _ _ _ Hdir) as Hfsa.
  apply get_bpffs_dir_inv in Hdir as (Hfds & _).
  destruct (bpf_obj_get_info_by_fd dfd wa) as [[[e info] wb]|] eqn:Hinfo;
    [|done].
  assert (w_fds wb = w_fds wa ∧ w_fs wb = w_fs wa ∧ (e = 0 ∨ e = -1))
    as (Hfdsb & Hfsb & He).
  { unfold bpf_obj_get_info_by_fd in Hinfo.
    repeat (case_match; simplify_eq); cbn; auto. }
  rewrite <- Hfsb in Hfsa. rewrite <- Hfdsb in Hfds. clear Hfsb Hfdsb.
  destruct He as [-> | ->]; cbn [Z.eqb negb].
  2: { intros [= <- <-]. split; [done|]. split; [done|].
       intros k. destruct (Hfsa k) as [?|?]; auto. }
  destruct (xdp_lock_acquire wb) as [[lock wl]|] eqn:Hlock; [|done].
  pose proof (dirs_added_trans _ _ _ Hfsa (xdp_lock_acquire_fs _ _ _ Hlock))
    as Hfsl.
  clear Hfsa.
  apply xdp_lock_acquire_inv in Hlock
    as [(Hneg & Hfdsl)|(Hpos & Hfree & _ & ldir & _ & _ & Hfdsl)].
  { apply Z.ltb_lt in Hneg as Hneg'. rewrite Hneg'.
    intros [= <- <-]. rewrite Hfdsl, Hfds. split; [done|]. split; [lia|].
    intros k. destruct (Hfsl k) as [?|?]; auto. }
  apply Z.ltb_ge in Hpos as Hpos'. rewrite Hpos'.
  set (path := dir +:+ "/dispatch-" +:+ fmt_d (info_id info)).
  destruct (Z.eqb_spec (check_snprintf PATH_MAX path) 0) as [Hc|Hc];
    cbn [negb].
  2: { destruct (xdp_lock_release_restores wl lock _ _ Hfree Hfdsl)
         as (w2 & -> & Hfds2 & Hfs2).
       intros [= <- <-]. rewrite (check_snprintf_neg _ _ Hc), Hfds2, Hfs2.
       split; [done|]. split; [done|].
       intros k. destruct (Hfsl k) as [?|?]; auto. }
  unfold opendir, open_directory, install_fd, sys_fail, get_world,
    mbind, M_bind, bind.
  destruct (w_fs wl !! path) as [[|o]|] eqn:Hnode; cbn [Z.ltb Z.compare ret].
  2, 3: (match goal with
         | |- context [xdp_lock_release _ ?wx] =>
             destruct (xdp_lock_release_restores wx lock (FdDir ldir)
                         (w_fds wb) Hfree Hfdsl) as (w2 & -> & Hfds2 & Hfs2)
         end;
         intros [= <- <-]; rewrite Hfds2, Hfs2; split; [done|];
         split; [done|];
         intros k; destruct (Hfsl k) as [?|?]; auto).
  rewrite alloc_fd_nonneg. cbn [dir_ents dir_fd w_fs set_w_fds].
  set (fd2 := alloc_fd (w_fds wl)).
  set (wo := set_w_fds _ wl).
  unfold ret at 1. cbv beta iota. cbn [dir_ents].
  rewrite unlink_entries_dots. unfold closedir. cbn [dir_fd].
  destruct (unlink_entries_spec path
              (readdir_order wo (dir_entries (w_fs wl) path)) wo)
    as (stopped & eno & fs' & Hrun & Hrem & _).
  rewrite Hrun. cbn in Hrem.
  assert (∀ wx, w_fds wx = w_fds wo → ∀ res : Z,
    (_ ← close fd2; _ ← xdp_lock_release lock; ret res) wx
    = Some (res, set_w_fds (w_fds wb) (after_flock wx))) as Hclose.
  { intros wx Hwx res. unfold mbind, M_bind, bind.
    rewrite (close_restores wx fd2 (FdDir path) (w_fds wl));
      [|apply alloc_fd_fresh|by rewrite Hwx].
    rewrite (xdp_lock_release_open _ _ (FdDir ldir))
      by (cbn; by rewrite Hfdsl, lookup_insert_eq).
    cbn [w_fds set_w_fds]. rewrite Hfdsl, delete_insert_id by done.
    by rewrite after_flock_set_fds. }
  unfold mbind, M_bind, bind in Hclose. cbv beta in Hclose.
  destruct stopped as [err|].
  - cbn [ret]. rewrite Hclose by done.
    apply unlink_entries_neg in Hrun.
    intros [= <- <-]. cbn [w_fds w_fs set_w_fds]. rewrite after_flock_fs. cbn.
    split; [done|]. split; [lia|].
    intros k. destruct (Hrem k) as [Hk|(Hk & o & Ho)].
    + rewrite Hk. destruct (Hfsl k) as [?|?]; auto.
    + destruct (Hfsl k) as [Hl|[_ Hl]]; [|congruence].
      right; right; left. rewrite <- Hl. eauto.
  - destruct (rmdir path (set_w_errno eno (set_w_fs fs' wo)))
      as [[e wr]|] eqn:Hrm; [|done].
    apply rmdir_inv in Hrm as (Hfdsr & Hcase). unfold get_errno.
    cbn [w_fs w_fds set_w_errno set_w_fs] in Hfdsr, Hcase.
    cbn [ret]. rewrite Hclose by done.
    intros [= <- <-]. cbn [w_fds w_fs set_w_fds]. rewrite after_flock_fs.
    split; [done|].
    destruct Hcase as [(-> & Hdirnode & Hfsr)|(-> & Hfsr & Hpos'')];
      cbn [Z.eqb negb] in *.
    + split; [done|]. rewrite Hfsr. intros k.
      destruct (decide (k = path)) as [->|Hne].
      * rewrite lookup_delete_eq.
        destruct (Hfsl path) as [Hl|[Hl Hl']].
        -- right; right; right. rewrite <- Hl. by repeat split.
        -- by left.
      * rewrite lookup_delete_ne by done.
        destruct (Hrem k) as [Hk|(Hk & o & Ho)].
        -- rewrite Hk. destruct (Hfsl k) as [?|?]; auto.
        -- destruct (Hfsl k) as [Hl|[_ Hl]]; [|congruence].
           right; right; left. rewrite <- Hl. eauto.
    + split; [lia|]. rewrite Hfsr. cbn. intros k.
      destruct (Hrem k) as [Hk|(Hk & o & Ho)].
      * rewrite Hk. destruct (Hfsl k) as [?|?]; auto.
      * destruct (Hfsl k) as [Hl|[_ Hl]]; [|congruence].
        right; right; left. rewrite <- Hl. eauto.
Qed.

Lemma unpin_multiprog_footprint_witness :
  ∃ w',
    unpin_multiprog 3 world_intr = Some (- EINTR, w')
    ∧ w_fds w' = w_fds world_intr ∧ - EINTR ≤ 0
    ∧ ∀ k, w_fs w' !! k = w_fs world_intr !! k
           ∨ (w_fs world_intr !! k = None ∧ w_fs w' !! k = Some Dir)
           ∨ (w_fs w' !! k = None
              ∧ ∃ o, w_fs world_intr !! k = Some (Pinned o))
           ∨ (w_fs w' !! k = None ∧ w_fs world_intr !! k = Some Dir
              ∧ - EINTR = 0).
Proof.
  eexists. split; [vm_compute; reflexivity|].
  apply (unpin_multiprog_footprint 3 world_intr).
  vm_compute. reflexivity.
Defined.

(** ** Pin store: what a successful pin records *)

Lemma bpf_obj_pin_ok fd buf w w2 :
  bpf_obj_pin fd buf w = Some (0, w2) →
  ∃ obj, w_fds w !! fd = Some obj ∧ (∀ p, obj ≠ FdDir p)
         ∧ w_fs w !! buf = None
         ∧ w2 = set_w_fs (<[buf := Pinned obj]> (w_fs w)) w.
Proof.
  unfold bpf_obj_pin, sys_fail. intros Hrun.
  repeat (case_match; simplify_eq); eexists; repeat split; done.
Qed.

(** A run of the pin loop to its end: every handle of the range records
    the directory, its link is pinned under its index, one string was
    allocated per handle, and no entry of the file system was lost. *)
Lemma pin_loop_handles n i path err progs w r progs' w' :
  pin_loop n i path err progs w = Some ((r, None, progs'), w') →
  w_nalloc w' = w_nalloc w + Z.of_nat n
  ∧ length progs' = length progs
  ∧ (∀ j, (j < i ∨ i + n ≤ j)%nat → progs' !! j = progs !! j)
  ∧ (∀ j, (i ≤ j < i + n)%nat →
       ∃ prog o,
         progs !! j = Some prog
         ∧ progs' !! j = Some (set_link_pin_path (Some path) prog)
         ∧ 0 ≤ link_fd prog
         ∧ w_fds w !! link_fd prog = Some o ∧ (∀ p, o ≠ FdDir p)
         ∧ w_fs w' !! (path +:+ "/" +:+ link_name j) = Some (Pinned o))
  ∧ (∀ k v, w_fs w !! k = Some v → w_fs w' !! k = Some v).
Proof.
  revert i err progs w.
  induction n as [|n IH]; intros i err progs w; simpl.
  { intros [= <- <- <-]. split; [lia|]. split; [done|]. split; [done|].
    split; [|done]. intros j ?. lia. }
  destruct (progs !! i) as [prog|] eqn:Hprog; [|by unfold fault].
  destruct (Z.ltb_spec (link_fd prog) 0) as [?|Hlink]; [done|].
  rewrite link_path_eq. set (buf := path +:+ "/" +:+ link_name i).
  destruct (check_snprintf PATH_MAX buf =? 0); cbn [negb]; [|done].
  unfold mbind, M_bind, bind.
  destruct (bpf_obj_pin (link_fd prog) buf w) as [[e w2]|] eqn:Hpin; [|done].
  destruct (Z.eqb_spec e 0) as [->|?]; cbn [negb]; [|done].
  apply bpf_obj_pin_ok in Hpin as (obj & Hobj & Hnodir & Hfree & ->).
  unfold strdup, malloc, mbind, M_bind, bind.
  destruct (malloc_succeeds _); cbn [ret].
  2: { by destruct (unlink path _) as [[? ?]|]. }
  intros (Halloc & Hlen & Hout & Hin & Hkeep)%IH.
  assert (i < length progs)%nat as Hlt by by eapply lookup_lt_Some.
  rewrite length_insert in Hlen.
  cbn in Halloc, Hin, Hkeep. split; [lia|]. split; [done|]. split; [|split].
  - intros j Hj. rewrite Hout by lia. apply list_lookup_insert_ne. lia.
  - intros j Hj. destruct (decide (j = i)) as [->|Hne].
    + exists prog, obj. rewrite Hout by lia.
      rewrite list_lookup_insert_eq by done.
      repeat split; try done. apply Hkeep. apply lookup_insert_eq.
    + destruct (Hin j) as (p & o & Hp & Hp' & Hfd & Ho & Hnd & Hfs); [lia|].
      rewrite list_lookup_insert_ne in Hp by lia. by exists p, o.
  - intros k v Hk. apply Hkeep.
    destruct (decide (k = buf)) as [->|Hne]; [congruence|].
    by rewrite lookup_insert_ne.
Qed.

Lemma get_bpffs_dir_nalloc w r w' :
  get_bpffs_dir w = Some (r, w') → w_nalloc w' = w_nalloc w.
Proof.
  unfold get_bpffs_dir, mbind, M_bind, bind, get_world.
  destruct (w_dir_cache w); [by intros [= <- <-]|].
  destruct (find_bpffs w) as [[parent wf]|] eqn:Hfind; [|done].
  assert (w_nalloc wf = w_nalloc w) as Hf.
  { revert Hfind.
    unfold find_bpffs, bpf_find_mntpt_single, bpf_is_valid_mntpt, statfs,
      get_world, modify, mbind, M_bind, bind, ret.
    destruct (w_mnt_cache w); [by intros [= <- <-]|].
    destruct (PATH_MAX <=? _)%nat; [by intros [= <- <-]|].
    destruct (w_statfs w !! _) as [f_type|]; [|by intros [= <- <-]].
    destruct (f_type =? BPF_FS_MAGIC); by intros [= <- <-]. }
  destruct parent as [parent|]; [|by intros [= <- <-]].
  destruct (negb (check_snprintf PATH_MAX (parent +:+ "/xdp") =? 0));
    [by intros [= <- <-]|].
  destruct (mkdir (parent +:+ "/xdp") wf) as [[e wm]|] eqn:Hmkdir; [|done].
  unfold get_errno, modify, ret.
  assert (w_nalloc wm = w_nalloc w) as Hm.
  { apply mkdir_inv in Hmkdir
      as [(-> & Hnone & ->)|[(-> & Hsome & ->)|(-> & ->)]]; by cbn. }
  destruct (negb (e =? 0) && negb (w_errno wm =? EEXIST));
    by intros [= <- <-].
Qed.

(** The run behind a successful pin: the lock descriptor, the world in
    which the loop starts, and the loop's own run. *)
Lemma pin_multiprog_success_run dfd progs w progs1 w1 :
  pin_multiprog dfd progs w = Some ((0, progs1), w1) →
  ∃ dir id info lock wc e wd,
    let path := dir +:+ "/" +:+ dispatch_name (info_id info) in
    w_fds w !! dfd = Some (FdProg id) ∧ w_kprogs w !! id = Some info
    ∧ w_fds w !! lock = None
    ∧ w_fds wc = <[lock := FdDir dir]> (w_fds w)
    ∧ w_nalloc wc = w_nalloc w
    ∧ pin_loop (length progs) 0 path e progs wc
      = Some ((0, None, progs1), wd)
    ∧ w1 = set_w_fds (delete lock (w_fds wd)) (after_flock wd)
    ∧ w_dir_cache wd = Some dir.
Proof.
  unfold pin_multiprog, mbind, M_bind, bind.
  destruct (get_bpffs_dir w) as [[[err|dir] wa]|] eqn:Hdir; [| |done].
  { apply get_bpffs_dir_inv in Hdir as (_ & _ & Hne). absurd_result. }
  pose proof (get_bpffs_dir_nalloc _ _ _ Hdir) as Hna.
  apply get_bpffs_dir_inv in Hdir as (Hfds & Hkprogs & Hcache & Hfsa).
  destruct (bpf_obj_get_info_by_fd dfd wa) as [[[e info] wb]|] eqn:Hinfo;
    [|done].
  apply bpf_obj_get_info_by_fd_inv in Hinfo
    as [(-> & -> & id & Hfd & Hid)|Hne].
  2: { apply Z.eqb_neq in Hne as Hne'. rewrite Hne'. cbn [negb].
       absurd_result. }
  cbn [Z.eqb negb]. rewrite (xdp_lock_acquire_cached _ dir) by done.
  destruct (w_fs wa !! dir) as [[|o]|] eqn:Hdirnode; [|done..].
  destruct (decide (flock_answer wa = 0%N)) as [Hgrant|Hrefuse].
  2: { rewrite flock_error_negative by done. absurd_result. }
  rewrite alloc_fd_nonneg, dispatch_path_eq.
  set (lock := alloc_fd (w_fds wa)).
  set (path := dir +:+ "/" +:+ dispatch_name (info_id info)).
  set (wl := set_w_fds _ (after_flock wa)).
  assert (w_fds wl = <[lock := FdDir dir]> (w_fds wa)) as Hfdsl by done.
  assert (w_nalloc wl = w_nalloc wa) as Hnl by apply after_flock_fields.
  assert (w_dir_cache wl = Some dir) as Hcachel
    by (rewrite <- Hcache; apply after_flock_dir_cache).
  clearbody wl.
  assert (w_fds wl !! lock = Some (FdDir dir)) as Hlock
    by (rewrite Hfdsl; apply lookup_insert_eq).
  destruct (check_snprintf PATH_MAX path =? 0) eqn:Hcheck; cbn [negb].
  2: { rewrite (xdp_lock_release_open _ _ _ Hlock).
       apply Z.eqb_neq in Hcheck. absurd_result. }
  destruct (mkdir path wl) as [[e wc]|] eqn:Hmkdir; [|done].
  assert (path ≠ "") as Hpath by apply entry_path_nonempty.
  unfold get_errno.
  assert (w_fds wc = w_fds wl ∧ w_nalloc wc = w_nalloc wa
          ∧ w_dir_cache wc = Some dir
          ∧ (negb (e =? 0) && negb (w_errno wc =? EEXIST) = false
             ∨ e ≠ 0 ∧ w_errno wc = ENOENT))
    as (Hfdsc & Hnc & Hcachec & Hcond).
  { apply mkdir_inv in Hmkdir
      as [(-> & Hnone & ->)|[(-> & Hsome & ->)|(-> & ->)]]; cbn;
      repeat split; try done; try (by left). by right. }
  destruct Hcond as [->|(Hne & Herrno)].
  2: { apply Z.eqb_neq in Hne as ->. rewrite Herrno. cbn.
       assert (w_fds wc !! lock = Some (FdDir dir)) as Hlockc
         by by rewrite Hfdsc.
       rewrite (xdp_lock_release_open _ _ _ Hlockc). absurd_result. }
  destruct (pin_loop (length progs) 0 path e progs wc)
    as [[[[r unwind] progs'] wd]|] eqn:Hloop; [|done].
  pose proof (pin_loop_inv _ _ _ _ _ _ _ _ _ _ Hpath Hloop) as Hinv.
  destruct unwind as [i|].
  { destruct (unpin_loop i progs' wd) as [[? ?]|]; [|done].
    destruct (xdp_lock_release lock _) as [[? ?]|]; [|done].
    absurd_result. }
  destruct Hinv as (Hfdsd & _ & Hcached & _).
  assert (w_fds wd !! lock = Some (FdDir dir)) as Hlockd
    by by rewrite Hfdsd, Hfdsc.
  cbn [ret]. rewrite (xdp_lock_release_open _ _ _ Hlockd).
  intros [= -> <- <-].
  exists dir, id, info, lock, wc, e, wd. cbn zeta. fold path.
  split; [by rewrite <- Hfds|]. split; [by rewrite <- Hkprogs|].
  split; [rewrite <- Hfds; apply alloc_fd_fresh|].
  split; [by rewrite Hfdsc, Hfdsl, <- Hfds|].
  split; [by rewrite Hnc|]. split; [done|]. split; [done|].
  by rewrite Hcached.
Qed.

(** X16. What a successful pin records.  When [pin_multiprog] returns 0,
    there is one directory, named after the dispatcher's kernel id below
    the library directory, such that handle [i] of the array now holds a
    copy of that directory's path and the object behind its link
    descriptor is pinned there as [link-prog<i>]; nothing else of the
    handles changes, and one string per handle was allocated. *)
Theorem pin_multiprog_records dfd progs w progs1 w1 :
  pin_multiprog dfd progs w = Some ((0, progs1), w1) →
  ∃ dir id info,
    let path := dir +:+ "/" +:+ dispatch_name (info_id info) in
    w_fds w !! dfd = Some (FdProg id) ∧ w_kprogs w !! id = Some info
    ∧ w_dir_cache w1 = Some dir
    ∧ length progs1 = length progs
    ∧ w_nalloc w1 = w_nalloc w + Z.of_nat (length progs)
    ∧ ∀ i prog, progs !! i = Some prog →
        progs1 !! i = Some (set_link_pin_path (Some path) prog)
        ∧ 0 ≤ link_fd prog
        ∧ ∃ o, w_fds w !! link_fd prog = Some o
               ∧ w_fs w1 !! (path +:+ "/" +:+ link_name i)
                 = Some (Pinned o).
Proof.
  intros Hrun.
  destruct (pin_multiprog_success_run _ _ _ _ _ Hrun)
    as (dir & id & info & lock & wc & e & wd & Hfd & Hid & Hfree & Hfdsc
        & Hnc & Hloop & -> & Hcache).
  exists dir, id, info. cbn zeta.
  apply pin_loop_handles in Hloop as (Halloc & Hlen & _ & Hin & _).
  split; [done|]. split; [done|].
  split; [by rewrite <- Hcache; apply after_flock_dir_cache|].
  split; [done|].
  split. { cbn [w_nalloc set_w_fds].
           destruct (after_flock_fields wd) as (_ & _ & _ & _ & _ & _ & -> & _).
           lia. }
  intros i prog Hprog.
  destruct (Hin i) as (p & o & Hp & Hp' & Hlink & Ho & Hnodir & Hfs).
  { apply lookup_lt_Some in Hprog. lia. }
  assert (p = prog) as -> by congruence.
  split; [done|]. split; [done|]. exists o.
  split; [|by cbn [w_fs set_w_fds]; rewrite after_flock_fs].
  rewrite Hfdsc in Ho.
  destruct (decide (link_fd prog = lock)) as [Heq|Hne].
  - rewrite Heq, lookup_insert_eq in Ho. injection Ho as <-.
    by destruct (Hnodir dir).
  - by rewrite lookup_insert_ne in Ho.
Qed.

Lemma pin_multiprog_records_witness :
  ∃ progs1 w1,
    pin_multiprog 3 [linked_handle] world_links = Some ((0, progs1), w1)
    ∧ ∃ dir id info,
        let path := dir +:+ "/" +:+ dispatch_name (info_id info) in
        w_fds world_links !! 3 = Some (FdProg id)
        ∧ w_kprogs world_links !! id = Some info
        ∧ w_dir_cache w1 = Some dir
        ∧ length progs1 = length [linked_handle]
        ∧ w_nalloc w1
          = w_nalloc world_links + Z.of_nat (length [linked_handle])
        ∧ ∀ i prog, [linked_handle] !! i = Some prog →
            progs1 !! i = Some (set_link_pin_path (Some path) prog)
            ∧ 0 ≤ link_fd prog
            ∧ ∃ o, w_fds world_links !! link_fd prog = Some o
                   ∧ w_fs w1 !! (path +:+ "/" +:+ link_name i)
                     = Some (Pinned o).
Proof.
  eexists _, _. split; [vm_compute; reflexivity|].
  apply (pin_multiprog_records 3 [linked_handle] world_links).
  vm_compute. reflexivity.
Defined.

(** ** Handle factories *)

Lemma parse_run_config_of_inv h w err h' w' :
  parse_run_config_of h w = Some ((err, h'), w') →
  w' = w ∧ same_identity h h'
  ∧ (btf h = None → err = - ENOENT ∧ h' = h).
Proof.
  unfold parse_run_config_of.
  destruct (btf h) as [p|] eqn:Hbtf.
  - destruct (w_btfs w !! p) as [b|]; [|done].
    destruct (xdp_parse_run_config (Some b) h) as [[e h1]|] eqn:Hparse;
      [|done].
    intros [= <- <- <-]. split; [done|]. split; [|done].
    by eapply xdp_parse_run_config_identity.
  - cbn. intros [= <- <- <-]. split; [done|].
    split; [apply same_identity_refl|done].
Qed.

(** Everything a successful [xdp_program__from_id] did. *)
Lemma from_id_inv id w h w' :
  xdp_program__from_id id w = Some (inr h, w') →
  ∃ info,
    w_kprogs w !! id = Some info
    ∧ 0 ≤ prog_fd h ∧ w_fds w !! prog_fd h = None
    ∧ w_fds w' = <[prog_fd h := FdProg id]> (w_fds w)
    ∧ prog_name h = Some (info_name info)
    ∧ prog_tag h = take BPF_TAG_SIZE (info_tag info)
    ∧ load_time h = info_load_time info
    ∧ link_fd h = -1 ∧ link_pin_path h = None
    ∧ bpf_prog h = None ∧ bpf_obj h = None ∧ from_external_obj h = false
    ∧ w_nalloc w' = w_nalloc w + 2
    ∧ w_fs w' = w_fs w
    ∧ (btf h = None →
       run_prio h = XDP_DEFAULT_RUN_PRIO
       ∧ chain_call_actions h = XDP_DEFAULT_CHAIN_CALL_ACTIONS
       ∧ w_btfs w' = w_btfs w)
    ∧ w_objs w' = w_objs w
    ∧ (∀ p, btf h = Some p →
         p = w_next w ∧ ∃ b, w_btfs w' = <[p := b]> (w_btfs w)).
Proof.
  unfold xdp_program__from_id, bpf_prog_get_fd_by_id, mbind, M_bind, bind,
    install_fd, sys_fail.
  destruct (w_kprogs w !! id) as [info|] eqn:Hinfo; [|done].
  rewrite alloc_fd_nonneg.
  set (fd := alloc_fd (w_fds w)). set (w1 := set_w_fds _ w).
  unfold xdp_program__new, malloc, mbind, M_bind, bind.
  destruct (malloc_succeeds w1); cbn [ret]; [|done].
  set (h0 := {| bpf_prog := None |}). set (w2 := count_alloc w1).
  unfold xdp_program__fill_from_fd, mbind, M_bind, bind.
  rewrite (bpf_obj_get_info_by_fd_prog fd w2 id info);
    [|apply lookup_insert_eq|done].
  cbn [Z.eqb negb prog_name h0 ret].
  unfold strdup, malloc, mbind, M_bind, bind.
  destruct (malloc_succeeds w2); cbn [ret bool_decide negb];
    [|by rewrite bool_decide_false by by intros [? ?]].
  rewrite bool_decide_true by eauto. cbn [negb].
  set (w3 := count_alloc w2).
  set (h1 := set_prog_name (Some (info_name info)) h0).
  assert (∀ ob wf,
    w_fds wf = w_fds w1 → w_nalloc wf = w_nalloc w3 → w_fs wf = w_fs w →
    (ob = None → w_btfs wf = w_btfs w) →
    w_objs wf = w_objs w →
    (∀ p, ob = Some p →
       p = w_next w ∧ ∃ b, w_btfs wf = <[p := b]> (w_btfs w)) →
    ('(err, xdp_prog) ← parse_run_config_of
          (set_prog_fd fd
             (set_load_time (info_load_time info)
                (set_prog_tag (take BPF_TAG_SIZE (info_tag info))
                   (set_btf ob h1))));
     if negb (err =? 0) && negb (err =? - ENOENT) then
       _ ← free (Some xdp_prog);
       ret (inl err)
     else ret (inr xdp_prog)) wf = Some (inr h, w') →
    ∃ info0 : bpf_prog_info,
      Some info = Some info0
      ∧ 0 ≤ prog_fd h ∧ w_fds w !! prog_fd h = None
      ∧ w_fds w' = <[prog_fd h := FdProg id]> (w_fds w)
      ∧ prog_name h = Some (info_name info0)
      ∧ prog_tag h = take BPF_TAG_SIZE (info_tag info0)
      ∧ load_time h = info_load_time info0
      ∧ link_fd h = -1 ∧ link_pin_path h = None
      ∧ bpf_prog h = None ∧ bpf_obj h = None ∧ from_external_obj h = false
      ∧ w_nalloc w' = w_nalloc w + 2
      ∧ w_fs w' = w_fs w
      ∧ (btf h = None →
         run_prio h = XDP_DEFAULT_RUN_PRIO
         ∧ chain_call_actions h = XDP_DEFAULT_CHAIN_CALL_ACTIONS
         ∧ w_btfs w' = w_btfs w)
      ∧ w_objs w' = w_objs w
      ∧ (∀ p, btf h = Some p →
           p = w_next w ∧ ∃ b, w_btfs w' = <[p := b]> (w_btfs w)))
    as Hfinish.
  { intros ob wf Hfds Hna Hfs Hbtfs Hobjs Hsome.
    unfold mbind, M_bind, bind.
    destruct (parse_run_config_of _ wf) as [[[err h'] wp]|] eqn:Hparse;
      [|done].
    apply parse_run_config_of_inv in Hparse as (-> & Hid & Hnone).
    destruct (negb (err =? 0) && negb (err =? - ENOENT)); [done|].
    intros [= <- <-]. exists info.
    destruct Hid as (Hbp & Hbo & Hb & Hpf & Hlf & Hlp & Hpn & Hpt & Hlt
                     & Hext).
    cbn in Hbp, Hbo, Hb, Hpf, Hlf, Hlp, Hpn, Hpt, Hlt, Hext.
    rewrite Hpf, Hlf, Hlp, Hpn, Hpt, Hlt, Hbp, Hbo, Hext, Hb.
    pose proof (alloc_fd_nonneg (w_fds w)) as Hnn%Z.ltb_ge.
    split; [done|]. split; [done|]. split; [apply alloc_fd_fresh|].
    split; [by rewrite Hfds|]. do 8 (split; [done|]).
    split; [rewrite Hna; cbn; lia|]. split; [done|].
    split; [|done].
    intros ->. destruct Hnone as [_ ->]; [done|]. cbn. auto. }
  destruct (info_btf_id info =? 0); cbn [negb andb].
  { cbn [ret Z.eqb negb]. intros Hrun.
    apply (Hfinish None w3); try done. }
  rewrite bool_decide_true by done.
  unfold btf__get_from_id.
  destruct (w_kbtfs w3 !! info_btf_id info) as [b|].
  2: { cbn [ret Z.eqb negb]. intros Hrun. apply (Hfinish None w3); done. }
  destruct (malloc_succeeds w3); [|done].
  unfold btf__new, new_address, modify, mbind, M_bind, bind.
  cbn [ret Z.eqb negb]. intros Hrun.
  refine (Hfinish (Some _) _ _ _ _ _ _ _ Hrun); try done.
  intros p [= <-]. split; [done|]. by eexists.
Qed.

(** X17. What a handle built from a kernel id holds.  When
    [xdp_program__from_id] returns a handle, the id names a loaded program;
    the handle owns a descriptor for it that was free before, and carries
    the program's name, tag and load time as the kernel reports them; it has
    no object, no link and no pin; two blocks were allocated (the handle and
    its name).  Without type information the handle keeps the default
    priority and chain-call actions. *)
Theorem from_id_success id w h w' :
  xdp_program__from_id id w = Some (inr h, w') →
  ∃ info,
    w_kprogs w !! id = Some info
    ∧ 0 ≤ prog_fd h ∧ w_fds w !! prog_fd h = None
    ∧ w_fds w' = <[prog_fd h := FdProg id]> (w_fds w)
    ∧ prog_name h = Some (info_name info)
    ∧ prog_tag h = take BPF_TAG_SIZE (info_tag info)
    ∧ load_time h = info_load_time info
    ∧ link_fd h = -1 ∧ link_pin_path h = None
    ∧ bpf_prog h = None ∧ bpf_obj h = None ∧ from_external_obj h = false
    ∧ w_nalloc w' = w_nalloc w + 2
    ∧ w_fs w' = w_fs w
    ∧ (btf h = None →
       run_prio h = XDP_DEFAULT_RUN_PRIO
       ∧ chain_call_actions h = XDP_DEFAULT_CHAIN_CALL_ACTIONS
       ∧ w_btfs w' = w_btfs w).
Proof.
  intros (info & H1 & H2 & H3 & H4 & H5 & H6 & H7 & H8 & H9 & H10 & H11
          & H12 & H13 & H14 & H15 & _)%from_id_inv.
  exists info. repeat split; try done; by apply H15.
Qed.


Lemma from_id_success_witness :
  ∃ h w',
    xdp_program__from_id 22 world0 = Some (inr h, w')
    ∧ ∃ info,
        w_kprogs world0 !! 22 = Some info
        ∧ 0 ≤ prog_fd h ∧ w_fds world0 !! prog_fd h = None
        ∧ w_fds w' = <[prog_fd h := FdProg 22]> (w_fds world0)
        ∧ prog_name h = Some (info_name info)
        ∧ prog_tag h = take BPF_TAG_SIZE (info_tag info)
        ∧ load_time h = info_load_time info
        ∧ link_fd h = -1 ∧ link_pin_path h = None
        ∧ bpf_prog h = None ∧ bpf_obj h = None
        ∧ from_external_obj h = false
        ∧ w_nalloc w' = w_nalloc world0 + 2
        ∧ w_fs w' = w_fs world0
        ∧ (btf h = None →
           run_prio h = XDP_DEFAULT_RUN_PRIO
           ∧ chain_call_actions h = XDP_DEFAULT_CHAIN_CALL_ACTIONS
           ∧ w_btfs w' = w_btfs world0).
Proof.
  eexists _, _. split; [vm_compute; reflexivity|].
  apply (from_id_success 22 world0). vm_compute. reflexivity.
Defined.

(** X24. Freeing a handle built from a kernel id gives back what the
    handle owns.  On a heap where unallocated addresses hold nothing,
    [xdp_program__free] on a handle returned by [xdp_program__from_id]
    closes the program descriptor and frees the type information that was
    fetched for it and the name, so that descriptors, type information,
    objects and the file system are as before [xdp_program__from_id]; of
    the two blocks that were allocated the handle block stays. *)
Theorem from_id_free_round_trip id w h w1 :
  heap_fresh w →
  xdp_program__from_id id w = Some (inr h, w1) →
  ∃ w2, xdp_program__free h w1 = Some (tt, w2)
    ∧ w_fds w2 = w_fds w ∧ w_btfs w2 = w_btfs w ∧ w_objs w2 = w_objs w
    ∧ w_fs w2 = w_fs w ∧ w_nalloc w2 = w_nalloc w + 1.
Proof.
  intros Hfresh (info & _ & Hfd & Hfree & Hfds & Hname & _ & _ & Hlf & Hlp
                 & _ & Hbo & Hext & Hna & Hfs & Hnone & Hobjs
                 & Hbtf)%from_id_inv.
  unfold xdp_program__free, mbind, M_bind, bind.
  rewrite Hlf, Hlp, Hname, Hext, Hbo. cbn [Z.geb Z.compare ret negb].
  rewrite Z.geb_leb. apply Z.leb_le in Hfd as ->.
  rewrite (close_restores w1 (prog_fd h) (FdProg id) (w_fds w)) by done.
  unfold free, modify, ret. cbv beta iota.
  destruct (btf h) as [p|] eqn:Hp.
  - destruct (Hbtf p eq_refl) as (-> & b & Hbtfs).
    unfold btf__free. cbv beta iota.
    cbn [w_btfs set_w_fds set_w_nalloc].
    rewrite Hbtfs, lookup_insert_eq. eexists. split; [done|]. cbn.
    rewrite delete_insert_id by (apply Hfresh; lia).
    repeat split; try done. lia.
  - destruct (Hnone eq_refl) as (_ & _ & Hbtfs).
    eexists. split; [done|]. cbn. repeat split; try done. lia.
Qed.

Lemma from_id_free_round_trip_witness :
  ∃ h w1,
    xdp_program__from_id 22 world0 = Some (inr h, w1)
    ∧ ∃ w2, xdp_program__free h w1 = Some (tt, w2)
        ∧ w_fds w2 = w_fds world0 ∧ w_btfs w2 = w_btfs world0
        ∧ w_objs w2 = w_objs world0 ∧ w_fs w2 = w_fs world0
        ∧ w_nalloc w2 = w_nalloc world0 + 1.
Proof.
  eexists _, _. split; [vm_compute; reflexivity|].
  apply (from_id_free_round_trip 22 world0).
  - intros p _. split; reflexivity.
  - vm_compute. reflexivity.
Defined.

Lemma fill_from_obj_inv h0 obj name external w err h' w' :
  xdp_program__fill_from_obj h0 obj name external w = Some ((err, h'), w') →
  ∃ o, w_objs w !! obj = Some o
    ∧ match selected_program o name with
      | None => err = - ENOENT ∧ h' = h0 ∧ w' = w
      | Some bp =>
          (err = - ENOMEM ∧ h' = set_prog_name None h0
           ∧ w' = set_w_errno ENOMEM w)
          ∨ (w' = count_alloc w
             ∧ same_identity (filled_from_obj obj o bp external h0) h'
             ∧ (err ≠ 0 → err ≠ - ENOENT)
             ∧ (o_btf o = None →
                err = 0 ∧ h' = filled_from_obj obj o bp external h0))
      end.
Proof.
  unfold xdp_program__fill_from_obj, mbind, M_bind, bind.
  assert (match name with
          | Some title => bpf_object__find_program_by_title obj title
          | None => bpf_program__next obj
          end w
          = match w_objs w !! obj with
            | Some o => Some (selected_program o name, w)
            | None => None
            end) as ->.
  { unfold bpf_object__find_program_by_title, bpf_program__next,
      selected_program.
    by destruct name, (w_objs w !! obj). }
  destruct (w_objs w !! obj) as [o|] eqn:Hobj; [|done].
  intros Hrun. exists o. split; [done|]. revert Hrun. cbv beta iota.
  destruct (selected_program o name) as [bp|]; [|by intros [= <- <- <-]].
  unfold strdup, malloc, mbind, M_bind, bind.
  destruct (malloc_succeeds w); cbn [ret].
  2: { intros [= <- <- <-]. by left. }
  unfold bpf_object__btf. cbn [w_objs count_alloc set_w_nalloc
    set_w_malloc_left]. rewrite Hobj.
  fold (filled_from_obj obj o bp external h0).
  destruct (parse_run_config_of _ (count_alloc w)) as [[[e h1] wp]|]
    eqn:Hparse; [|done].
  apply parse_run_config_of_inv in Hparse as (-> & Hid & Hnone).
  destruct (Z.eqb_spec e 0) as [->|He]; cbn [negb andb].
  { intros [= <- <- <-]. right. split; [done|]. split; [done|].
    split; [done|]. intros Hb. split; [done|]. by apply Hnone. }
  destruct (Z.eqb_spec e (- ENOENT)) as [->|He']; cbn [negb].
  - intros [= <- <- <-]. right. split; [done|]. split; [done|].
    split; [done|]. intros Hb. split; [done|]. by apply Hnone.
  - intros [= <- <- <-]. right. split; [done|]. split; [done|].
    split; [done|]. intros Hb. by destruct (Hnone Hb) as [-> _].
Qed.

Lemma free_unfilled_handle w :
  xdp_program__free (set_prog_name None new_handle) w = Some (tt, w)
  ∧ xdp_program__free new_handle w = Some (tt, w).
Proof. done. Qed.

(** X18. A handle built from a caller's object.  Whatever
    [xdp_program__from_bpf_obj] returns, the caller's object and its type
    information stay alive and no descriptor is opened.  A returned handle
    refers to the object and to the selected program, carries that
    program's name and is marked external; apart from priority and
    chain-call actions it is the fresh handle so filled.  On an error the
    code is not zero, and the handle block that was allocated is not
    released. *)
Theorem from_bpf_obj_result obj name w r w' :
  xdp_program__from_bpf_obj obj name w = Some (r, w') →
  w_objs w' = w_objs w ∧ w_btfs w' = w_btfs w ∧ w_fds w' = w_fds w
  ∧ match r with
    | inr h =>
        ∃ o bp,
          w_objs w !! obj = Some o ∧ selected_program o name = Some bp
          ∧ same_identity (filled_from_obj obj o bp true new_handle) h
          ∧ w_nalloc w' = w_nalloc w + 2
    | inl err =>
        err ≠ 0
        ∧ w_nalloc w' = w_nalloc w + (if malloc_succeeds w then 1 else 0)
    end.
Proof.
  unfold xdp_program__from_bpf_obj, xdp_program__new, malloc, mbind, M_bind,
    bind.
  destruct (malloc_succeeds w); cbn [ret].
  2: { intros [= <- <-]. cbn. repeat split; try done. lia. }
  fold new_handle.
  destruct (xdp_program__fill_from_obj new_handle obj name true
              (count_alloc w)) as [[[e h'] w2]|] eqn:Hfill; [|done].
  apply fill_from_obj_inv in Hfill as (o & Hobj & Hcase).
  cbn in Hobj.
  destruct (Z.eqb_spec e 0) as [->|He]; cbn [negb].
  - intros [= <- <-].
    destruct (selected_program o name) as [bp|] eqn:Hsel;
      [|by destruct Hcase as (? & _)].
    destruct Hcase as [(? & _)|(-> & Hid & _)]; [done|].
    cbn. repeat split; try done. exists o, bp.
    split; [done|]. split; [done|]. split; [exact Hid|]. lia.
  - destruct (selected_program o name) as [bp|].
    2: { destruct Hcase as (-> & -> & ->).
         rewrite (proj2 (free_unfilled_handle _)).
         intros [= <- <-]. cbn. repeat split; try done. }
    destruct Hcase as [(-> & -> & ->)|(-> & Hid & _)].
    { rewrite (proj1 (free_unfilled_handle _)).
      intros [= <- <-]. cbn. repeat split; try done. }
    destruct Hid as (_ & _ & _ & Hpf & Hlf & Hlp & Hpn & _ & _ & Hext).
    cbn in Hpf, Hlf, Hlp, Hpn, Hext.
    destruct (free_external h' (count_alloc (count_alloc w)) Hext)
      as (wf & -> & Hobjs & Hbtfs & Hfds & Hna & _).
    intros [= <- <-]. unfold closed_fds in Hfds.
    unfold freed_strings in Hna.
    rewrite Hpf, Hlf in Hfds. rewrite Hlp, Hpn in Hna. cbn in *.
    repeat split; try done. lia.
Qed.

Lemma from_bpf_obj_result_witness :
  ∃ r w',
    xdp_program__from_bpf_obj 2%N None world_foo = Some (r, w')
    ∧ w_objs w' = w_objs world_foo ∧ w_btfs w' = w_btfs world_foo
    ∧ w_fds w' = w_fds world_foo
    ∧ match r with
      | inr h =>
          ∃ o bp,
            w_objs world_foo !! 2%N = Some o
            ∧ selected_program o None = Some bp
            ∧ same_identity (filled_from_obj 2%N o bp true new_handle) h
            ∧ w_nalloc w' = w_nalloc world_foo + 2
      | inl err =>
          err ≠ 0
          ∧ w_nalloc w'
            = w_nalloc world_foo
              + (if malloc_succeeds world_foo then 1 else 0)
      end.
Proof.
  eexists _, _. split; [vm_compute; reflexivity|].
  apply (from_bpf_obj_result 2%N None world_foo).
  vm_compute. reflexivity.
Defined.

Lemma bpf_object__open_file_inv f w r w' :
  heap_fresh w →
  bpf_object__open_file f w = Some (r, w') →
  w_fds w' = w_fds w ∧ w_nalloc w' = w_nalloc w
  ∧ w_malloc_left w' = w_malloc_left w
  ∧ match r with
    | inl err =>
        match w_disk w !! f with
        | None => err = - ENOENT
        | Some (Refused errno) => err = - Z.pos errno
        | Some (Image _) => err = - ENOMEM
        end
        ∧ w_objs w' = w_objs w ∧ w_btfs w' = w_btfs w
    | inr o =>
        ∃ obj,
          w_objs w !! o = None ∧ w_objs w' = <[o := obj]> (w_objs w)
          ∧ match o_btf obj with
            | None => w_btfs w' = w_btfs w
            | Some p =>
                w_btfs w !! p = None ∧ ∃ b, w_btfs w' = <[p := b]> (w_btfs w)
            end
    end.
Proof.
  intros Hfresh. unfold bpf_object__open_file.
  destruct (w_disk w !! f) as [[img|errno]|];
    [|intros [= <- <-]; auto 10..].
  destruct (malloc_succeeds w); [|intros [= <- <-]; auto 10].
  unfold btf__new, new_address, modify, mbind, M_bind, bind, ret.
  destruct (img_btf img) as [b|]; intros [= <- <-]; cbn;
    (split; [done|]); (split; [done|]); (split; [done|]);
    eexists; (split; [|split; [reflexivity|]]); cbn.
  - apply Hfresh. lia.
  - split; [apply Hfresh; lia|]. by exists b.
  - apply Hfresh. lia.
  - done.
Qed.

Lemma close_opened o obj objs0 btfs0 wx :
  objs0 !! o = None → w_objs wx = <[o := obj]> objs0 →
  match o_btf obj with
  | None => w_btfs wx = btfs0
  | Some p => btfs0 !! p = None ∧ ∃ b, w_btfs wx = <[p := b]> btfs0
  end →
  ∃ wy, bpf_object__close o wx = Some (tt, wy)
    ∧ w_objs wy = objs0 ∧ w_btfs wy = btfs0
    ∧ w_fds wy = w_fds wx ∧ w_nalloc wy = w_nalloc wx.
Proof.
  intros Hfree Hobjs Hbtf.
  unfold bpf_object__close, modify, mbind, M_bind, bind.
  rewrite Hobjs, lookup_insert_eq, delete_insert_id by done.
  destruct (o_btf obj) as [p|]; cbn.
  - destruct Hbtf as (Hp & b & ->). rewrite lookup_insert_eq.
    eexists. split; [done|]. cbn. by rewrite delete_insert_id.
  - eexists. split; [done|]. by cbn.
Qed.

Lemma free_owned h o n w :
  from_external_obj h = false → bpf_obj h = Some o →
  link_fd h = -1 → prog_fd h = -1 →
  link_pin_path h = None → prog_name h = Some n →
  xdp_program__free h w
  = bpf_object__close o (set_w_nalloc (w_nalloc w - 1) w).
Proof.
  intros Hext Hobj Hlf Hpf Hlp Hpn.
  unfold xdp_program__free, mbind, M_bind, bind.
  by rewrite Hlf, Hpf, Hlp, Hpn, Hext, Hobj.
Qed.

(** X19. A handle opened from a file owns its object.  On a fresh heap,
    a handle returned by [xdp_program__open_file] is not external and
    refers to the object opened for it; freeing it closes that object and
    its type information, so that objects, type information and
    descriptors are as before the open, while the handle block itself stays
    allocated.  An error that comes back leaves no object behind.  It is
    the error of libbpf's open, handed on as it is (-ENOENT for a missing
    file, libbpf's own error for a file it refuses), or, for a file that
    libbpf opened, -ENOENT (no such program) or -ENOMEM: a rejection by the
    metadata parser does not come back as an error code, because that path
    closes the object a second time. *)
Theorem open_file_result filename name w r w1 :
  heap_fresh w →
  xdp_program__open_file filename name w = Some (r, w1) →
  match r with
  | inr h =>
      from_external_obj h = false ∧ is_Some (bpf_obj h)
      ∧ ∃ w2, xdp_program__free h w1 = Some (tt, w2)
          ∧ w_objs w2 = w_objs w ∧ w_btfs w2 = w_btfs w
          ∧ w_fds w2 = w_fds w ∧ w_nalloc w2 = w_nalloc w + 1
  | inl err =>
      match w_disk w !! filename with
      | None => err = - ENOENT
      | Some (Refused errno) => err = - Z.pos errno
      | Some (Image _) => err = - ENOENT ∨ err = - ENOMEM
      end
      ∧ w_objs w1 = w_objs w ∧ w_btfs w1 = w_btfs w ∧ w_fds w1 = w_fds w
  end.
Proof.
  intros Hfresh. unfold xdp_program__open_file, mbind, M_bind, bind.
  destruct (bpf_object__open_file filename w) as [[ro wo]|] eqn:Hopened;
    [|done].
  pose proof (bpf_object__open_file_inv _ _ _ _ Hfresh Hopened)
    as (Hfds & Hna & Hml & Hopen).
  destruct ro as [err|o]; cbn [libbpf_get_error].
  { destruct Hopen as (Herr & Hobjs & Hbtfs).
    destruct (Z.eqb_spec err 0) as [->|_]; cbn [negb].
    - by destruct (w_disk w !! filename) as [[img|errno]|].
    - intros [= <- <-]. split; [|done].
      destruct (w_disk w !! filename) as [[img|errno]|]; auto. }
  cbn [Z.eqb negb]. destruct Hopen as (obj & Hfree & Hobjs & Hbtf).
  assert (∃ img, w_disk w !! filename = Some (Image img)) as [img Himg].
  { revert Hopened. unfold bpf_object__open_file.
    destruct (w_disk w !! filename) as [[img|errno]|]; [by eauto|done..]. }
  rewrite Himg.
  unfold xdp_program__new, malloc, mbind, M_bind, bind.
  destruct (malloc_succeeds wo); cbn [ret].
  2: { destruct (close_opened o obj (w_objs w) (w_btfs w)
                   (set_w_errno ENOMEM wo) Hfree Hobjs Hbtf)
         as (wy & -> & Hobjsy & Hbtfsy & Hfdsy & _).
       intros [= <- <-]. repeat split; try done; [by right|].
       by rewrite Hfdsy. }
  fold new_handle.
  destruct (xdp_program__fill_from_obj new_handle o name false
              (count_alloc wo)) as [[[e h'] w2]|] eqn:Hfill; [|done].
  apply fill_from_obj_inv in Hfill as (obj' & Hobj' & Hcase).
  cbn in Hobj'. rewrite Hobjs, lookup_insert_eq in Hobj'.
  injection Hobj' as <-.
  destruct (selected_program obj name) as [bp|].
  2: { destruct Hcase as (-> & -> & ->).
       change (negb (- ENOENT =? 0)) with true. cbv beta iota.
       rewrite (proj2 (free_unfilled_handle _)).
       destruct (close_opened o obj (w_objs w) (w_btfs w)
                   (count_alloc wo) Hfree Hobjs Hbtf)
         as (wy & -> & Hobjsy & Hbtfsy & Hfdsy & _).
       intros [= <- <-]. repeat split; try done; [by left|].
       by rewrite Hfdsy. }
  destruct Hcase as [(-> & -> & ->)|(-> & Hid & Hne & _)].
  { change (negb (- ENOMEM =? 0)) with true. cbv beta iota.
    rewrite (proj1 (free_unfilled_handle _)).
    destruct (close_opened o obj (w_objs w) (w_btfs w)
                (set_w_errno ENOMEM (count_alloc wo)) Hfree Hobjs Hbtf)
      as (wy & -> & Hobjsy & Hbtfsy & Hfdsy & _).
    intros [= <- <-]. repeat split; try done; [by right|].
    by rewrite Hfdsy. }
  destruct Hid as (_ & Hbo & _ & Hpf & Hlf & Hlp & Hpn & _ & _ & Hext).
  cbn in Hbo, Hpf, Hlf, Hlp, Hpn, Hext.
  set (wc := count_alloc (count_alloc wo)).
  pose proof (free_owned h' o _ wc Hext Hbo Hlf Hpf Hlp Hpn) as Hfreeh.
  destruct (close_opened o obj (w_objs w) (w_btfs w)
              (set_w_nalloc (w_nalloc wc - 1) wc) Hfree Hobjs Hbtf)
    as (wy & Hclose & Hobjsy & Hbtfsy & Hfdsy & Hnay).
  destruct (Z.eqb_spec e 0) as [->|He]; cbn [negb].
  - intros [= <- <-]. split; [done|]. split; [by rewrite Hbo|].
    exists wy. split; [by rewrite Hfreeh|].
    repeat split; try done; [by rewrite Hfdsy|].
    rewrite Hnay. cbn. lia.
  - rewrite Hfreeh, Hclose.
    unfold bpf_object__close. rewrite Hobjsy, Hfree. done.
Qed.

Lemma open_file_result_witness :
  ∃ r w1,
    xdp_program__open_file "foo.o" None world0 = Some (r, w1)
    ∧ match r with
      | inr h =>
          from_external_obj h = false ∧ is_Some (bpf_obj h)
          ∧ ∃ w2, xdp_program__free h w1 = Some (tt, w2)
              ∧ w_objs w2 = w_objs world0 ∧ w_btfs w2 = w_btfs world0
              ∧ w_fds w2 = w_fds world0
              ∧ w_nalloc w2 = w_nalloc world0 + 1
      | inl err =>
          match w_disk world0 !! "foo.o" with
          | None => err = - ENOENT
          | Some (Refused errno) => err = - Z.pos errno
          | Some (Image _) => err = - ENOENT ∨ err = - ENOMEM
          end
          ∧ w_objs w1 = w_objs world0 ∧ w_btfs w1 = w_btfs world0
          ∧ w_fds w1 = w_fds world0
      end.
Proof.
  eexists _, _. split; [vm_compute; reflexivity|].
  apply (open_file_result "foo.o" None world0).
  - intros p _. split; reflexivity.
  - vm_compute. reflexivity.
Defined.

(** A file that libbpf refuses as malformed: its error is the result, and
    nothing was allocated. *)
Lemma open_file_refused_example :
  ∃ w1, xdp_program__open_file "junk.o" None world_junk
        = Some (inl (- 4001), w1)
    ∧ w_objs w1 = ∅ ∧ w_nalloc w1 = 0.
Proof. eexists. split; [vm_compute; reflexivity|]. by vm_compute. Qed.

(** ** The composer and the attacher on one handle *)

Section AttachFurther.
Context `{externals}.

Lemma fill_from_fd_ok prog fd w prog' w' :
  xdp_program__fill_from_fd prog fd w = Some ((0, prog'), w') →
  prog_fd prog' = fd
  ∧ bpf_prog prog' = bpf_prog prog ∧ bpf_obj prog' = bpf_obj prog
  ∧ link_fd prog' = link_fd prog
  ∧ run_prio prog' = run_prio prog
  ∧ chain_call_actions prog' = chain_call_actions prog.
Proof.
  unfold xdp_program__fill_from_fd, bpf_obj_get_info_by_fd, strdup, malloc,
    btf__get_from_id, btf__new, new_address, modify, get_errno, btf__free,
    mbind, M_bind, bind, ret.
  intros Hrun.
  repeat (case_match; simplify_eq; cbn in * ); done.
Qed.

Lemma xdp_program__load_ok prog w prog' w' :
  xdp_program__load prog w = Some ((0, prog'), w') →
  prog_fd prog < 0
  ∧ ∃ obj w0 wl,
      bpf_obj prog = Some obj
      ∧ bpf_object__load obj w = Some (0, w0)
      ∧ bpf_program__fd (bpf_prog prog) w0 = Some (prog_fd prog', wl)
      ∧ bpf_prog prog' = bpf_prog prog ∧ bpf_obj prog' = bpf_obj prog
      ∧ link_fd prog' = link_fd prog
      ∧ run_prio prog' = run_prio prog
      ∧ chain_call_actions prog' = chain_call_actions prog.
Proof.
  unfold xdp_program__load, mbind, M_bind, bind.
  rewrite Z.geb_leb.
  destruct (Z.leb_spec 0 (prog_fd prog)) as [?|Hfd]; [done|].
  destruct (bpf_obj prog) as [obj|] eqn:Hobj; [|done].
  destruct (bpf_object__load obj w) as [[e w0]|] eqn:Hload; [|done].
  destruct (Z.eqb_spec e 0) as [->|He]; cbn [negb].
  2: { intros [= Hz _ _]. done. }
  destruct (bpf_program__fd (bpf_prog prog) w0) as [[fd wl]|] eqn:Hpfd;
    [|done].
  intros (<- & Hrest)%fill_from_fd_ok. split; [done|].
  exists obj, w0, wl. destruct Hrest as (? & ? & ? & ? & ?).
  repeat split; try done. congruence.
Qed.

Lemma attach_result_cases r fd :
  attach_result r fd = fd ∨ attach_result r fd < 0.
Proof.
  unfold attach_result. destruct (Z.ltb_spec r 0); [by right|by left].
Qed.

Lemma set_link_xdp_calls fd ifindex force mode w :
  ∃ r calls,
    set_link_xdp fd ifindex force mode w
    = Some (r, set_w_xdp_log (w_xdp_log w ++ calls) w)
    ∧ (r = fd ∨ r < 0) ∧ attach_calls ifindex fd calls.
Proof.
  assert (∀ r calls,
    attach_calls ifindex fd calls →
    ∃ r' calls',
      Some (attach_result r fd, set_w_xdp_log (w_xdp_log w ++ calls) w)
      = Some (r', set_w_xdp_log (w_xdp_log w ++ calls') w)
      ∧ (r' = fd ∨ r' < 0) ∧ attach_calls ifindex fd calls') as Hres.
  { intros r calls Hcalls. exists (attach_result r fd), calls.
    split; [done|]. split; [apply attach_result_cases|done]. }
  assert (∀ flags, xc_ifindex (xcall ifindex fd flags) = ifindex
                   ∧ (xc_fd (xcall ifindex fd flags) = fd
                      ∨ xc_fd (xcall ifindex fd flags) = -1)) as Hcall
    by (intros; split; [done|by left]).
  assert (∀ flags, xc_ifindex (xcall ifindex (-1) flags) = ifindex
                   ∧ (xc_fd (xcall ifindex (-1) flags) = fd
                      ∨ xc_fd (xcall ifindex (-1) flags) = -1)) as Hdetach
    by (intros; split; [done|by right]).
  destruct force.
  - rewrite set_link_xdp_force. cbv zeta.
    destruct (_ =? - EEXIST); [destruct (_ =? 0)|]; apply Hres;
      (split; [done|]); repeat (apply Forall_cons_2; [done|]);
      apply Forall_nil_2.
  - rewrite set_link_xdp_no_force. cbv zeta. apply Hres.
    split; [done|]. repeat (apply Forall_cons_2; [done|]).
    apply Forall_nil_2.
Qed.

(** X20. Attaching one loaded handle only talks to the interface.  The
    loader, the pin store and the lock are not used: the world changes in
    the log of attach calls alone, all of which name the given interface
    and carry the handle's own descriptor (or -1 for the detach of the
    remediation); the array comes back unchanged and the result is that
    descriptor or a negative error. *)
Theorem attach_single_loaded prog ifindex force mode w :
  0 ≤ prog_fd prog →
  ∃ r calls,
    xdp_attach_programs [prog] ifindex force mode w
    = Some ((r, [prog]), set_w_xdp_log (w_xdp_log w ++ calls) w)
    ∧ (r = prog_fd prog ∨ r < 0)
    ∧ attach_calls ifindex (prog_fd prog) calls.
Proof.
  intros Hfd.
  unfold xdp_attach_programs, composite_fd, mbind, M_bind, bind.
  cbn [length Nat.eqb Nat.ltb Nat.leb].
  rewrite Z.geb_leb. apply Z.leb_le in Hfd as Hfd'. rewrite Hfd'.
  cbn [ret]. apply Z.ltb_ge in Hfd as ->.
  change (length [prog]) with 1%nat. unfold ret. cbv beta iota.
  destruct (set_link_xdp_calls (prog_fd prog) ifindex force mode w)
    as (r & calls & -> & Hr & Hcalls).
  by exists r, calls.
Qed.

(** X21. Attaching one handle that is not loaded yet loads it first and
    then hands the return value of [xdp_program__load] to the attach
    primitive.  A negative value comes back as the error, with no attach
    call made.  On a successful load that value is 0, so every attach call
    carries descriptor 0 (or -1), although the handle's new descriptor is
    the one the loader reported for the program. *)
Theorem attach_single_unloaded prog ifindex force mode w r0 prog' w1 :
  prog_fd prog < 0 →
  xdp_program__load prog w = Some ((r0, prog'), w1) →
  (r0 < 0 →
     xdp_attach_programs [prog] ifindex force mode w
     = Some ((r0, [prog']), w1))
  ∧ (r0 = 0 →
     (∃ r calls,
        xdp_attach_programs [prog] ifindex force mode w
        = Some ((r, [prog']), set_w_xdp_log (w_xdp_log w1 ++ calls) w1)
        ∧ (r = 0 ∨ r < 0)
        ∧ attach_calls ifindex 0 calls)
     ∧ ∃ obj w0 wl,
         bpf_obj prog = Some obj
         ∧ bpf_object__load obj w = Some (0, w0)
         ∧ bpf_program__fd (bpf_prog prog) w0 = Some (prog_fd prog', wl)).
Proof.
  intros Hfd Hload.
  assert (xdp_attach_programs [prog] ifindex force mode w
          = ('(r, progs) ← (if r0 <? 0 then ret (inl r0, [prog'])
                            else ret (inr r0, [prog']));
             match r with
             | inl err => ret (err, progs)
             | inr fd =>
                 r ← set_link_xdp fd ifindex force mode; ret (r, progs)
             end) w1) as ->.
  { unfold xdp_attach_programs, composite_fd, mbind, M_bind, bind.
    cbn [length Nat.eqb Nat.ltb Nat.leb].
    rewrite Z.geb_leb. apply Z.leb_gt in Hfd as ->. rewrite Hload.
    change (length [prog']) with 1%nat. cbn [ret].
    by destruct (r0 <? 0). }
  split.
  - intros Hneg. apply Z.ltb_lt in Hneg as ->. done.
  - intros ->. split.
    + unfold mbind, M_bind, bind. cbn [Z.ltb Z.compare ret].
      destruct (set_link_xdp_calls 0 ifindex force mode w1)
        as (r & calls & -> & Hr & Hcalls).
      by exists r, calls.
    + apply xdp_program__load_ok in Hload
        as (_ & obj & w0 & wl & Hobj & Hl & Hpfd & _).
      by exists obj, w0, wl.
Qed.

(** X22. What the composer's attach loop leaves behind.  When the loop
    over the handles runs to its end, the array has kept its length; each
    handle it passed was not loaded before and had an object, now has the
    descriptor the loader reported and a link descriptor that is not
    negative, and kept its program, object, priority and chain-call
    actions; the handles outside the range are untouched.  In particular
    the loop never succeeds on an array that holds a loaded handle. *)
Theorem attach_slots_links n i dfd progs w progs' w' :
  attach_slots n i dfd progs w = Some ((0, progs'), w') →
  length progs' = length progs
  ∧ (∀ j, (j < i ∨ i + n ≤ j)%nat → progs' !! j = progs !! j)
  ∧ ∀ j, (i ≤ j < i + n)%nat →
      ∃ p p',
        progs !! j = Some p ∧ progs' !! j = Some p'
        ∧ prog_fd p < 0 ∧ is_Some (bpf_obj p)
        ∧ 0 ≤ link_fd p'
        ∧ bpf_prog p' = bpf_prog p ∧ bpf_obj p' = bpf_obj p
        ∧ run_prio p' = run_prio p
        ∧ chain_call_actions p' = chain_call_actions p.
Proof.
  revert i progs w.
  induction n as [|n IH]; intros i progs w; cbn [attach_slots].
  { intros [= <- <-]. split; [done|]. split; [done|]. intros j ?. lia. }
  destruct (progs !! i) as [prog|] eqn:Hprog; [|by unfold fault].
  destruct (Z.eqb_spec (check_snprintf PATH_MAX
                          ("prog" +:+ fmt_d (Z.of_nat i))) 0) as [_|Hc];
    cbn [negb]; [|by intros [= ? _ _]].
  unfold mbind, M_bind, bind.
  destruct (bpf_program__set_attach_target _ _ _ w) as [[e w1]|]; [|done].
  destruct (Z.eqb_spec e 0) as [->|He]; cbn [negb];
    [|by intros [= ? _ _]].
  destruct (bpf_program__set_type_ext _ w1) as [[[] w2]|]; [|done].
  destruct (xdp_program__load prog w2) as [[[e prog1] w3]|] eqn:Hload;
    [|done].
  destruct (Z.eqb_spec e 0) as [->|He]; cbn [negb];
    [|by intros [= ? _ _]].
  apply xdp_program__load_ok in Hload
    as (Hfd & obj & _ & _ & Hobj & _ & _ & Hbp & Hbo & _ & Hrp & Hcc).
  destruct (bpf_raw_tracepoint_open _ w3) as [[lfd w4]|]; [|done].
  destruct (Z.ltb_spec lfd 0) as [Hneg|Hlfd];
    [intros [= ? _ _]; lia|].
  assert (i < length progs)%nat as Hlt by by eapply lookup_lt_Some.
  intros (Hlen & Hout & Hin)%IH.
  rewrite !length_insert in Hlen. split; [done|]. split.
  - intros j Hj. rewrite Hout by lia.
    rewrite !list_lookup_insert_ne by lia. done.
  - intros j Hj. destruct (decide (j = i)) as [->|Hne].
    + exists prog, (set_link_fd lfd prog1). rewrite Hout by lia.
      rewrite list_lookup_insert_eq by by rewrite length_insert.
      rewrite Hobj. cbn. repeat split; eauto. congruence.
    + destruct (Hin j) as (p & p' & Hp & Hrest); [lia|].
      rewrite !list_lookup_insert_ne in Hp by lia. by exists p, p'.
Qed.
End AttachFurther.

Lemma attach_single_loaded_witness :
  ∃ r calls,
    @xdp_attach_programs no_loader [set_prog_fd 3 (blank_handle "foo")]
      42 false XDP_MODE_SKB world_links
    = Some ((r, [set_prog_fd 3 (blank_handle "foo")]),
            set_w_xdp_log (w_xdp_log world_links ++ calls) world_links)
    ∧ (r = prog_fd (set_prog_fd 3 (blank_handle "foo")) ∨ r < 0)
    ∧ attach_calls 42 (prog_fd (set_prog_fd 3 (blank_handle "foo"))) calls.
Proof.
  apply (@attach_single_loaded no_loader
           (set_prog_fd 3 (blank_handle "foo")) 42 false XDP_MODE_SKB
           world_links).
  vm_compute. discriminate.
Defined.

Lemma attach_single_unloaded_witness :
  ∃ prog' w1,
    @xdp_program__load working_loader external_handle world_foo
    = Some ((0, prog'), w1)
    ∧ prog_fd prog' = 3
    ∧ ∃ r calls,
        @xdp_attach_programs working_loader [external_handle] 42 false
          XDP_MODE_SKB world_foo
        = Some ((r, [prog']), set_w_xdp_log (w_xdp_log w1 ++ calls) w1)
        ∧ (r = 0 ∨ r < 0)
        ∧ attach_calls 42 0 calls.
Proof.
  eexists _, _. split; [vm_compute; reflexivity|]. split; [reflexivity|].
  refine (proj1 (proj2 (@attach_single_unloaded working_loader
    external_handle 42 false XDP_MODE_SKB world_foo 0 _ _ _ _) _)).
  - vm_compute. reflexivity.
  - vm_compute. reflexivity.
  - reflexivity.
Defined.

Lemma attach_slots_links_witness :
  ∃ progs' w',
    @attach_slots working_loader 1 0 7 [external_handle] world_foo
    = Some ((0, progs'), w')
    ∧ length progs' = length [external_handle]
    ∧ (∀ j, (j < 0 ∨ 0 + 1 ≤ j)%nat →
         progs' !! j = [external_handle] !! j)
    ∧ ∀ j, (0 ≤ j < 0 + 1)%nat →
        ∃ p p',
          [external_handle] !! j = Some p ∧ progs' !! j = Some p'
          ∧ prog_fd p < 0 ∧ is_Some (bpf_obj p)
          ∧ 0 ≤ link_fd p'
          ∧ bpf_prog p' = bpf_prog p ∧ bpf_obj p' = bpf_obj p
          ∧ run_prio p' = run_prio p
          ∧ chain_call_actions p' = chain_call_actions p.
Proof.
  eexists _, _. split; [vm_compute; reflexivity|].
  eapply (@attach_slots_links working_loader 1 0 7 [external_handle]
            world_foo).
  vm_compute. reflexivity.
Defined.

(** ** Printing the chain-call actions *)

Lemma poke_all_spec buf pos cs :
  (pos + length cs ≤ length buf)%nat →
  poke_all buf pos cs
  = Some (take pos buf ++ cs ++ drop (pos + length cs) buf)%list.
Proof.
  revert buf pos. induction cs as [|c cs IH]; intros buf pos Hlen; simpl.
  { by rewrite Nat.add_0_r, take_drop. }
  simpl in Hlen. unfold poke.
  destruct (Nat.ltb_spec pos (length buf)) as [Hlt|?]; [|lia].
  rewrite IH by (rewrite length_insert; lia).
  f_equal.
  rewrite (take_S_r _ _ c) by by apply list_lookup_insert_eq.
  rewrite take_insert_ge by lia.
  rewrite drop_insert_lt by lia.
  rewrite <- app_assoc. simpl. by rewrite Nat.add_succ_r.
Qed.

Lemma string_length_chars s :
  length (list_ascii_of_string s) = String.length s.
Proof. induction s as [|c s IH]; simpl; [done|by rewrite IH]. Qed.

Lemma snprintf_s_fits buf pos size s :
  Z.of_nat (String.length s) < size →
  (pos + String.length s + 1 ≤ length buf)%nat →
  snprintf_s buf pos size s
  = Some (Z.of_nat (String.length s),
          (take pos buf ++ list_ascii_of_string s
           ++ NUL :: drop (pos + String.length s + 1) buf)%list).
Proof.
  intros Hsize Hlen. unfold snprintf_s.
  destruct (Z.eqb_spec size 0) as [?|_]; [lia|].
  rewrite Z.min_l, Nat2Z.id by lia.
  rewrite take_ge by (rewrite string_length_chars; lia).
  rewrite poke_all_spec
    by (rewrite length_app, string_length_chars; simpl; lia).
  rewrite length_app, string_length_chars. simpl.
  rewrite <- app_assoc. simpl.
  by replace (pos + (String.length s + 1))%nat
    with (pos + String.length s + 1)%nat by lia.
Qed.

Lemma comma_join_snoc d name :
  d ≠ [] →
  comma_join (d ++ [name])
  = (comma_join d ++ "," %char :: list_ascii_of_string name)%list.
Proof.
  destruct d as [|n d]; [done|]. intros _. simpl.
  rewrite flat_map_app. simpl. by rewrite app_nil_r, <- app_assoc.
Qed.

Lemma comma_join_single name :
  comma_join [name] = list_ascii_of_string name.
Proof. unfold comma_join. simpl. apply app_nil_r. Qed.

Lemma u64_small x : 0 ≤ x < 2 ^ 64 → u64 x = x.
Proof. intros Hx. unfold u64. by apply Z.mod_small. Qed.

Lemma print_action_step prog buf0 L d rem i name st :
  L < 2 ^ 64 → L ≤ Z.of_nat (length buf0) →
  (String.length name ≤ 12)%nat →
  print_inv buf0 L d (S rem) st →
  ∃ st',
    print_action prog i name st = Some st'
    ∧ print_inv buf0 L
        (if xdp_program__chain_call_enabled prog i
         then (d ++ [name])%list else d) rem st'.
Proof.
  intros HL Hcap Hname (Hbl & Hlen & Hroom & Hd). unfold print_action.
  destruct (xdp_program__chain_call_enabled prog i).
  2: { exists st. split; [done|]. unfold print_inv.
       repeat split; try done; lia. }
  set (n := String.length name) in *.
  destruct d as [|d0 d].
  - destruct Hd as (-> & Hpos & Hbuf). cbn [negb ps_buf ps_pos ps_buf_len
      ps_len ps_first].
    rewrite Hpos in *. rewrite Hbl, Hbuf.
    rewrite u64_small by lia.
    rewrite snprintf_s_fits by (fold n; lia).
    fold n. eexists. split; [reflexivity|].
    cbn [ps_buf ps_pos ps_buf_len ps_len ps_first app].
    rewrite Nat2Z.id, u64_small by lia.
    unfold print_inv. cbn [ps_buf ps_pos ps_buf_len ps_len ps_first].
    split; [lia|]. split; [lia|]. split; [lia|].
    rewrite comma_join_single. unfold holds.
    rewrite string_length_chars. fold n.
    split; [done|]. split; [done|]. simpl.
    by replace (n + 1)%nat with (S n) by lia.
  - destruct Hd as (-> & Hpos & Hbuf). cbn [negb]. unfold poke.
    set (out := comma_join (d0 :: d)) in *.
    destruct (Nat.ltb_spec (ps_pos st) (length (ps_buf st))) as [_|Hge].
    2: { rewrite Hbuf in Hge. unfold holds in Hge.
         rewrite length_app in Hge. simpl in Hge. lia. }
    cbn [ps_buf ps_pos ps_buf_len ps_len ps_first].
    rewrite Hbl, Hbuf, Hpos. unfold holds.
    rewrite insert_app_r_alt, Nat.sub_diag by done. cbn [insert list_insert].
    rewrite (u64_small (L - Z.of_nat (length out) - 1)) by lia.
    rewrite u64_small by lia.
    rewrite snprintf_s_fits.
    2: { fold n. lia. }
    2: { fold n. rewrite length_app. simpl. rewrite length_drop. lia. }
    fold n. eexists. split; [reflexivity|].
    cbn [ps_buf ps_pos ps_buf_len ps_len ps_first].
    rewrite Nat2Z.id, u64_small by lia.
    unfold print_inv. cbn [ps_buf ps_pos ps_buf_len ps_len ps_first].
    split; [lia|]. split; [lia|]. split; [lia|].
    change ((d0 :: d) ++ [name])%list with (d0 :: (d ++ [name]))%list.
    change (d0 :: (d ++ [name]))%list with ((d0 :: d) ++ [name])%list.
    destruct ((d0 :: d) ++ [name])%list as [|e1 e] eqn:He; [done|].
    rewrite <- He, comma_join_snoc by done. fold out.
    split; [done|]. split.
    { rewrite length_app. simpl. rewrite string_length_chars. fold n. lia. }
    unfold holds.
    rewrite (cons_middle "," %char out (drop (S (length out)) buf0)).
    rewrite (app_assoc out ["," %char]).
    rewrite take_app_length' by (rewrite length_app; simpl; lia).
    replace (S (length out) + n + 1)%nat
      with (S (length out) + (n + 1))%nat by lia.
    rewrite (drop_app_add' _ _ (S (length out)) (n + 1))
      by (rewrite length_app; simpl; lia).
    rewrite drop_drop, <- !app_assoc. simpl.
    rewrite length_app. simpl. rewrite string_length_chars. fold n.
    by replace (S (length out + S n)) with (S (length out) + (n + 1))%nat
      by lia.
Qed.

Lemma print_actions_run prog buf0 L i names d st :
  L < 2 ^ 64 → L ≤ Z.of_nat (length buf0) →
  Forall (λ s, (String.length s ≤ 12)%nat) names →
  print_inv buf0 L d (length names) st →
  ∃ st',
    print_actions prog i names st = Some st'
    ∧ print_inv buf0 L (d ++ enabled_from prog i names)%list 0 st'.
Proof.
  intros HL Hcap Hnames. revert i d st.
  induction Hnames as [|name names Hname _ IH]; intros i d st Hinv;
    cbn [print_actions enabled_from].
  { exists st. by rewrite app_nil_r. }
  destruct (print_action_step prog buf0 L d (length names) i name st)
    as (st1 & -> & Hinv1); [done..|].
  destruct (IH (i + 1) _ st1 Hinv1) as (st' & Hrun & Hinv').
  exists st'. split; [done|].
  destruct (xdp_program__chain_call_enabled prog i); [|done].
  by rewrite <- app_assoc in Hinv'.
Qed.

(** X23. What the printer writes.  Given a buffer of at least 128 bytes,
    [xdp_program__print_chain_call_actions] returns 0 and leaves in the
    buffer the names of the enabled actions in the order of their codes,
    separated by commas and terminated by a NUL, with the rest of the
    buffer as it was.  When none of the five actions is enabled nothing is
    stored at all, not even a terminator. *)
Theorem print_chain_call_actions_output prog buf buf_len :
  128 ≤ buf_len < 2 ^ 64 → buf_len ≤ Z.of_nat (length buf) →
  xdp_program__print_chain_call_actions prog buf buf_len
  = Some (0, match enabled_names prog with
             | [] => buf
             | _ :: _ => holds (comma_join (enabled_names prog)) buf
             end).
Proof.
  intros Hlen Hcap. unfold xdp_program__print_chain_call_actions.
  destruct (print_actions_run prog buf buf_len 0 xdp_action_names []
              {| ps_buf := buf; ps_pos := 0; ps_buf_len := buf_len;
                 ps_len := 0; ps_first := true |})
    as (st & -> & _ & _ & _ & Hout); [lia|done| | |].
  - repeat constructor; cbn; lia.
  - unfold print_inv. cbn. repeat split; try done; lia.
  - cbn [app] in Hout. fold (enabled_names prog) in Hout.
    destruct (enabled_names prog); by destruct Hout as (_ & _ & ->).
Qed.

Lemma print_chain_call_actions_output_witness :
  xdp_program__print_chain_call_actions
    (set_chain_call_actions 6 (blank_handle "foo")) (replicate 128 "x"%char)
    128
  = Some (0, holds (list_ascii_of_string "XDP_DROP,XDP_PASS")
               (replicate 128 "x"%char)).
Proof.
  apply (print_chain_call_actions_output
           (set_chain_call_actions 6 (blank_handle "foo"))
           (replicate 128 "x"%char) 128).
  - lia.
  - vm_compute. discriminate.
Defined.
